(** * HdrHistogram log codec: [hdr_histogram_log.c]

    A shallow embedding of the string helpers, the Base64 codec, the error
    messages, the compressed histogram encoding and the log parser of
    [src/main/c/hdr_histogram_log.c], and the properties of these functions.

    Conventions.
    - A C buffer together with its length argument is a [list byte]; a C
      string is the list of its characters without the terminating NUL.
    - C integers are [Z]; every place where the C code truncates or
      reinterprets an integer writes the wrap-around out ([wrap32s],
      [wrap64s], [Z.land], ...).
    - zlib, [hdr_init], [hdr_percentiles_print] and the allocator are not
      part of the file; they are parameters of the model (Section
      variables), so every statement holds for any behaviour they may have
      unless a hypothesis says otherwise. *)

From Stdlib Require Import ZArith Lia List Bool String.
From coqutil Require Import Byte Word.LittleEndianList Z.bitblast.
From stdpp Require Import base list.
Import ListNotations.
Local Open Scope Z_scope.

(** ** Machine integers and byte order *)

(** Reinterpretation of a value as [int32_t] / [int64_t] (two's complement). *)
Definition wrap32s (x : Z) : Z := (x + 2 ^ 31) mod 2 ^ 32 - 2 ^ 31.
Definition wrap64s (x : Z) : Z := (x + 2 ^ 63) mod 2 ^ 64 - 2 ^ 63.

(** The byte order of the machine that runs the code. *)
Inductive byte_order := BigEndian | LittleEndian.

(** [n] bytes of a value, most significant first. *)
Definition be_split (n : nat) (x : Z) : list byte := rev (le_split n x).
Definition be_combine (bs : list byte) : Z := le_combine (rev bs).

(** What a store of an [n]-byte integer puts in memory, and what a load of
    an [n]-byte integer reads from it (unsigned value). *)
Definition store_int (host : byte_order) (n : nat) (x : Z) : list byte :=
  match host with
  | BigEndian => be_split n x
  | LittleEndian => le_split n x
  end.

Definition load_int (host : byte_order) (bs : list byte) : Z :=
  match host with
  | BigEndian => be_combine bs
  | LittleEndian => le_combine bs
  end.

Definition bswap (n : nat) (x : Z) : Z := le_combine (rev (le_split n x)).

(** [htobe32], [be32toh], [htobe64], [be64toh] of <endian.h>: the identity
    on a big-endian host, a byte swap on a little-endian one.  The result is
    the unsigned 32- or 64-bit value. *)
Definition htobe32 (host : byte_order) (x : Z) : Z :=
  match host with
  | BigEndian => x mod 2 ^ 32
  | LittleEndian => bswap 4 x
  end.
Definition be32toh := htobe32.

Definition htobe64 (host : byte_order) (x : Z) : Z :=
  match host with
  | BigEndian => x mod 2 ^ 64
  | LittleEndian => bswap 8 x
  end.
Definition be64toh := htobe64.

(** A slice [buf[off .. off+n)] of a buffer. *)
Definition slice (off n : nat) (buf : list byte) : list byte :=
  firstn n (skipn off buf).

(** Bytes written to the start of a memory area: the area keeps its size
    and its old contents after the written prefix. *)
Definition overlay (written area : list byte) : list byte :=
  firstn (length area) (written ++ skipn (length written) area).

(** ** Error codes *)

(** <errno.h> values of Linux and macOS. *)
Definition EINVAL : Z := 22.
Definition ENOMEM : Z := 12.

Definition HDR_COMPRESSION_COOKIE_MISMATCH : Z := -29999.
Definition HDR_ENCODING_COOKIE_MISMATCH : Z := -29998.
Definition HDR_DEFLATE_INIT_FAIL : Z := -29997.
Definition HDR_DEFLATE_FAIL : Z := -29996.
Definition HDR_INFLATE_INIT_FAIL : Z := -29995.
Definition HDR_INFLATE_FAIL : Z := -29994.
Definition HDR_DEFLATE_NEED_REALLOC : Z := -29993.

(** [hdr_strerror]: the message of an error number. *)
Definition hdr_strerror (errnum : Z) : string :=
  if errnum =? EINVAL then "Invalid argument"
  else if errnum =? ENOMEM then "Out of memory"
  else if errnum =? HDR_COMPRESSION_COOKIE_MISMATCH then "Compression cookie mismatch"
  else if errnum =? HDR_ENCODING_COOKIE_MISMATCH then "Encoding cookie mismatch"
  else if errnum =? HDR_DEFLATE_INIT_FAIL then "Deflate initialisation failed"
  else if errnum =? HDR_DEFLATE_FAIL then "Deflate failed"
  else if errnum =? HDR_INFLATE_INIT_FAIL then "Inflate initialisation failed"
  else if errnum =? HDR_INFLATE_FAIL then "Inflate failed"
  else if errnum =? HDR_DEFLATE_NEED_REALLOC then "Deflate - need to realloc buffer"
  else "Unknown error".

(** ** Strings *)

(** The characters of a string literal. *)
Definition chars (s : string) : list byte := list_byte_of_string s.

(** The newline character, as a string. *)
Definition nl : string := String (Ascii.ascii_of_nat 10) EmptyString.

(** [isspace] in the C locale: space, and the controls 9 to 13. *)
Definition isspace (c : byte) : bool :=
  let n := byte.unsigned c in (n =? 32) || ((9 <=? n) && (n <=? 13)).

(** The loop of [null_trailing_whitespace], which walks [s] from its last
    character: the argument is the reversed string.  White space is
    overwritten with NUL until a character that is not white space. *)
Fixpoint null_trailing_rev (r : list byte) : list byte :=
  match r with
  | [] => []
  | c :: r' => if isspace c then null_trailing_rev r' else r
  end.

(** The string [s] holds after [null_trailing_whitespace (s, strlen s)], and
    the value returned. *)
Definition null_trailing_whitespace (s : list byte) : list byte * Z :=
  let s' := rev (null_trailing_rev (rev s)) in (s', Z.of_nat (length s')).

(** [starts_with]: the first character that is not white space is [c];
    true for a string of white space only. *)
Fixpoint starts_with (s : list byte) (c : byte) : bool :=
  match s with
  | [] => true
  | x :: s' => if isspace x then starts_with s' c else Z.eqb (byte.unsigned x) (byte.unsigned c)
  end.

Definition is_comment (s : list byte) : bool := starts_with s (byte.of_Z 35).

(** ** Base64 *)

Definition base64_table : list byte :=
  chars "ABCDEFGHIJKLMNOPQRSTUVWXYZabcdefghijklmnopqrstuvwxyz0123456789+/"
    ++ [Byte.x00].

Definition get_base_64 (_24_bit_value shift : Z) : byte :=
  let _6_bit_value := Z.land 63 (Z.shiftr _24_bit_value shift) in
  nth (Z.to_nat _6_bit_value) base64_table Byte.x00.

(** [from_base_64 (int c)]: the value of a Base64 symbol; [EINVAL] is
    returned as a value for any other character. *)
Definition from_base_64 (c : Z) : Z :=
  if (65 <=? c) && (c <=? 90) then c - 65
  else if (97 <=? c) && (c <=? 122) then (c - 97) + 26
  else if (48 <=? c) && (c <=? 57) then (c - 48) + 52
  else if 43 =? c then 62
  else if 47 =? c then 63
  else if 61 =? c then 0
  else EINVAL.

(** [ceil (decoded_size / 3.0) * 4.0], computed in double precision in the
    source: the conversion of the size, the division and the product are
    exact for a size below [2 ^ 53], and the result is then this integer.
    The definition stands for such sizes only; every length of a list of
    bytes in memory is one. *)
Definition base64_encoded_len (decoded_size : Z) : Z :=
  (decoded_size + 2) / 3 * 4.

Definition base64_decoded_len (encoded_size : Z) : Z :=
  encoded_size / 4 * 3.

(** [input[i]] as an [int]. *)
Definition at_ (input : list byte) (i : nat) : Z := byte.unsigned (nth i input Byte.x00).

(** The four characters [base64_encode_block_pad] writes; nothing for a
    [pad] other than 1 and 2. *)
Definition base64_encode_block_pad (input : list byte) (pad : Z) : list byte :=
  if pad =? 2 then
    let v := Z.shiftl (at_ input 0) 16 + Z.shiftl (at_ input 1) 8 in
    [get_base_64 v 18; get_base_64 v 12; get_base_64 v 6; byte.of_Z 61]
  else if pad =? 1 then
    let v := Z.shiftl (at_ input 0) 16 in
    [get_base_64 v 18; get_base_64 v 12; byte.of_Z 61; byte.of_Z 61]
  else [].

Definition base64_encode_block (input : list byte) : list byte :=
  let v := Z.shiftl (at_ input 0) 16 + Z.shiftl (at_ input 1) 8 + at_ input 2 in
  [get_base_64 v 18; get_base_64 v 12; get_base_64 v 6; get_base_64 v 0].

(** The loop of [base64_encode]: [input] is what is left from [&input[i]],
    so [input_len - i >= 3] reads "three bytes are left".  The result is
    what is written from [&output[j]] on. *)
Fixpoint base64_encode_loop (input : list byte) (j output_len : Z) : list byte :=
  match input with
  | b0 :: b1 :: b2 :: rest =>
      if j <? output_len
      then base64_encode_block [b0; b1; b2] ++ base64_encode_loop rest (j + 4) output_len
      else base64_encode_block_pad input (Z.of_nat (length input))
  | _ => base64_encode_block_pad input (Z.of_nat (length input))
  end.

(** [base64_encode]: the value returned and the characters written. *)
Definition base64_encode (input : list byte) (output_len : Z) : Z * list byte :=
  if negb (base64_encoded_len (Z.of_nat (length input)) =? output_len)
  then (EINVAL, [])
  else (0, base64_encode_loop input 0 output_len).

Definition base64_decode_block (input : list byte) : list byte :=
  let v := Z.lor (Z.lor (Z.lor (Z.shiftl (from_base_64 (at_ input 0)) 18)
                               (Z.shiftl (from_base_64 (at_ input 1)) 12))
                        (Z.shiftl (from_base_64 (at_ input 2)) 6))
                 (from_base_64 (at_ input 3)) in
  [byte.of_Z (Z.land (Z.shiftr v 16) 255);
   byte.of_Z (Z.land (Z.shiftr v 8) 255);
   byte.of_Z (Z.land v 255)].

(** The loop of [base64_decode], entered with a length that is a multiple
    of four. *)
Fixpoint base64_decode_loop (input : list byte) : list byte :=
  match input with
  | c0 :: c1 :: c2 :: c3 :: rest =>
      base64_decode_block [c0; c1; c2; c3] ++ base64_decode_loop rest
  | _ => []
  end.

(** [base64_decode]: the value returned and the bytes written. *)
Definition base64_decode (input : list byte) (output_len : Z) : Z * list byte :=
  let input_len := Z.of_nat (length input) in
  if (input_len <? 4) || negb (Z.land input_len 3 =? 0)
     || negb (input_len / 4 * 3 =? output_len)
  then (EINVAL, [])
  else (0, base64_decode_loop input).

(** The number of bytes missing from the last group of three. *)
Definition missing (input : list byte) : nat := ((3 - length input mod 3) mod 3)%nat.

(** ** The C library: strings, [sscanf], [fgets], [getline] *)

(** A character array read as a C string ends at its first NUL. *)
Fixpoint c_str (buf : list byte) : list byte :=
  match buf with
  | [] => []
  | c :: buf' => if byte.unsigned c =? 0 then [] else c :: c_str buf'
  end.

(** The directives of the conversion specifications the file uses: white
    space, an ordinary character, [%d] and [%s]. *)
Inductive directive :=
  | DSpace
  | DLit (c : byte)
  | DInt
  | DStr.

Fixpoint parse_format (fmt : list byte) : list directive :=
  match fmt with
  | [] => []
  | c :: rest =>
      if isspace c then DSpace :: parse_format rest
      else if byte.unsigned c =? 37 then
        match rest with
        | [] => []
        | d :: rest' =>
            if byte.unsigned d =? 100 then DInt :: parse_format rest'
            else if byte.unsigned d =? 115 then DStr :: parse_format rest'
            else DLit d :: parse_format rest'
        end
      else DLit c :: parse_format rest
  end.

(** A converted item. *)
Inductive scanned :=
  | VInt (z : Z)
  | VStr (s : list byte).

Fixpoint skip_space (input : list byte) : list byte :=
  match input with
  | c :: input' => if isspace c then skip_space input' else input
  | [] => []
  end.

Definition is_digit (c : byte) : bool :=
  let n := byte.unsigned c in (48 <=? n) && (n <=? 57).

(** The longest run of decimal digits at the start of [input]: whether there
    is one, its value on top of [acc], and the rest of the input. *)
Fixpoint scan_digits (input : list byte) (seen : bool) (acc : Z) : bool * Z * list byte :=
  match input with
  | c :: input' =>
      if is_digit c then scan_digits input' true (acc * 10 + (byte.unsigned c - 48))
      else (seen, acc, input)
  | [] => (seen, acc, [])
  end.

(** The run of characters that are not white space at the start of [input]. *)
Fixpoint scan_token (input : list byte) : list byte * list byte :=
  match input with
  | c :: input' =>
      if isspace c then ([], input)
      else let '(t, r) := scan_token input' in (c :: t, r)
  | [] => ([], [])
  end.

(** The value [sscanf] returns when it stops with [items] converted:
    EOF (-1) on an input failure before the first conversion. *)
Definition input_failure (items : list scanned) : Z * list scanned :=
  match items with
  | [] => (-1, [])
  | _ => (Z.of_nat (length items), items)
  end.

Definition matching_failure (items : list scanned) : Z * list scanned :=
  (Z.of_nat (length items), items).

(** [sscanf]: the value returned and the items converted, in order.  An
    [int] out of range wraps (the C standard leaves it undefined). *)
Fixpoint sscanf_run (ds : list directive) (input : list byte) (items : list scanned)
  : Z * list scanned :=
  match ds with
  | [] => matching_failure items
  | DSpace :: ds' => sscanf_run ds' (skip_space input) items
  | DLit c :: ds' =>
      match input with
      | [] => input_failure items
      | x :: input' =>
          if byte.unsigned x =? byte.unsigned c then sscanf_run ds' input' items
          else matching_failure items
      end
  | DInt :: ds' =>
      match skip_space input with
      | [] => input_failure items
      | x :: input' =>
          let negative := byte.unsigned x =? 45 in
          let signed := negative || (byte.unsigned x =? 43) in
          let '(seen, v, rest) := scan_digits (if signed then input' else x :: input') false 0 in
          if seen
          then sscanf_run ds' rest (items ++ [VInt (wrap32s (if negative then - v else v))])
          else matching_failure items
      end
  | DStr :: ds' =>
      match skip_space input with
      | [] => input_failure items
      | x :: input' =>
          let '(t, rest) := scan_token (x :: input') in
          sscanf_run ds' rest (items ++ [VStr t])
      end
  end.

Definition sscanf (str : list byte) (format : string) : Z * list scanned :=
  sscanf_run (parse_format (chars format)) (c_str str) [].

(** The [i]-th converted item as an [int], when there is one. *)
Definition int_item (items : list scanned) (i : nat) : option Z :=
  match nth_error items i with
  | Some (VInt z) => Some z
  | _ => None
  end.

Definition str_item (items : list scanned) (i : nat) : option (list byte) :=
  match nth_error items i with
  | Some (VStr s) => Some s
  | _ => None
  end.

(** One line of a stream: at most [limit] characters, up to and with the
    first newline; and the rest of the stream. *)
Fixpoint read_line (limit : nat) (f : list byte) : list byte * list byte :=
  match limit, f with
  | S k, c :: f' =>
      if byte.unsigned c =? 10 then ([c], f')
      else let '(l, r) := read_line k f' in (c :: l, r)
  | _, _ => ([], f)
  end.

(** [fgets (buf, size, f)]: [None] is the NULL of end of file. *)
Definition fgets (size : nat) (f : list byte) : option (list byte * list byte) :=
  match f with
  | [] => None
  | _ => Some (read_line (size - 1) f)
  end.

(** [getline]: [None] is the -1 of end of file. *)
Definition getline (f : list byte) : option (list byte * list byte) :=
  match f with
  | [] => None
  | _ => Some (read_line (length f) f)
  end.

(** ** The log header *)

Record _log_header := mk_log_header {
  major_version : Z;
  minor_version : Z;
  start_time_ms : Z
}.

Definition scan_log_format (line : list byte) (header : _log_header) : _log_header :=
  let '(_, items) := sscanf line "#[Histogram log format version %d.%d]" in
  {| major_version := default (major_version header) (int_item items 0);
     minor_version := default (minor_version header) (int_item items 1);
     start_time_ms := start_time_ms header |}.

(** [scan_start_time] passes the addresses of two [int64_t] variables, both
    zero, to [%d]: the conversion stores the four bytes of an [int] at the
    address, and the variable is read back as an [int64_t]. *)
Definition d_into_int64 (host : byte_order) (old v : Z) : Z :=
  wrap64s (load_int host (overlay (store_int host 4 v) (store_int host 8 old))).

Definition scan_start_time (host : byte_order) (line : list byte) (header : _log_header)
  : _log_header :=
  let '(n, items) := sscanf line ("#[StartTime: %d.%d [^" ++ nl ++ "]") in
  let timestamp_s := default 0 (d_into_int64 host 0 <$> int_item items 0) in
  let trailing_ms := default 0 (d_into_int64 host 0 <$> int_item items 1) in
  if n =? 2
  then {| major_version := major_version header;
          minor_version := minor_version header;
          start_time_ms := wrap64s (timestamp_s * 1000 + trailing_ms) |}
  else header.

(** The loop of [parse_log_comments]; every turn takes at least one
    character of the stream, so [S (length f)] turns are enough. *)
Fixpoint parse_log_comments_loop (fuel : nat) (host : byte_order) (f : list byte)
    (header : _log_header) : _log_header * list byte :=
  match fuel with
  | O => (header, f)
  | S fuel' =>
      match fgets 4096 f with
      | Some (line, f') =>
          if is_comment (c_str line)
          then parse_log_comments_loop fuel' host f'
                 (scan_start_time host line (scan_log_format line header))
          else (header, f')
      | None => (header, f)
      end
  end.

(** [parse_log_comments]: the header and what is left of the stream. *)
Definition parse_log_comments (host : byte_order) (f : list byte) : _log_header * list byte :=
  parse_log_comments_loop (S (length f)) host f
    {| major_version := 0; minor_version := 0; start_time_ms := 0 |}.

(** The header lines of the example of the specification, and the same
    with a fraction of three digits. *)
Definition example_header : list byte :=
  chars ("#[Histogram log format version 1.2]" ++ nl
         ++ "#[StartTime: 1441812279.139000 ...]" ++ nl).

Definition example_header_millis : list byte :=
  chars ("#[Histogram log format version 1.2]" ++ nl
         ++ "#[StartTime: 1441812279.139 ...]" ++ nl).

(** ** zlib and the histogram *)

(** <zlib.h> constants. *)
Definition Z_OK : Z := 0.
Definition Z_STREAM_END : Z := 1.
Definition Z_NO_FLUSH : Z := 0.
Definition Z_SYNC_FLUSH : Z := 2.
Definition Z_FINISH : Z := 4.

Definition ENCODING_COOKIE : Z := 0x1c849308 + Z.shiftl 8 4.
Definition COMPRESSION_COOKIE : Z := 0x1c849309 + Z.shiftl 8 4.

(** [sizeof (_encoding_flyweight)] and [sizeof (_compression_flyweight)];
    both structures are packed. *)
Definition sizeof_encoding_flyweight : Z := 32.
Definition sizeof_compression_flyweight : Z := 8.

Definition counts_per_chunk : Z := 512.

(** Modelled from the spec: [struct hdr_histogram] is declared in
    [hdr_histogram.h], which is not part of the sources.  These are the
    fields the codec reads and writes; [counts] is the array
    [counts[0 .. counts_len)], so [counts_len] is its length. *)
Record hdr_histogram := mk_hdr_histogram {
  lowest_trackable_value : Z;
  highest_trackable_value : Z;
  significant_figures : Z;
  total_count : Z;
  counts : list Z
}.

Definition counts_len (h : hdr_histogram) : Z := Z.of_nat (length (counts h)).

Definition set_total_count (h : hdr_histogram) (v : Z) : hdr_histogram :=
  {| lowest_trackable_value := lowest_trackable_value h;
     highest_trackable_value := highest_trackable_value h;
     significant_figures := significant_figures h;
     total_count := v;
     counts := counts h |}.

Definition set_counts (h : hdr_histogram) (cs : list Z) : hdr_histogram :=
  {| lowest_trackable_value := lowest_trackable_value h;
     highest_trackable_value := highest_trackable_value h;
     significant_figures := significant_figures h;
     total_count := total_count h;
     counts := cs |}.

(** A pointer to a histogram is [None] when it is NULL. *)
Definition is_null (p : option hdr_histogram) : bool :=
  match p with
  | None => true
  | Some _ => false
  end.

(** What one call of [deflate] or [inflate] does: the value returned, the
    bytes written at [next_out], the number of bytes taken at [next_in] and
    the new internal state. *)
Record zcall (zstate : Type) := mk_zcall {
  z_ret : Z;
  z_out : list byte;
  z_used : nat;
  z_state : zstate
}.
Arguments mk_zcall {zstate}.
Arguments z_ret {zstate}.
Arguments z_out {zstate}.
Arguments z_used {zstate}.
Arguments z_state {zstate}.

(** The fields of [z_stream] the code uses.  [next_in] is the memory at the
    pointer; [next_out] is an offset into the area the caller gave for the
    output, and the caller places there the bytes a call reports. *)
Record z_stream (zstate : Type) := mk_z_stream {
  next_in : list byte;
  avail_in : Z;
  next_out : Z;
  avail_out : Z;
  total_out : Z;
  state : zstate
}.
Arguments mk_z_stream {zstate}.
Arguments next_in {zstate}.
Arguments avail_in {zstate}.
Arguments next_out {zstate}.
Arguments avail_out {zstate}.
Arguments total_out {zstate}.
Arguments state {zstate}.

Definition set_in {zstate} (strm : z_stream zstate) (mem : list byte) (n : Z) : z_stream zstate :=
  {| next_in := mem; avail_in := n;
     next_out := next_out strm; avail_out := avail_out strm;
     total_out := total_out strm; state := state strm |}.

Definition set_out {zstate} (strm : z_stream zstate) (pos n : Z) : z_stream zstate :=
  {| next_in := next_in strm; avail_in := avail_in strm;
     next_out := pos; avail_out := n;
     total_out := total_out strm; state := state strm |}.

(** A call through the [z_stream] interface: zlib writes at most
    [avail_out] bytes and takes at most [avail_in], and moves the pointers
    and counters of the stream by what it wrote and took. *)
Definition zlib_call {zstate}
    (f : zstate -> list byte -> Z -> Z -> Z -> zcall zstate)
    (strm : z_stream zstate) (flush : Z) : Z * list byte * z_stream zstate :=
  let r := f (state strm) (next_in strm) (avail_in strm) (avail_out strm) flush in
  let out := firstn (Z.to_nat (avail_out strm)) (z_out r) in
  let used := Nat.min (z_used r) (Z.to_nat (avail_in strm)) in
  (z_ret r, out,
   {| next_in := skipn used (next_in strm);
      avail_in := avail_in strm - Z.of_nat used;
      next_out := next_out strm + Z.of_nat (length out);
      avail_out := avail_out strm - Z.of_nat (length out);
      total_out := total_out strm + Z.of_nat (length out);
      state := z_state r |}).

(** The bytes that call takes at [next_in]. *)
Definition z_taken {zstate}
    (f : zstate -> list byte -> Z -> Z -> Z -> zcall zstate)
    (strm : z_stream zstate) (flush : Z) : list byte :=
  let r := f (state strm) (next_in strm) (avail_in strm) (avail_out strm) flush in
  firstn (Nat.min (z_used r) (Z.to_nat (avail_in strm))) (next_in strm).

(** The values of [int32_t] and of [int64_t]. *)
Definition int32_range (x : Z) : Prop := - 2 ^ 31 <= x < 2 ^ 31.
Definition int64_range (x : Z) : Prop := - 2 ^ 63 <= x < 2 ^ 63.

(** A histogram whose fields have the values of their C types. *)
Definition histogram_in_range (h : hdr_histogram) : Prop :=
  int32_range (significant_figures h)
  /\ int64_range (lowest_trackable_value h)
  /\ int64_range (highest_trackable_value h)
  /\ int64_range (total_count h)
  /\ Forall int64_range (counts h).

(** The payload of an envelope before compression: the header fields,
    then the counts, all big-endian. *)
Definition counts_bytes (cs : list Z) : list byte := flat_map (be_split 8) cs.

Definition payload (h : hdr_histogram) : list byte :=
  be_split 4 ENCODING_COOKIE
  ++ be_split 4 (significant_figures h)
  ++ be_split 8 (lowest_trackable_value h)
  ++ be_split 8 (highest_trackable_value h)
  ++ be_split 8 (total_count h)
  ++ counts_bytes (counts h).

(** [buf] after [out] is written at offset [pos]. *)
Definition write_at (pos : Z) (out buf : list byte) : list byte :=
  firstn (Z.to_nat pos) buf ++ overlay out (skipn (Z.to_nat pos) buf).

(** *** A codec that stores its input

    To run the model on concrete inputs: a [deflate] that copies its input
    to the output as far as there is room and keeps the rest pending, and
    the [inflate] that reads it back. *)
Definition stored_deflateInit (level : Z) : Z * list byte := (Z_OK, []).

Definition stored_deflate (pending input : list byte) (avail_in avail_out flush : Z)
  : zcall (list byte) :=
  let all := pending ++ firstn (Z.to_nat avail_in) input in
  let rest := skipn (Z.to_nat avail_out) all in
  {| z_ret := if (flush =? Z_FINISH) && (Z.of_nat (length rest) =? 0)
              then Z_STREAM_END else Z_OK;
     z_out := firstn (Z.to_nat avail_out) all;
     z_used := Z.to_nat avail_in;
     z_state := rest |}.

Definition stored_inflateInit : Z * unit := (Z_OK, tt).

Definition stored_inflate (st : unit) (input : list byte) (avail_in avail_out flush : Z)
  : zcall unit :=
  let data := firstn (Z.to_nat avail_in) input in
  let out := firstn (Z.to_nat avail_out) data in
  {| z_ret := if Z.of_nat (length data) <=? avail_out then Z_STREAM_END else Z_OK;
     z_out := out;
     z_used := length out;
     z_state := tt |}.

(** *** A codec with a check byte

    The stream of the storing codec followed by one byte, which is zero:
    this [inflate] returns [Z_DATA_ERROR] at the end of a stream whose last
    byte is not. *)
Definition Z_DATA_ERROR : Z := -3.

Definition checked_inflate (st : unit) (input : list byte) (avail_in avail_out flush : Z)
  : zcall unit :=
  let stream := firstn (Z.to_nat avail_in) input in
  let data := removelast stream in
  let out := firstn (Z.to_nat avail_out) data in
  if Z.of_nat (length data) <=? avail_out
  then {| z_ret := if byte.unsigned (List.last stream Byte.x00) =? 0
                   then Z_STREAM_END else Z_DATA_ERROR;
          z_out := out;
          z_used := length stream;
          z_state := tt |}
  else {| z_ret := Z_OK; z_out := out; z_used := length out; z_state := tt |}.

(** A constructor that gives every histogram [n] buckets, all zero. *)
Definition fixed_hdr_init (n : nat) (lowest highest figures : Z) : option hdr_histogram :=
  Some {| lowest_trackable_value := lowest;
          highest_trackable_value := highest;
          significant_figures := figures;
          total_count := 0;
          counts := repeat 0 n |}.

(** *** A codec that writes on a flush only

    As zlib does on a short input, this [deflate] keeps what it is given
    until it is asked to flush.  When a call with [Z_FINISH] could not write
    everything, the stream is finishing, and a call with another flush
    value is refused with [Z_STREAM_ERROR]. *)
Definition Z_STREAM_ERROR : Z := -2.

Definition buffered_deflateInit (level : Z) : Z * (list byte * bool) := (Z_OK, ([], false)).

Definition buffered_deflate (st : list byte * bool) (input : list byte)
    (avail_in avail_out flush : Z) : zcall (list byte * bool) :=
  let '(pending, finishing) := st in
  if finishing && negb (flush =? Z_FINISH)
  then {| z_ret := Z_STREAM_ERROR; z_out := []; z_used := 0; z_state := st |}
  else
    let all := pending ++ firstn (Z.to_nat avail_in) input in
    if flush =? Z_NO_FLUSH
    then {| z_ret := Z_OK; z_out := []; z_used := Z.to_nat avail_in;
            z_state := (all, false) |}
    else
      let rest := skipn (Z.to_nat avail_out) all in
      let finish := flush =? Z_FINISH in
      {| z_ret := if finish && (Z.of_nat (length rest) =? 0) then Z_STREAM_END else Z_OK;
         z_out := firstn (Z.to_nat avail_out) all;
         z_used := Z.to_nat avail_in;
         z_state := (rest, finish) |}.

(** *** Concrete inputs *)

(** Memory that holds zeros where it is indeterminate, and an allocator
    that grants every request. *)
Definition zeros (i : nat) : byte := Byte.x00.
Definition granted (n : Z) : bool := true.

(** An allocator that grants the requests up to [limit] bytes. *)
Definition granted_up_to (limit n : Z) : bool := n <=? limit.

(** The envelope of the storing codec: the two cookies, the header fields
    and the counts, all big-endian. *)
Definition stored_envelope (outer inner figures lowest highest total : Z) (cs : list Z)
  : list byte :=
  let payload := be_split 4 inner ++ be_split 4 figures ++ be_split 8 lowest
                 ++ be_split 8 highest ++ be_split 8 total
                 ++ flat_map (be_split 8) cs in
  be_split 4 outer ++ be_split 4 (Z.of_nat (length payload)) ++ payload.

(** A histogram of three buckets whose total count, 77, is not the sum of
    its counts, and its envelope. *)
Definition example_histogram : hdr_histogram :=
  {| lowest_trackable_value := 1;
     highest_trackable_value := 1000;
     significant_figures := 3;
     total_count := 77;
     counts := [5; -1; 300000000000] |}.

Definition example_envelope : list byte :=
  stored_envelope COMPRESSION_COOKIE ENCODING_COOKIE 3 1 1000 77 [5; -1; 300000000000].

(** A histogram of 512 buckets: its header and counts take 4128 bytes,
    more than the 4088 the first buffer has for them. *)
Definition wide_histogram : hdr_histogram :=
  {| lowest_trackable_value := 1;
     highest_trackable_value := 1000;
     significant_figures := 3;
     total_count := 512;
     counts := repeat 1 512 |}.

(** The same with the first byte of the outer cookie, and of the inner
    cookie, changed. *)
Definition bad_outer_envelope : list byte :=
  stored_envelope (COMPRESSION_COOKIE + 2 ^ 24) ENCODING_COOKIE 3 1 1000 77
    [5; -1; 300000000000].

Definition bad_inner_envelope : list byte :=
  stored_envelope COMPRESSION_COOKIE (ENCODING_COOKIE + 2 ^ 24) 3 1 1000 77
    [5; -1; 300000000000].

(** The envelope of the example histogram for the codec with a check
    byte, with a check byte that is not zero: the cookies and the header
    are right, and [inflate] fails at the end of the counts. *)
Definition damaged_envelope : list byte :=
  be_split 4 COMPRESSION_COOKIE ++ be_split 4 57
  ++ skipn 8 example_envelope ++ [Byte.x01].

(** A record line whose token is the Base64 text of [damaged_envelope];
    a line that is not a record; and a line of column names. *)
Definition damaged_record : list byte :=
  chars "0.0,0.0,0.0," ++ snd (base64_encode damaged_envelope 88) ++ chars nl.
Definition malformed_record : list byte := chars ("1.5,2.5" ++ nl).
Definition column_names : list byte := chars ("StartTimestamp,EndTimestamp" ++ nl).

(** A record line whose token is the Base64 text of [example_envelope],
    and one whose token has five characters. *)
Definition envelope_record : list byte :=
  chars "0.0,0.0,0.0," ++ snd (base64_encode example_envelope 88) ++ chars nl.
Definition short_token_record : list byte := chars ("0.0,0.0,0.0,AAAAA" ++ nl).

(** A stream whose compressor holds eight bytes, with room for four in a
    buffer of twelve, and an [inflateInit] that fails (Z_MEM_ERROR). *)
Definition pending_stream : z_stream (list byte * bool) :=
  {| next_in := []; avail_in := 0; next_out := 8; avail_out := 4; total_out := 0;
     state := (repeat Byte.x01 8, false) |}.
Definition failing_inflateInit : Z * unit := (-4, tt).

(** ** The compressed encoding *)

Section Codec.

Set Default Proof Using "Type".

(** The byte order of the host. *)
Variable host : byte_order.

(** zlib: the state of a compressor and of a decompressor, and the
    functions [deflateInit], [deflate], [inflateInit] and [inflate] on
    them.  An init function gives the value it returns and the state it
    sets up. *)
Variable dstate : Type.
Variable deflateInit : Z -> Z * dstate.
Variable deflate : dstate -> list byte -> Z -> Z -> Z -> zcall dstate.
Variable istate : Type.
Variable inflateInit : Z * istate.
Variable inflate : istate -> list byte -> Z -> Z -> Z -> zcall istate.

(** [hdr_init] of [hdr_histogram.c]: the histogram it builds and stores
    through its last argument, or [None] when it does not return 0; it
    then stores nothing. *)
Variable hdr_init : Z -> Z -> Z -> option hdr_histogram.

(** Whether the allocator grants a request of so many bytes. *)
Variable malloc_ok : Z -> bool.

(** The indeterminate contents of automatic variables and of allocated
    memory before they are written. *)
Variable stack : nat -> byte.
Variable heap : nat -> byte.

Definition uninit (mem : nat -> byte) (start n : nat) : list byte :=
  map mem (seq start n).

(** *** [hdr_decode_compressed] *)

(** The store [h->counts[i] = v].  A store outside the array is
    undefined in C: the model has no result for it. *)
Definition write_count (cs : list Z) (i v : Z) : option (list Z) :=
  if (0 <=? i) && (i <? Z.of_nat (length cs))
  then Some (<[Z.to_nat i := v]> cs)
  else None.

(** The [for] loop that moves [n] more values of [counts_array], from
    index [i] on, into the histogram. *)
Fixpoint store_counts (n i : nat) (counts_array : list byte) (cs : list Z)
    (counts_index counts_tally : Z) : option (list Z * Z * Z) :=
  match n with
  | O => Some (cs, counts_index, counts_tally)
  | S n' =>
      if counts_index <? Z.of_nat (length cs) then
        let v := wrap64s (be64toh host (load_int host (slice (8 * i) 8 counts_array))) in
        match write_count cs counts_index v with
        | Some cs =>
            store_counts n' (S i) counts_array cs (counts_index + 1)
              (wrap64s (counts_tally + v))
        | None => None
        end
      else Some (cs, counts_index, counts_tally)
  end.

(** The [do ... while (r == Z_OK)] loop: the result, the histogram and
    the tally at its end.  [None] when [fuel] turns did not end it (or
    on a store outside the array). *)
Fixpoint decode_counts (fuel : nat) (strm : z_stream istate) (counts_array : list byte)
    (h : hdr_histogram) (counts_index counts_tally : Z)
  : option (Z * hdr_histogram * Z) :=
  match fuel with
  | O => None
  | S fuel' =>
      let strm := set_out strm 0 (counts_per_chunk * 8) in
      let '(r, out, strm) := zlib_call inflate strm Z_SYNC_FLUSH in
      let counts_array := overlay out counts_array in
      if negb (Z_STREAM_END =? r) && negb (Z_OK =? r)
      then Some (HDR_INFLATE_FAIL, h, counts_tally)
      else
        let available_counts := counts_per_chunk - avail_out strm / 8 in
        match store_counts (Z.to_nat available_counts) 0 counts_array (counts h)
                counts_index counts_tally with
        | None => None
        | Some (cs, counts_index, counts_tally) =>
            let h := set_counts h cs in
            if r =? Z_OK
            then decode_counts fuel' strm counts_array h counts_index counts_tally
            else Some (0, h, counts_tally)
        end
  end.

(** The stream as it is set up for the first call of [inflate], on the
    state [st] that [inflateInit] gave. *)
Definition decode_stream (buffer : list byte) (st : istate) : z_stream istate :=
  let compressed_length := wrap32s (be32toh host (load_int host (slice 4 4 buffer))) in
  {| next_in := skipn 8 buffer;
     avail_in := compressed_length mod 2 ^ 32;
     next_out := 0;
     avail_out := sizeof_encoding_flyweight;
     total_out := 0;
     state := st |}.

(** The first call of [inflate]: the value returned, the bytes written
    and the stream afterwards. *)
Definition inflate_header (buffer : list byte) : Z * list byte * z_stream istate :=
  zlib_call inflate (decode_stream buffer (snd inflateInit)) Z_SYNC_FLUSH.

(** The bytes of the automatic variable [encoding_flyweight] after it. *)
Definition encoding_flyweight (buffer : list byte) : list byte :=
  overlay (snd (fst (inflate_header buffer))) (uninit stack 0 32).

(** The function up to the loop: the error it ends with, or the
    histogram it built and the stream.  [buffer] is the memory at the
    pointer, [len] the argument [length]. *)
Definition decode_header (buffer : list byte) (len : Z)
    (histogram : option hdr_histogram) : Z + hdr_histogram * z_stream istate :=
  if (len <? sizeof_compression_flyweight) || negb (is_null histogram)
  then inl EINVAL
  else if negb (COMPRESSION_COOKIE =? be32toh host (load_int host (slice 0 4 buffer)))
  then inl HDR_COMPRESSION_COOKIE_MISMATCH
  else if negb (fst inflateInit =? Z_OK) then inl HDR_INFLATE_FAIL
  else
    let '(r, _, strm) := inflate_header buffer in
    let encoding_flyweight := encoding_flyweight buffer in
    if negb (r =? Z_OK) then inl HDR_INFLATE_FAIL
    else if negb (ENCODING_COOKIE
                    =? be32toh host (load_int host (slice 0 4 encoding_flyweight)))
    then inl HDR_ENCODING_COOKIE_MISMATCH
    else
      let lowest_trackable_value :=
        wrap64s (be64toh host (load_int host (slice 8 8 encoding_flyweight))) in
      let highest_trackable_value :=
        wrap64s (be64toh host (load_int host (slice 16 8 encoding_flyweight))) in
      let significant_figures :=
        wrap32s (be32toh host (load_int host (slice 4 4 encoding_flyweight))) in
      match hdr_init lowest_trackable_value highest_trackable_value significant_figures with
      | None => inl ENOMEM
      | Some h =>
          inr (set_total_count h
                 (wrap64s (be64toh host (load_int host (slice 24 8 encoding_flyweight)))),
               strm)
      end.

(** The statements after the label [cleanup]: [free (h)] when [result]
    is not 0, [*histogram = h] when it is, and the return.  [h] is an
    automatic variable without an initialiser, and only a successful
    [hdr_init] assigns it: [h] is [None] here while it is indeterminate.
    To free it then is undefined in C, and the model has no result. *)
Definition cleanup (result : Z) (h histogram : option hdr_histogram)
  : option (Z * option hdr_histogram) :=
  if result =? 0 then Some (0, h)
  else match h with
       | Some _ => Some (result, histogram)
       | None => None
       end.

(** [hdr_decode_compressed (buffer, length, histogram)]: the value
    returned and [*histogram] afterwards; [*histogram] is stored only when
    the result is 0.  There is no result ([None]) when the loop did not
    end within [fuel] turns, and where the behaviour of the function is
    undefined: every exit taken before [hdr_init] has assigned [h]. *)
Definition hdr_decode_compressed (fuel : nat) (buffer : list byte) (len : Z)
    (histogram : option hdr_histogram) : option (Z * option hdr_histogram) :=
  match decode_header buffer len histogram with
  | inl result => cleanup result None histogram
  | inr (h, strm) =>
      match decode_counts fuel strm (uninit stack 32 4096) h 0 0 with
      | None => None
      | Some (result, h, _) => cleanup result (Some h) histogram
      end
  end.

(** The values the counts phase finds: those of the first [n] slots of
    [counts_array] after a call, each read as a big-endian [int64_t]. *)
Definition chunk_values (counts_array : list byte) (n : nat) : list Z :=
  map (fun i => wrap64s (be_combine (slice (8 * i) 8 counts_array))) (seq 0 n).

(** The values of all the calls of [inflate] of the counts phase, when
    the calls return [Z_OK] up to one that returns [Z_STREAM_END], within
    [n] calls. *)
Fixpoint inflate_values (n : nat) (strm : z_stream istate) (counts_array : list byte)
  : option (list Z) :=
  match n with
  | O => None
  | S n' =>
      let '(r, out, strm) :=
        zlib_call inflate (set_out strm 0 (counts_per_chunk * 8)) Z_SYNC_FLUSH in
      let counts_array := overlay out counts_array in
      let vs := chunk_values counts_array
                  (Z.to_nat (counts_per_chunk - avail_out strm / 8)) in
      if r =? Z_STREAM_END then Some vs
      else if r =? Z_OK
      then match inflate_values n' strm counts_array with
           | Some vs' => Some (vs ++ vs')
           | None => None
           end
      else None
  end.

(** [cs] after the values [vs] are stored from index 0 on, as far as
    there are slots. *)
Definition stored (vs cs : list Z) : list Z :=
  firstn (length cs) vs ++ skipn (length vs) cs.

(** *** [hdr_encode_compressed] *)

(** The bytes of the [_encoding_flyweight] the encoder fills in. *)
Definition encode_fw (h : hdr_histogram) : list byte :=
  store_int host 4 (htobe32 host ENCODING_COOKIE)
  ++ store_int host 4 (htobe32 host (significant_figures h))
  ++ store_int host 8 (htobe64 host (lowest_trackable_value h))
  ++ store_int host 8 (htobe64 host (highest_trackable_value h))
  ++ store_int host 8 (htobe64 host (total_count h)).

(** [realloc (buf, new_len)]: the old bytes, then indeterminate ones.
    The size is a [size_t]. *)
Definition realloc (buf : list byte) (new_len : Z) : list byte :=
  firstn (Z.to_nat new_len)
    (buf ++ uninit heap (length buf) (Z.to_nat new_len - length buf)).

(** A call of [deflate] whose output goes into [buf] at [next_out]. *)
Definition deflate_into (strm : z_stream dstate) (buf : list byte) (flush : Z)
  : Z * z_stream dstate * list byte :=
  let pos := next_out strm in
  let '(r, out, strm) := zlib_call deflate strm flush in
  (r, strm, write_at pos out buf).

(** The [while (strm.avail_out == 0)] loop: the result (0 to go on), the
    stream, the buffer and its size. *)
Fixpoint grow_buffer (fuel : nat) (strm : z_stream dstate) (buf : list byte) (len : Z)
  : option (Z * z_stream dstate * list byte * Z) :=
  match fuel with
  | O => None
  | S fuel' =>
      if avail_out strm =? 0 then
        let new_len := wrap32s (len * 2) in
        if negb (malloc_ok (new_len mod 2 ^ 64)) then Some (ENOMEM, strm, buf, len)
        else
          let buf := realloc buf (new_len mod 2 ^ 64) in
          let strm := set_out strm len (len mod 2 ^ 32) in
          let '(r, strm, buf) := deflate_into strm buf Z_SYNC_FLUSH in
          if negb (r =? Z_OK) then Some (HDR_DEFLATE_FAIL, strm, buf, new_len)
          else grow_buffer fuel' strm buf new_len
      else Some (0, strm, buf, len)
  end.

(** The loop that fills [chunk]: at most [n] values from
    [counts[counts_index]] on, each as the bytes of its [htobe64]. *)
Fixpoint fill_chunk (n : nat) (cs : list Z) (counts_index : Z) : list byte * Z :=
  match n with
  | O => ([], counts_index)
  | S n' =>
      if counts_index <? Z.of_nat (length cs) then
        let v := htobe64 host (nth (Z.to_nat counts_index) cs 0) in
        let '(bs, counts_index') := fill_chunk n' cs (counts_index + 1) in
        (store_int host 8 v ++ bs, counts_index')
      else ([], counts_index)
  end.

(** The [do ... while (r != Z_STREAM_END)] loop. *)
Fixpoint encode_counts (fuel gfuel : nat) (h : hdr_histogram) (strm : z_stream dstate)
    (buf : list byte) (len : Z) (chunk : list byte) (counts_index : Z)
  : option (Z * z_stream dstate * list byte * Z) :=
  match fuel with
  | O => None
  | S fuel' =>
      match grow_buffer gfuel strm buf len with
      | None => None
      | Some (result, strm, buf, len) =>
          if negb (result =? 0) then Some (result, strm, buf, len)
          else
            let '(filled, counts_index) :=
              fill_chunk (Z.to_nat counts_per_chunk) (counts h) counts_index in
            let chunk := overlay filled chunk in
            let i := Z.of_nat (length filled) / 8 in
            let strm := set_in strm chunk (i * 8) in
            let flush := if i =? 0 then Z_FINISH else Z_NO_FLUSH in
            let '(r, strm, buf) := deflate_into strm buf flush in
            if negb (r =? Z_OK) && negb (r =? Z_STREAM_END)
            then Some (HDR_DEFLATE_FAIL, strm, buf, len)
            else if negb (r =? Z_STREAM_END)
            then encode_counts fuel' gfuel h strm buf len chunk counts_index
            else Some (0, strm, buf, len)
      end
  end.

(** The function up to the end of the loop: [result], and the stream and
    the buffer when the loop was reached. *)
Definition encode_stream (fuel : nat) (h : hdr_histogram)
  : option (Z * option (z_stream dstate * list byte)) :=
  let len := 4096 in
  if negb (malloc_ok len) then Some (ENOMEM, None)
  else
    let buf := uninit heap 0 (Z.to_nat len) in
    let '(init, st) := deflateInit 4 in
    if negb (init =? Z_OK) then Some (HDR_DEFLATE_INIT_FAIL, None)
    else
      let strm := {| next_in := encode_fw h;
                     avail_in := sizeof_encoding_flyweight;
                     next_out := sizeof_compression_flyweight;
                     avail_out := len - sizeof_compression_flyweight;
                     total_out := 0;
                     state := st |} in
      let '(r, strm, buf) := deflate_into strm buf Z_NO_FLUSH in
      if negb (r =? Z_OK) then Some (HDR_DEFLATE_FAIL, None)
      else
        match encode_counts fuel fuel h strm buf len (uninit stack 0 4096) 0 with
        | None => None
        | Some (result, strm, buf, _) => Some (result, Some (strm, buf))
        end.

(** [hdr_encode_compressed (h, compressed_histogram, compressed_len)]:
    the value returned, and the buffer and the length stored through the
    two pointers when the function stores them.  [cookie] and [length]
    are the bytes of the two fields of [comp_fw]; [comp_fw->length] is
    then read back from the bytes just stored. *)
Definition hdr_encode_compressed (fuel : nat) (h : hdr_histogram)
  : option (Z * option (list byte * Z)) :=
  match encode_stream fuel h with
  | None => None
  | Some (result, Some (strm, buf)) =>
      if result =? 0 then
        let cookie := store_int host 4 (htobe32 host COMPRESSION_COOKIE) in
        let length := store_int host 4 (htobe32 host (total_out strm)) in
        let buf := write_at 4 length (write_at 0 cookie buf) in
        let comp_fw_length := wrap32s (load_int host length) in
        Some (0, Some (buf, wrap32s (sizeof_compression_flyweight + comp_fw_length)))
      else Some (result, None)
  | Some (result, None) => Some (result, None)
  end.

(** *** What the codec expects of zlib

    The statements about a whole round trip need to know that [inflate]
    gives back what [deflate] was given.  This is said here for the calls
    the codec makes, with two relations that stand for what zlib knows:
    [zstream data compressed], "[compressed] is a complete stream of
    [data]", and [inflating st next_in avail_in data], "the decompressor in
    state [st], reading [avail_in] bytes at [next_in], has [data] left to
    give". *)

(** A compressor that has taken [taken] and written [written] since
    [deflateInit], every call so far having returned [Z_OK]. *)
Inductive deflating : dstate -> list byte -> list byte -> Prop :=
  | deflating_init (st : dstate) :
      deflateInit 4 = (Z_OK, st) -> deflating st [] []
  | deflating_call (strm : z_stream dstate) (flush : Z) (taken written : list byte) :
      deflating (state strm) taken written ->
      fst (fst (zlib_call deflate strm flush)) = Z_OK ->
      deflating (state (snd (zlib_call deflate strm flush)))
        (taken ++ z_taken deflate strm flush)
        (written ++ snd (fst (zlib_call deflate strm flush))).

(** [deflate] stops when the input is empty or the output is full: a call
    that returns [Z_OK] and leaves room has taken all its input. *)
Definition deflate_takes_input : Prop :=
  forall (strm : z_stream dstate) (flush : Z) (taken written : list byte),
    deflating (state strm) taken written ->
    0 <= avail_in strm ->
    fst (fst (zlib_call deflate strm flush)) = Z_OK ->
    0 < avail_out (snd (zlib_call deflate strm flush)) ->
    avail_in (snd (zlib_call deflate strm flush)) = 0.

(** [Z_STREAM_END] answers [Z_FINISH] only; all the input has then been
    taken, and what has been written is a complete stream of it. *)
Definition deflate_ends_stream (zstream : list byte -> list byte -> Prop) : Prop :=
  forall (strm : z_stream dstate) (flush : Z) (taken written : list byte),
    deflating (state strm) taken written ->
    0 <= avail_in strm ->
    fst (fst (zlib_call deflate strm flush)) = Z_STREAM_END ->
    flush = Z_FINISH
    /\ avail_in (snd (zlib_call deflate strm flush)) = 0
    /\ zstream (taken ++ z_taken deflate strm flush)
         (written ++ snd (fst (zlib_call deflate strm flush))).

(** [inflate] with [Z_SYNC_FLUSH] on a complete stream that is all there:
    it fills the output with the next bytes of the data; it returns [Z_OK]
    while data is left, [Z_STREAM_END] when the data ends before the output
    is full, and either of them when both end together. *)
Definition inflate_gives_back (zstream : list byte -> list byte -> Prop)
    (inflating : istate -> list byte -> Z -> list byte -> Prop) : Prop :=
  (forall data compressed rest : list byte,
      zstream data compressed ->
      inflating (snd inflateInit) (compressed ++ rest) (Z.of_nat (length compressed)) data)
  /\ (forall (strm : z_stream istate) (data : list byte),
        inflating (state strm) (next_in strm) (avail_in strm) data ->
        0 < avail_out strm ->
        let r := fst (fst (zlib_call inflate strm Z_SYNC_FLUSH)) in
        let out := snd (fst (zlib_call inflate strm Z_SYNC_FLUSH)) in
        let strm' := snd (zlib_call inflate strm Z_SYNC_FLUSH) in
        let left := skipn (Z.to_nat (avail_out strm)) data in
        out = firstn (Z.to_nat (avail_out strm)) data
        /\ (avail_out strm < Z.of_nat (length data) ->
            r = Z_OK /\ inflating (state strm') (next_in strm') (avail_in strm') left)
        /\ (Z.of_nat (length data) < avail_out strm -> r = Z_STREAM_END)
        /\ (Z.of_nat (length data) = avail_out strm ->
            r = Z_STREAM_END
            \/ (r = Z_OK /\ inflating (state strm') (next_in strm') (avail_in strm') left))).

(** An allocation succeeds only for a size that an object can have: a
    negative [int] turned into a [size_t] is refused. *)
Definition malloc_bounded : Prop :=
  forall n : Z, malloc_ok n = true -> n < 2 ^ 63.

(** [h0] is what [hdr_init] builds for the configuration of [h]. *)
Definition constructs (h h0 : hdr_histogram) : Prop :=
  hdr_init (lowest_trackable_value h) (highest_trackable_value h) (significant_figures h)
  = Some h0
  /\ lowest_trackable_value h0 = lowest_trackable_value h
  /\ highest_trackable_value h0 = highest_trackable_value h
  /\ significant_figures h0 = significant_figures h
  /\ length (counts h0) = length (counts h).

(** The invariant of the loops of the encoder, with [taken] and [written]
    what [deflate] has taken and written: the output is in the buffer after
    the envelope header, the stream points behind it, and what was taken
    and what is still at [next_in] are the header and the counts before
    [counts_index]. *)
Definition encoding (h : hdr_histogram) (strm : z_stream dstate) (buf : list byte)
    (len counts_index : Z) (taken written : list byte) : Prop :=
  deflating (state strm) taken written
  /\ taken ++ firstn (Z.to_nat (avail_in strm)) (next_in strm)
     = firstn (32 + 8 * Z.to_nat counts_index) (payload h)
  /\ 0 <= avail_in strm
  /\ total_out strm = Z.of_nat (length written)
  /\ next_out strm = 8 + Z.of_nat (length written)
  /\ 0 <= avail_out strm
  /\ next_out strm + avail_out strm = len
  /\ Z.of_nat (length buf) = len
  /\ firstn (length written) (skipn 8 buf) = written
  /\ 4096 <= len < 2 ^ 31
  /\ 0 <= counts_index <= counts_len h.

(** *** The log parser *)

(** [realloc_buffer (buffer, nmemb, size, ZERO_ALL)]: the value returned;
    the buffer is [len] zero bytes when it is 0.  In [parse_lines] the two
    buffers have the size [read] of the line: [base64_histogram] then holds
    the token of [%s], and [compressed_histogram] the bytes of
    [base64_decode] before its zeros. *)
Definition realloc_buffer (nmemb size : Z) : Z :=
  let len := wrap32s (nmemb * size) in
  if malloc_ok (len mod 2 ^ 64) then 0 else ENOMEM.

(** The loop of [parse_lines] on what is left of the stream: the value
    returned and the histograms handed to [hdr_percentiles_print], in
    order.  [None] when a decode has no result: it did not end within
    [zfuel] turns, or its behaviour is undefined. *)
Fixpoint parse_lines_loop (fuel zfuel : nat) (f : list byte) (printed : list hdr_histogram)
  : option (Z * list hdr_histogram) :=
  match fuel with
  | O => None
  | S fuel' =>
      match getline f with
      | None => Some (0, printed)
      | Some (line, f') =>
          let read := wrap32s (Z.of_nat (length line)) in
          if negb (realloc_buffer 1 read =? 0) then Some (ENOMEM, printed)
          else if negb (realloc_buffer 1 read =? 0) then Some (ENOMEM, printed)
          else
            let '(num_tokens, items) := sscanf line "%d.%d,%d.%d,%d.%d,%s" in
            if negb (num_tokens =? 7) then Some (EINVAL, printed)
            else
              let '(base64_histogram, _) :=
                null_trailing_whitespace (default [] (str_item items 6)) in
              let base64_len := wrap32s (Z.of_nat (length base64_histogram)) in
              let compressed_len := wrap32s (base64_decoded_len base64_len) in
              let '(base64_result, compressed_histogram) :=
                base64_decode base64_histogram compressed_len in
              if negb (base64_result =? 0) then Some (base64_result, printed)
              else
                let compressed_histogram :=
                  overlay compressed_histogram (repeat Byte.x00 (Z.to_nat read)) in
                match hdr_decode_compressed zfuel compressed_histogram compressed_len None
                with
                | None => None
                | Some (r, h) =>
                    parse_lines_loop fuel' zfuel f'
                      (if r =? 0 then printed ++ option_list h else printed)
                end
      end
  end.

Definition parse_lines (zfuel : nat) (f : list byte) : option (Z * list hdr_histogram) :=
  parse_lines_loop (S (length f)) zfuel f [].

(** [hdr_parse_log]: the value returned and the histograms printed. *)
Definition hdr_parse_log (zfuel : nat) (f : list byte) : option (Z * list hdr_histogram) :=
  let '(header, f) := parse_log_comments host f in
  match parse_lines zfuel f with
  | None => None
  | Some (_, printed) => Some (0, printed)
  end.


(** ** Properties *)

(** *** Byte order *)

Lemma be_split_length n x : length (be_split n x) = n.
Proof. unfold be_split. rewrite length_rev. apply length_le_split. Qed.

Lemma be_combine_bound bs : 0 <= be_combine bs < 2 ^ (8 * Z.of_nat (length bs)).
Proof.
  unfold be_combine. rewrite <- (length_rev bs). apply le_combine_bound.
Qed.

Lemma be_combine_split n x : be_combine (be_split n x) = x mod 2 ^ (Z.of_nat n * 8).
Proof.
  unfold be_combine, be_split. rewrite rev_involutive. apply le_combine_split.
Qed.

Lemma bswap_combine bs : bswap (length bs) (le_combine bs) = be_combine bs.
Proof. unfold bswap, be_combine. now rewrite split_le_combine. Qed.

(** A big-endian field read on either host: the load followed by
    [be32toh] or [be64toh] gives the big-endian value of the bytes. *)
Lemma be32toh_load bs :
  length bs = 4%nat -> be32toh host (load_int host bs) = be_combine bs.
Proof.
  intros Hl. unfold be32toh, htobe32, load_int. destruct host.
  - pose proof (be_combine_bound bs) as Hb. rewrite Hl in Hb.
    apply Z.mod_small. exact Hb.
  - rewrite <- Hl. apply bswap_combine.
Qed.

Lemma be64toh_load bs :
  length bs = 8%nat -> be64toh host (load_int host bs) = be_combine bs.
Proof.
  intros Hl. unfold be64toh, htobe64, load_int. destruct host.
  - pose proof (be_combine_bound bs) as Hb. rewrite Hl in Hb.
    apply Z.mod_small. exact Hb.
  - rewrite <- Hl. apply bswap_combine.
Qed.

(** A big-endian field written on either host. *)
Lemma store_htobe32 x : store_int host 4 (htobe32 host x) = be_split 4 x.
Proof.
  unfold store_int, htobe32, be_split, bswap. destruct host.
  - f_equal. symmetry. apply (le_split_mod x 4).
  - rewrite <- (length_le_split 4 x) at 1. rewrite <- length_rev.
    apply split_le_combine.
Qed.

Lemma store_htobe64 x : store_int host 8 (htobe64 host x) = be_split 8 x.
Proof.
  unfold store_int, htobe64, be_split, bswap. destruct host.
  - f_equal. symmetry. apply (le_split_mod x 8).
  - rewrite <- (length_le_split 8 x) at 1. rewrite <- length_rev.
    apply split_le_combine.
Qed.

Lemma slice_length off n (buf : list byte) :
  (off + n <= length buf)%nat -> length (slice off n buf) = n.
Proof. intros H. unfold slice. rewrite length_firstn, length_skipn. lia. Qed.

Lemma overlay_length (written area : list byte) :
  length (overlay written area) = length area.
Proof.
  unfold overlay. rewrite length_firstn, length_app, length_skipn. lia.
Qed.

Lemma uninit_length mem start n : length (uninit mem start n) = n.
Proof. unfold uninit. now rewrite length_map, length_seq. Qed.


(** *** The counts phase of [hdr_decode_compressed] *)

Lemma stored_nil_r (vs : list Z) : stored vs [] = [].
Proof. unfold stored. simpl. now rewrite skipn_nil. Qed.

Lemma stored_cons (v c : Z) (vs cs : list Z) :
  stored (v :: vs) (c :: cs) = v :: stored vs cs.
Proof. reflexivity. Qed.

Lemma stored_length (vs cs : list Z) : length (stored vs cs) = length cs.
Proof.
  unfold stored. rewrite length_app, length_firstn, length_skipn. lia.
Qed.

Lemma stored_app (a b cs : list Z) :
  stored (a ++ b) cs = firstn (length cs) a ++ stored b (skipn (length a) cs).
Proof.
  unfold stored.
  rewrite firstn_app, length_app, length_skipn, skipn_skipn, <- app_assoc.
  do 3 f_equal. lia.
Qed.

Lemma chunk_values_from (counts_array : list byte) (i n : nat) :
  map (fun k => wrap64s (be_combine (slice (8 * k) 8 counts_array))) (seq i (S n))
  = wrap64s (be_combine (slice (8 * i) 8 counts_array))
    :: map (fun k => wrap64s (be_combine (slice (8 * k) 8 counts_array))) (seq (S i) n).
Proof. reflexivity. Qed.

(** X16.  Every store of the [for] loop is inside the array, whatever the
    number of values and the array are. *)
Lemma store_counts_in_bounds (n : nat) :
  forall (i : nat) (counts_array : list byte) (cs : list Z) (counts_index tally : Z),
    0 <= counts_index ->
    exists cs' counts_index' tally',
      store_counts n i counts_array cs counts_index tally
      = Some (cs', counts_index', tally')
      /\ length cs' = length cs.
Proof.
  induction n as [|n IH]; intros i counts_array cs counts_index tally Hidx.
  - now exists cs, counts_index, tally.
  - cbn [store_counts]. unfold write_count.
    destruct (Z.ltb_spec counts_index (Z.of_nat (length cs))) as [Hlt|Hge].
    + replace (0 <=? counts_index) with true by (symmetry; apply Z.leb_le; lia).
      cbn [andb].
      set (v := wrap64s (be64toh host (load_int host (slice (8 * i) 8 counts_array)))).
      destruct (IH (S i) counts_array (<[Z.to_nat counts_index := v]> cs)
                  (counts_index + 1) (wrap64s (tally + v)) ltac:(lia))
        as (cs' & idx' & tally' & Heq & Hlen).
      exists cs', idx', tally'. split; [exact Heq|].
      now rewrite Hlen, length_insert.
    + now exists cs, counts_index, tally.
Qed.

(** The [for] loop stores the values in order from [counts_index] on and
    stops at the end of the array. *)
Lemma store_counts_spec (n : nat) :
  forall (i : nat) (counts_array : list byte) (done todo : list Z) (tally : Z),
    (8 * (i + n) <= length counts_array)%nat ->
    exists tally',
      store_counts n i counts_array (done ++ todo) (Z.of_nat (length done)) tally
      = Some (done ++ stored (map (fun k => wrap64s (be_combine (slice (8 * k) 8 counts_array)))
                             (seq i n)) todo,
         Z.of_nat (length done + Nat.min n (length todo)), tally').
Proof.
  induction n as [|n IH]; intros i counts_array done todo tally Hlen.
  - exists tally. simpl. unfold stored. rewrite firstn_nil, Nat.add_0_r. reflexivity.
  - cbn [store_counts]. rewrite length_app.
    destruct (Z.ltb_spec (Z.of_nat (length done))
                (Z.of_nat (length done + length todo))) as [Hlt|Hge].
    + destruct todo as [|c todo]; [simpl in Hlt; lia|].
      rewrite be64toh_load by (apply slice_length; lia).
      unfold write_count. rewrite length_app.
      replace ((0 <=? Z.of_nat (length done))
               && (Z.of_nat (length done) <? Z.of_nat (length done + length (c :: todo))))
        with true by (symmetry; apply andb_true_iff; split;
                      [apply Z.leb_le | apply Z.ltb_lt]; lia).
      rewrite Nat2Z.id.
      rewrite insert_app_r_alt by lia. rewrite Nat.sub_diag. cbn [insert list_insert].
      set (v := wrap64s (be_combine (slice (8 * i) 8 counts_array))).
      destruct (IH (S i) counts_array (done ++ [v]) todo (wrap64s (tally + v)))
        as [tally' IH']; [lia|].
      exists tally'. rewrite <- app_assoc in IH'. cbn [app] in IH'.
      rewrite length_app in IH'. cbn [length] in IH'.
      replace (Z.of_nat (length done) + 1) with (Z.of_nat (length done + 1)) by lia.
      rewrite IH'. rewrite chunk_values_from, stored_cons. fold v.
      replace (length done + Nat.min (S n) (length (c :: todo)))%nat
        with (length done + 1 + Nat.min n (length todo))%nat by (simpl; lia).
      now rewrite <- app_assoc.
    + destruct todo as [|c todo]; [|simpl in Hge; lia].
      exists tally. rewrite stored_nil_r, app_nil_r.
      replace (length done + Nat.min (S n) (length (@nil Z)))%nat
        with (length done) by (simpl; lia).
      reflexivity.
Qed.


(** A call leaves at most the room it was given. *)
Lemma zlib_call_avail_out {zstate} (f : zstate -> list byte -> Z -> Z -> Z -> zcall zstate)
    (strm : z_stream zstate) (flush : Z) :
  0 <= avail_out strm ->
  0 <= avail_out (snd (zlib_call f strm flush)) <= avail_out strm.
Proof.
  intros H. unfold zlib_call. cbn [snd avail_out].
  rewrite length_firstn. lia.
Qed.

Lemma set_counts_set_counts h a b : set_counts (set_counts h a) b = set_counts h b.
Proof. reflexivity. Qed.

(** The loop of the counts phase, against the values the calls of
    [inflate] give: the values go to the array in order from the current
    index on, those past its end are dropped, and the result is 0. *)
Lemma decode_counts_spec (n : nat) :
  forall (strm : z_stream istate) (counts_array : list byte) (vs : list Z),
    inflate_values n strm counts_array = Some vs ->
    length counts_array = 4096%nat ->
    forall (fuel : nat) (h : hdr_histogram) (done todo : list Z) (tally : Z),
      (n <= fuel)%nat ->
      counts h = done ++ todo ->
      exists tally',
        decode_counts fuel strm counts_array h (Z.of_nat (length done)) tally
        = Some (0, set_counts h (done ++ stored vs todo), tally').
Proof.
  induction n as [|n IH]; intros strm counts_array vs Hvs Hca fuel h done todo tally Hfuel Hh.
  - discriminate.
  - destruct fuel as [|fuel]; [lia|].
    cbn [inflate_values decode_counts] in *.
    pose proof (zlib_call_avail_out inflate (set_out strm 0 (counts_per_chunk * 8))
                  Z_SYNC_FLUSH) as Hav.
    destruct (zlib_call inflate (set_out strm 0 (counts_per_chunk * 8)) Z_SYNC_FLUSH)
      as [[r out] strm1].
    cbn [snd set_out avail_out] in Hav. unfold counts_per_chunk in *.
    specialize (Hav ltac:(lia)).
    set (counts_array1 := overlay out counts_array) in *.
    set (n1 := Z.to_nat (512 - avail_out strm1 / 8)) in *.
    assert (Hn1 : (8 * (0 + n1) <= length counts_array1)%nat).
    { subst counts_array1 n1. rewrite overlay_length, Hca.
      assert (0 <= avail_out strm1 / 8 <= 512)
        by (split; [apply Z.div_pos; lia | apply Z.div_le_upper_bound; lia]).
      lia. }
    destruct (store_counts_spec n1 0 counts_array1 done todo tally Hn1) as [tally1 Hst].
    rewrite Hh, Hst. unfold chunk_values in Hvs.
    set (vs1 := map (fun k => wrap64s (be_combine (slice (8 * k) 8 counts_array1)))
                  (seq 0 n1)) in *.
    rewrite (Z.eqb_sym Z_STREAM_END r), (Z.eqb_sym Z_OK r).
    destruct (r =? Z_STREAM_END) eqn:Hend.
    + apply Z.eqb_eq in Hend. subst r. inversion Hvs; subst vs.
      exists tally1. reflexivity.
    + destruct (r =? Z_OK) eqn:Hok; [|discriminate].
      cbn [negb andb].
      destruct (inflate_values n strm1 counts_array1) as [vs'|] eqn:Hrec; [|discriminate].
      inversion Hvs; subst vs.
      assert (Hvs1 : length vs1 = n1) by (subst vs1; now rewrite length_map, length_seq).
      destruct (IH strm1 counts_array1 vs' Hrec
                  ltac:(subst counts_array1; now rewrite overlay_length)
                  fuel (set_counts h (done ++ stored vs1 todo))
                  (done ++ firstn (length todo) vs1) (skipn (length vs1) todo) tally1
                  ltac:(lia)
                  ltac:(cbn [counts set_counts]; unfold stored; now rewrite app_assoc))
        as [tally' Hdec].
      exists tally'.
      replace (Z.of_nat (length done + Nat.min n1 (length todo)))
        with (Z.of_nat (length (done ++ firstn (length todo) vs1)))
        by (rewrite length_app, length_firstn; lia).
      rewrite Hdec, set_counts_set_counts, stored_app, app_assoc. reflexivity.
Qed.

(** *** The header phase of [hdr_decode_compressed] *)

Lemma encoding_flyweight_length buffer : length (encoding_flyweight buffer) = 32%nat.
Proof. unfold encoding_flyweight. now rewrite overlay_length, uninit_length. Qed.

Ltac flyweight_field :=
  first [ rewrite be32toh_load by (apply slice_length; rewrite encoding_flyweight_length; lia)
        | rewrite be64toh_load by (apply slice_length; rewrite encoding_flyweight_length; lia) ].

(** What the header phase has checked and built when it hands over to
    the counts phase. *)
Lemma decode_header_inr buffer len histogram h strm :
  decode_header buffer len histogram = inr (h, strm) ->
  histogram = None
  /\ sizeof_compression_flyweight <= len
  /\ be_combine (slice 0 4 (encoding_flyweight buffer)) = ENCODING_COOKIE
  /\ total_count h = wrap64s (be_combine (slice 24 8 (encoding_flyweight buffer)))
  /\ exists h0,
       hdr_init (wrap64s (be_combine (slice 8 8 (encoding_flyweight buffer))))
                (wrap64s (be_combine (slice 16 8 (encoding_flyweight buffer))))
                (wrap32s (be_combine (slice 4 4 (encoding_flyweight buffer)))) = Some h0
       /\ h = set_total_count h0 (total_count h).
Proof.
  unfold decode_header, sizeof_compression_flyweight.
  destruct (Z.ltb_spec len 8) as [|Hlen]; [discriminate|].
  destruct histogram as [h'|]; [discriminate|]. cbn [is_null negb orb].
  destruct (COMPRESSION_COOKIE =? be32toh host (load_int host (slice 0 4 buffer)));
    [|discriminate]. cbn [negb].
  destruct (fst inflateInit =? Z_OK); [|discriminate]. cbn [negb].
  destruct (inflate_header buffer) as [[r out] strm1].
  destruct (r =? Z_OK); [|discriminate]. cbn [negb].
  repeat flyweight_field.
  destruct (Z.eqb_spec ENCODING_COOKIE (be_combine (slice 0 4 (encoding_flyweight buffer))))
    as [He|]; [|discriminate]. cbn [negb].
  destruct (hdr_init _ _ _) as [h0|] eqn:Hinit; [|discriminate].
  intros H. inversion H; subst. cbn [total_count set_total_count].
  repeat split; try easy. exists h0. split; reflexivity.
Qed.

(** C9.  Cookie validation: on a buffer of [len] bytes that holds at least
    the envelope header, and with an empty histogram slot, the function
    sets [result] to HDR_COMPRESSION_COOKIE_MISMATCH when the first four
    bytes, read big-endian, are not the compression cookie; it sets it to
    HDR_ENCODING_COOKIE_MISMATCH when they are, [inflateInit] and the
    first [inflate] return Z_OK, and the cookie of the decompressed header
    is not the encoding cookie.  In both cases it then goes to [cleanup]
    and frees [h], which nothing has assigned: whatever [fuel] is,
    [hdr_decode_compressed] has no result, where the claim has it return
    the mismatch. *)
Theorem decode_cookie_mismatch (fuel : nat) (buffer : list byte) (len : Z) :
  sizeof_compression_flyweight <= len <= Z.of_nat (length buffer) ->
  (be_combine (slice 0 4 buffer) <> COMPRESSION_COOKIE ->
   decode_header buffer len None = inl HDR_COMPRESSION_COOKIE_MISMATCH
   /\ hdr_decode_compressed fuel buffer len None = None)
  /\ (be_combine (slice 0 4 buffer) = COMPRESSION_COOKIE ->
      fst inflateInit = Z_OK ->
      fst (fst (inflate_header buffer)) = Z_OK ->
      be_combine (slice 0 4 (encoding_flyweight buffer)) <> ENCODING_COOKIE ->
      decode_header buffer len None = inl HDR_ENCODING_COOKIE_MISMATCH
      /\ hdr_decode_compressed fuel buffer len None = None).
Proof.
  unfold sizeof_compression_flyweight. intros Hlen.
  assert (Hexit : forall e, e <> 0 -> decode_header buffer len None = inl e ->
                    decode_header buffer len None = inl e
                    /\ hdr_decode_compressed fuel buffer len None = None).
  { intros e He Hh. split; [exact Hh|]. unfold hdr_decode_compressed, cleanup.
    rewrite Hh. apply Z.eqb_neq in He. now rewrite He. }
  split.
  - intros Hc. apply Hexit; [discriminate|].
    unfold decode_header, sizeof_compression_flyweight.
    replace (len <? 8) with false by (symmetry; apply Z.ltb_ge; lia).
    cbn [is_null negb orb].
    rewrite be32toh_load by (apply slice_length; lia).
    destruct (Z.eqb_spec COMPRESSION_COOKIE (be_combine (slice 0 4 buffer)));
      [congruence | reflexivity].
  - intros Hc Hinit Hr He. apply Hexit; [discriminate|].
    unfold decode_header, sizeof_compression_flyweight.
    replace (len <? 8) with false by (symmetry; apply Z.ltb_ge; lia).
    cbn [is_null negb orb].
    rewrite be32toh_load by (apply slice_length; lia).
    rewrite Hc, Z.eqb_refl, Hinit, Z.eqb_refl. cbn [negb].
    destruct (inflate_header buffer) as [[r out] strm]. cbn [fst] in Hr. subst r.
    rewrite Z.eqb_refl. cbn [negb].
    flyweight_field.
    destruct (Z.eqb_spec ENCODING_COOKIE
                (be_combine (slice 0 4 (encoding_flyweight buffer))));
      [congruence | reflexivity].
Qed.

(** C8.  The counts phase: when the header phase has built the histogram
    [h0] and the calls of [inflate] give the values [vs] (each slot of the
    chunk read big-endian) and end the stream, [hdr_decode_compressed]
    succeeds whatever the number of values is; the values are stored in
    order from index 0, the array keeps its [counts_len] slots, and the
    values past [counts_len] are dropped. *)
Theorem decode_counts_within_counts_len (fuel n : nat) (buffer : list byte) (len : Z)
    (h0 : hdr_histogram) (strm : z_stream istate) (vs : list Z) :
  decode_header buffer len None = inr (h0, strm) ->
  inflate_values n strm (uninit stack 32 4096) = Some vs ->
  (n <= fuel)%nat ->
  exists h,
    hdr_decode_compressed fuel buffer len None = Some (0, Some h)
    /\ counts h = firstn (length (counts h0)) vs ++ skipn (length vs) (counts h0)
    /\ counts_len h = counts_len h0.
Proof.
  intros Hhdr Hvs Hfuel. unfold hdr_decode_compressed. rewrite Hhdr.
  destruct (decode_counts_spec n strm (uninit stack 32 4096) vs Hvs
              (uninit_length _ _ _) fuel h0 [] (counts h0) 0 Hfuel eq_refl)
    as [tally Hdec].
  change (Z.of_nat (length (@nil Z))) with 0 in Hdec. cbn [app] in Hdec.
  rewrite Hdec. cbn [Z.eqb].
  eexists. split; [reflexivity|]. cbn [counts set_counts]. split; [reflexivity|].
  unfold counts_len. cbn [counts set_counts]. now rewrite stored_length.
Qed.

(** C10.  The total count is never checked against the counts: under the
    same conditions, whatever the decoded counts and their sum are,
    [hdr_decode_compressed] succeeds and the [total_count] of the
    histogram it returns is the big-endian value of the header field. *)
Theorem decode_total_count_from_header (fuel n : nat) (buffer : list byte) (len : Z)
    (h0 : hdr_histogram) (strm : z_stream istate) (vs : list Z) :
  decode_header buffer len None = inr (h0, strm) ->
  inflate_values n strm (uninit stack 32 4096) = Some vs ->
  (n <= fuel)%nat ->
  exists h,
    hdr_decode_compressed fuel buffer len None = Some (0, Some h)
    /\ total_count h = wrap64s (be_combine (slice 24 8 (encoding_flyweight buffer)))
    /\ counts h = stored vs (counts h0).
Proof.
  intros Hhdr Hvs Hfuel. unfold hdr_decode_compressed. rewrite Hhdr.
  destruct (decode_counts_spec n strm (uninit stack 32 4096) vs Hvs
              (uninit_length _ _ _) fuel h0 [] (counts h0) 0 Hfuel eq_refl)
    as [tally Hdec].
  change (Z.of_nat (length (@nil Z))) with 0 in Hdec. cbn [app] in Hdec.
  rewrite Hdec. cbn [Z.eqb].
  eexists. split; [reflexivity|]. cbn [total_count counts set_counts].
  split; [|reflexivity].
  now destruct (decode_header_inr _ _ _ _ _ Hhdr) as (_ & _ & _ & Ht & _).
Qed.

(** *** The length [hdr_encode_compressed] returns *)

Lemma wrap32s_small x : - 2 ^ 31 <= x < 2 ^ 31 -> wrap32s x = x.
Proof. clear. intros H. unfold wrap32s. rewrite Z.mod_small; lia. Qed.

Lemma wrap32s_add_wrap32s a x : wrap32s (a + wrap32s x) = wrap32s (a + x).
Proof.
  clear. unfold wrap32s. f_equal.
  replace (a + ((x + 2 ^ 31) mod 2 ^ 32 - 2 ^ 31) + 2 ^ 31)
    with (a + (x + 2 ^ 31) mod 2 ^ 32) by lia.
  rewrite Zplus_mod_idemp_r. f_equal. lia.
Qed.

Lemma wrap32s_header_plus x t :
  0 <= x < 2 ^ 32 -> 0 < t < 2 ^ 16 -> wrap32s (8 + x) = 8 + t -> x = t.
Proof.
  clear. unfold wrap32s.
  change (2 ^ 31) with 2147483648. change (2 ^ 32) with 4294967296.
  change (2 ^ 16) with 65536. intros Hx Ht H.
  Z.div_mod_to_equations. lia.
Qed.

(** A 32-bit value below [2 ^ 16] that reads the same in both byte
    orders is zero. *)
Lemma bswap_fixed_small t : 0 <= t < 2 ^ 16 -> bswap 4 t = t -> t = 0.
Proof.
  clear. intros Ht Heq. unfold bswap in Heq.
  assert (Hrev : rev (le_split 4 t) = le_split 4 t).
  { apply le_combine_inj; [now rewrite length_rev|].
    rewrite Heq, le_combine_split. symmetry. apply Z.mod_small. cbn. lia. }
  cbn [le_split rev app] in Hrev. injection Hrev as H3 H2 _ _.
  apply (f_equal byte.unsigned) in H3, H2.
  rewrite !byte.unsigned_of_Z in H3, H2. unfold byte.wrap in H3, H2.
  rewrite !Z.shiftr_shiftr, !Z.shiftr_div_pow2 in H3, H2 by lia.
  change (2 ^ (8 + 8)) with 65536 in H3, H2.
  change (2 ^ 8) with 256 in H3, H2. change (2 ^ 16) with 65536 in Ht.
  Z.div_mod_to_equations. lia.
Qed.

(** X19.  On a big-endian host the length returned is the size of the envelope
    header plus the number of bytes [deflate] wrote. *)
Lemma encode_length_big_endian (fuel : nat) (h : hdr_histogram)
    (strm : z_stream dstate) (buf0 : list byte) :
  host = BigEndian ->
  encode_stream fuel h = Some (0, Some (strm, buf0)) ->
  0 <= total_out strm < 2 ^ 31 - 8 ->
  exists buf,
    hdr_encode_compressed fuel h
    = Some (0, Some (buf, sizeof_compression_flyweight + total_out strm)).
Proof.
  intros Hhost Hstream Ht. unfold hdr_encode_compressed. rewrite Hstream.
  cbn [Z.eqb]. rewrite !store_htobe32. rewrite Hhost. cbn [load_int].
  rewrite be_combine_split.
  change (2 ^ (Z.of_nat 4 * 8)) with (2 ^ 32).
  rewrite (Z.mod_small (total_out strm)) by lia.
  unfold sizeof_compression_flyweight.
  rewrite !wrap32s_small by (rewrite ?wrap32s_small; lia).
  eexists. reflexivity.
Qed.

(** C4, on a little-endian host.  When the stream ends with [t] bytes
    written, [0 < t < 2 ^ 16], the length stored in [*compressed_len] is
    the header size plus the byte swap of [t], read as an [int32_t]: it
    is not the header size plus [t]. *)
Theorem encode_length_little_endian (fuel : nat) (h : hdr_histogram)
    (strm : z_stream dstate) (buf0 : list byte) :
  host = LittleEndian ->
  encode_stream fuel h = Some (0, Some (strm, buf0)) ->
  0 < total_out strm < 2 ^ 16 ->
  exists buf clen,
    hdr_encode_compressed fuel h = Some (0, Some (buf, clen))
    /\ clen = wrap32s (sizeof_compression_flyweight + bswap 4 (total_out strm))
    /\ clen <> sizeof_compression_flyweight + total_out strm.
Proof.
  intros Hhost Hstream Ht. unfold hdr_encode_compressed. rewrite Hstream.
  cbn [Z.eqb]. rewrite !store_htobe32. rewrite Hhost. cbn [load_int].
  change (le_combine (be_split 4 (total_out strm))) with (bswap 4 (total_out strm)).
  rewrite wrap32s_add_wrap32s.
  do 2 eexists. split; [reflexivity|]. split; [reflexivity|].
  unfold sizeof_compression_flyweight. intros Hclen.
  assert (Hb : 0 <= bswap 4 (total_out strm) < 2 ^ 32).
  { unfold bswap.
    pose proof (le_combine_bound (rev (le_split 4 (total_out strm)))) as Hb.
    rewrite length_rev, length_le_split in Hb. exact Hb. }
  assert (H : bswap 4 (total_out strm) = total_out strm)
    by (now apply wrap32s_header_plus).
  pose proof (bswap_fixed_small (total_out strm) ltac:(lia) H). lia.
Qed.

(** *** The growth loop after [Z_FINISH] *)

Lemma fill_chunk_done (n : nat) (cs : list Z) (counts_index : Z) :
  Z.of_nat (length cs) <= counts_index ->
  fill_chunk n cs counts_index = ([], counts_index).
Proof.
  intros H. destruct n; [reflexivity|]. cbn [fill_chunk].
  now replace (counts_index <? Z.of_nat (length cs)) with false
    by (symmetry; apply Z.ltb_ge; lia).
Qed.

Lemma overlay_nil (area : list byte) : overlay [] area = area.
Proof. unfold overlay. cbn [app length skipn]. apply firstn_all. Qed.

(** X20.  When all the counts are in and the call of [deflate] with [Z_FINISH]
    returns [Z_OK] with the buffer full, the next call the loop makes is
    the [Z_SYNC_FLUSH] of the growth loop, not [Z_FINISH]; if [deflate] does
    not return [Z_OK] for it, the encoder fails with HDR_DEFLATE_FAIL. *)
Lemma encode_counts_after_unfinished_finish (fuel gfuel : nat) (h : hdr_histogram)
    (strm strm1 strm2 : z_stream dstate) (buf buf1 buf2 chunk : list byte)
    (len counts_index r : Z) :
  avail_out strm <> 0 ->
  Z.of_nat (length (counts h)) <= counts_index ->
  deflate_into (set_in strm chunk 0) buf Z_FINISH = (Z_OK, strm1, buf1) ->
  avail_out strm1 = 0 ->
  malloc_ok (wrap32s (len * 2) mod 2 ^ 64) = true ->
  deflate_into (set_out strm1 len (len mod 2 ^ 32))
    (realloc buf1 (wrap32s (len * 2) mod 2 ^ 64)) Z_SYNC_FLUSH = (r, strm2, buf2) ->
  r <> Z_OK ->
  encode_counts (S (S fuel)) (S gfuel) h strm buf len chunk counts_index
  = Some (HDR_DEFLATE_FAIL, strm2, buf2, wrap32s (len * 2)).
Proof.
  intros Hav Hidx Hfin Hfull Hm Hsync Hr.
  cbn [encode_counts grow_buffer].
  apply Z.eqb_neq in Hav. rewrite Hav. cbn [Z.eqb negb].
  rewrite fill_chunk_done by exact Hidx. rewrite overlay_nil.
  change (Z.of_nat (length (@nil byte)) / 8 * 8) with 0.
  change (Z.of_nat (length (@nil byte)) / 8 =? 0) with true. cbv iota.
  rewrite Hfin. cbn [Z_OK Z.eqb negb andb]. unfold Z_STREAM_END. cbn [Z.eqb negb].
  rewrite Hfull. cbn [Z.eqb]. rewrite Hm. cbn [negb].
  rewrite Hsync. apply Z.eqb_neq in Hr. rewrite Hr. reflexivity.
Qed.

(** *** The round trip through a compressor *)

(** Writes into a buffer. *)
Lemma overlay_fits (written area : list byte) :
  (length written <= length area)%nat ->
  overlay written area = written ++ skipn (length written) area.
Proof.
  intros H. unfold overlay. apply firstn_all2.
  rewrite length_app, length_skipn. lia.
Qed.

Lemma write_at_fits (pos : Z) (out buf : list byte) :
  (Z.to_nat pos + length out <= length buf)%nat ->
  write_at pos out buf
  = firstn (Z.to_nat pos) buf ++ out ++ skipn (Z.to_nat pos + length out) buf.
Proof.
  intros H. unfold write_at. rewrite overlay_fits by (rewrite length_skipn; lia).
  now rewrite skipn_skipn, (Nat.add_comm (length out)).
Qed.

Lemma write_at_length (pos : Z) (out buf : list byte) :
  (Z.to_nat pos + length out <= length buf)%nat ->
  length (write_at pos out buf) = length buf.
Proof.
  intros H. rewrite write_at_fits by exact H.
  rewrite !length_app, length_firstn, length_skipn. lia.
Qed.

(** The output that lies behind the envelope header grows by what a call
    writes at its end. *)
Lemma write_at_extends (written out buf : list byte) :
  (8 + length written + length out <= length buf)%nat ->
  firstn (length written) (skipn 8 buf) = written ->
  firstn (length (written ++ out))
    (skipn 8 (write_at (8 + Z.of_nat (length written)) out buf))
  = written ++ out.
Proof.
  intros Hfit Hw.
  replace (Z.to_nat (8 + Z.of_nat (length written))) with (8 + length written)%nat
    in * by lia.
  rewrite write_at_fits
    by (replace (Z.to_nat (8 + Z.of_nat (length written)))
          with (8 + length written)%nat by lia; lia).
  replace (Z.to_nat (8 + Z.of_nat (length written))) with (8 + length written)%nat by lia.
  rewrite skipn_app, length_firstn, Nat.min_l by lia.
  replace (8 - (8 + length written))%nat with 0%nat by lia. cbn [skipn].
  rewrite skipn_firstn_comm.
  replace (8 + length written - 8)%nat with (length written) by lia.
  rewrite Hw. change (skipn 0 ?l) with l. rewrite app_assoc.
  rewrite firstn_app, Nat.sub_diag. cbn [firstn]. rewrite app_nil_r.
  now apply firstn_all2.
Qed.

Lemma realloc_grows (buf : list byte) (new_len : Z) :
  Z.of_nat (length buf) <= new_len ->
  realloc buf new_len
  = buf ++ uninit heap (length buf) (Z.to_nat new_len - length buf).
Proof.
  intros H. unfold realloc. apply firstn_all2.
  rewrite length_app, uninit_length. lia.
Qed.

(** What a call through [z_stream] does to the fields of the stream. *)
Lemma firstn_firstn_skipn {A : Type} (a b : nat) (l : list A) :
  firstn a l ++ firstn b (skipn a l) = firstn (a + b) l.
Proof.
  revert l. induction a as [|a IH]; intros l; [reflexivity|].
  destruct l as [|x l]; [now rewrite !firstn_nil|].
  cbn [firstn skipn Nat.add app]. now rewrite IH.
Qed.

Lemma zlib_call_out_length {zstate} (f : zstate -> list byte -> Z -> Z -> Z -> zcall zstate)
    (strm : z_stream zstate) (flush : Z) :
  0 <= avail_out strm ->
  Z.of_nat (length (snd (fst (zlib_call f strm flush)))) <= avail_out strm.
Proof. intros H. unfold zlib_call. cbn [fst snd]. rewrite length_firstn. lia. Qed.

Lemma zlib_call_next_out {zstate} (f : zstate -> list byte -> Z -> Z -> Z -> zcall zstate)
    (strm : z_stream zstate) (flush : Z) :
  next_out (snd (zlib_call f strm flush))
  = next_out strm + Z.of_nat (length (snd (fst (zlib_call f strm flush))))
  /\ avail_out (snd (zlib_call f strm flush))
     = avail_out strm - Z.of_nat (length (snd (fst (zlib_call f strm flush))))
  /\ total_out (snd (zlib_call f strm flush))
     = total_out strm + Z.of_nat (length (snd (fst (zlib_call f strm flush)))).
Proof. unfold zlib_call. cbn [fst snd next_out avail_out total_out]. auto. Qed.

Lemma zlib_call_avail_in {zstate} (f : zstate -> list byte -> Z -> Z -> Z -> zcall zstate)
    (strm : z_stream zstate) (flush : Z) :
  0 <= avail_in strm ->
  0 <= avail_in (snd (zlib_call f strm flush)) <= avail_in strm
  /\ z_taken f strm flush
     ++ firstn (Z.to_nat (avail_in (snd (zlib_call f strm flush))))
          (next_in (snd (zlib_call f strm flush)))
     = firstn (Z.to_nat (avail_in strm)) (next_in strm).
Proof.
  intros H. unfold zlib_call, z_taken. cbn [fst snd next_in avail_in].
  set (used := Nat.min _ _). split; [lia|].
  rewrite firstn_firstn_skipn. f_equal. lia.
Qed.

Lemma deflate_into_eq (strm : z_stream dstate) (buf : list byte) (flush : Z) :
  deflate_into strm buf flush
  = (fst (fst (zlib_call deflate strm flush)), snd (zlib_call deflate strm flush),
     write_at (next_out strm) (snd (fst (zlib_call deflate strm flush))) buf).
Proof. unfold deflate_into. now destruct (zlib_call deflate strm flush) as [[r out] strm']. Qed.

(** What a call of [deflate] writes goes behind what is in the buffer,
    whatever the call returns. *)
Lemma encoding_call_buffer (h : hdr_histogram) (strm : z_stream dstate) (buf : list byte)
    (len counts_index flush : Z) (taken written : list byte) :
  encoding h strm buf len counts_index taken written ->
  let out := snd (fst (zlib_call deflate strm flush)) in
  let strm' := snd (zlib_call deflate strm flush) in
  let buf' := write_at (next_out strm) out buf in
  total_out strm' = Z.of_nat (length (written ++ out))
  /\ next_out strm' = 8 + Z.of_nat (length (written ++ out))
  /\ 0 <= avail_out strm'
  /\ next_out strm' + avail_out strm' = len
  /\ Z.of_nat (length buf') = len
  /\ firstn (length (written ++ out)) (skipn 8 buf') = written ++ out.
Proof.
  intros (Hd & Hdata & Hin & Htot & Hnext & Hout & Hsum & Hbuf & Hw & Hlen & Hidx).
  pose proof (zlib_call_out_length deflate strm flush Hout) as Ho.
  destruct (zlib_call_next_out deflate strm flush) as (En & Ea & Et).
  cbv zeta.
  set (out := snd (fst (zlib_call deflate strm flush))) in *.
  set (strm' := snd (zlib_call deflate strm flush)) in *.
  assert (Hfit : (8 + length written + length out <= length buf)%nat) by lia.
  rewrite En, Ea, Et, length_app, Nat2Z.inj_add.
  repeat split; try lia.
  - rewrite write_at_length; [lia|]. rewrite Hnext. lia.
  - rewrite Hnext. rewrite <- length_app. now apply write_at_extends.
Qed.

(** A call of [deflate] that returns [Z_OK] keeps the invariant. *)
Lemma encoding_call (h : hdr_histogram) (strm : z_stream dstate) (buf : list byte)
    (len counts_index flush : Z) (taken written : list byte) :
  encoding h strm buf len counts_index taken written ->
  fst (fst (zlib_call deflate strm flush)) = Z_OK ->
  encoding h (snd (zlib_call deflate strm flush))
    (write_at (next_out strm) (snd (fst (zlib_call deflate strm flush))) buf)
    len counts_index
    (taken ++ z_taken deflate strm flush)
    (written ++ snd (fst (zlib_call deflate strm flush))).
Proof.
  intros Henc Hr.
  destruct (encoding_call_buffer h strm buf len counts_index flush taken written Henc)
    as (Ht & Hn & Ho & Hs & Hb & Hw).
  destruct Henc as (Hd & Hdata & Hin & _ & _ & _ & _ & _ & _ & Hlen & Hidx).
  destruct (zlib_call_avail_in deflate strm flush Hin) as (Hin' & Etaken).
  unfold encoding. repeat split; try assumption; try lia.
  - now apply deflating_call.
  - now rewrite <- app_assoc, Etaken.
Qed.

(** The growth loop keeps the invariant; when it ends with 0 there is
    room in the buffer and no input left over. *)
Lemma grow_buffer_encoding (h : hdr_histogram) (counts_index : Z) (fuel : nat) :
  deflate_takes_input ->
  malloc_bounded ->
  forall (strm : z_stream dstate) (buf : list byte) (len : Z) (taken written : list byte)
         (strm' : z_stream dstate) (buf' : list byte) (len' : Z),
    encoding h strm buf len counts_index taken written ->
    (0 < avail_out strm -> avail_in strm = 0) ->
    grow_buffer fuel strm buf len = Some (0, strm', buf', len') ->
    exists taken' written',
      encoding h strm' buf' len' counts_index taken' written'
      /\ 0 < avail_out strm' /\ avail_in strm' = 0.
Proof.
  intros Htakes Hmalloc.
  induction fuel as [|fuel IH]; intros strm buf len taken written strm' buf' len' Henc Hin Hg;
    [discriminate|].
  cbn [grow_buffer] in Hg.
  destruct (avail_out strm =? 0) eqn:Hfull.
  2:{ injection Hg as <- <- <-. exists taken, written.
      pose proof Henc as (_ & _ & _ & _ & _ & Hout & _).
      apply Z.eqb_neq in Hfull. split; [exact Henc|]. split; [lia|apply Hin; lia]. }
  apply Z.eqb_eq in Hfull.
  destruct (malloc_ok (wrap32s (len * 2) mod 2 ^ 64)) eqn:Hm; cbn [negb] in Hg;
    [|discriminate].
  rewrite deflate_into_eq in Hg.
  set (buf1 := realloc buf (wrap32s (len * 2) mod 2 ^ 64)) in Hg.
  set (strm1 := set_out strm len (len mod 2 ^ 32)) in Hg.
  destruct (fst (fst (zlib_call deflate strm1 Z_SYNC_FLUSH)) =? Z_OK) eqn:Hr;
    cbn [negb] in Hg; [|discriminate].
  apply Z.eqb_eq in Hr.
  destruct Henc as (Hd & Hdata & Hain & Htot & Hnext & Hout & Hsum & Hbuf & Hw & Hlen & Hidx).
  apply Hmalloc in Hm.
  assert (Hnew : wrap32s (len * 2) = len * 2).
  { destruct (Z_lt_le_dec (len * 2) (2 ^ 31)) as [Hs|Hb].
    - apply wrap32s_small. change (2 ^ 31) with 2147483648 in *. lia.
    - exfalso. revert Hm. unfold wrap32s.
      change (2 ^ 31) with 2147483648 in *. change (2 ^ 32) with 4294967296.
      change (2 ^ 64) with 18446744073709551616. change (2 ^ 63) with 9223372036854775808.
      intros Hm.
      replace ((len * 2 + 2147483648) mod 4294967296) with (len * 2 - 2147483648) in Hm.
      2:{ apply Z.mod_unique with 1; lia. }
      replace ((len * 2 - 2147483648 - 2147483648) mod 18446744073709551616)
        with (len * 2 - 4294967296 + 18446744073709551616) in Hm.
      2:{ apply Z.mod_unique with (-1); lia. }
      lia. }
  rewrite Hnew in Hg.
  assert (Hsmall : len * 2 < 2 ^ 31).
  { destruct (Z_lt_le_dec (len * 2) (2 ^ 31)) as [Hs|Hb]; [exact Hs|].
    exfalso. unfold wrap32s in Hnew.
    pose proof (Z.mod_pos_bound (len * 2 + 2 ^ 31) (2 ^ 32) eq_refl) as Hrange.
    change (2 ^ 31) with 2147483648 in *. change (2 ^ 32) with 4294967296 in *. lia. }
  assert (Hbuf1 : buf1 = buf ++ uninit heap (length buf) (Z.to_nat (len * 2) - length buf)).
  { unfold buf1. rewrite Hnew, Z.mod_small.
    - apply realloc_grows. lia.
    - change (2 ^ 31) with 2147483648 in *. change (2 ^ 64) with 18446744073709551616. lia. }
  assert (Henc1 : encoding h strm1 buf1 (len * 2) counts_index taken written).
  { unfold encoding, strm1.
    cbn [set_out state next_in avail_in next_out avail_out total_out].
    rewrite Z.mod_small
      by (change (2 ^ 31) with 2147483648 in *; change (2 ^ 32) with 4294967296; lia).
    repeat split; try assumption; try lia.
    - rewrite Hbuf1, length_app, uninit_length. lia.
    - rewrite Hbuf1, skipn_app, firstn_app.
      replace (length written - length (skipn 8 buf))%nat with 0%nat
        by (rewrite length_skipn; lia).
      cbn [firstn]. now rewrite app_nil_r. }
  apply (encoding_call _ _ _ _ _ Z_SYNC_FLUSH) in Henc1; [|exact Hr].
  eapply IH; [exact Henc1| |exact Hg].
  apply (Htakes strm1 Z_SYNC_FLUSH taken written); try assumption.
Qed.

(** The bytes of the counts. *)
Lemma counts_bytes_length (cs : list Z) : length (counts_bytes cs) = (8 * length cs)%nat.
Proof.
  clear. induction cs as [|c cs IH]; [reflexivity|].
  cbn [counts_bytes flat_map]. fold (counts_bytes cs).
  rewrite length_app, be_split_length, IH. cbn [length]. lia.
Qed.

Lemma counts_bytes_app (a b : list Z) :
  counts_bytes (a ++ b) = counts_bytes a ++ counts_bytes b.
Proof. clear. apply flat_map_app. Qed.

Lemma counts_bytes_firstn (n : nat) (cs : list Z) :
  firstn (8 * n) (counts_bytes cs) = counts_bytes (firstn n cs).
Proof.
  clear. rewrite <- (firstn_skipn n cs) at 1. rewrite counts_bytes_app, firstn_app.
  rewrite counts_bytes_length, length_firstn.
  destruct (Nat.le_gt_cases n (length cs)) as [Hle|Hgt].
  - rewrite Nat.min_l by lia. rewrite Nat.sub_diag. cbn [firstn]. rewrite app_nil_r.
    apply firstn_all2. rewrite counts_bytes_length, length_firstn. lia.
  - rewrite (skipn_all2 cs) by lia. cbn [counts_bytes flat_map]. rewrite firstn_nil, app_nil_r.
    apply firstn_all2. rewrite counts_bytes_length, length_firstn. lia.
Qed.

Lemma counts_bytes_skipn (n : nat) (cs : list Z) :
  skipn (8 * n) (counts_bytes cs) = counts_bytes (skipn n cs).
Proof.
  clear. rewrite <- (firstn_skipn n cs) at 1. rewrite counts_bytes_app, skipn_app.
  rewrite counts_bytes_length, length_firstn.
  destruct (Nat.le_gt_cases n (length cs)) as [Hle|Hgt].
  - rewrite Nat.min_l by lia. rewrite Nat.sub_diag.
    rewrite skipn_all2 by (rewrite counts_bytes_length, length_firstn; lia).
    reflexivity.
  - rewrite (skipn_all2 cs) by lia. cbn [counts_bytes flat_map]. rewrite skipn_nil, app_nil_r.
    apply skipn_all2. rewrite counts_bytes_length, length_firstn. lia.
Qed.

Lemma skipn_nth {A : Type} (d : A) (n : nat) (l : list A) :
  (n < length l)%nat -> skipn n l = nth n l d :: skipn (S n) l.
Proof.
  clear. revert l. induction n as [|n IH]; intros [|x l] H; cbn [length] in H; try lia.
  - reflexivity.
  - cbn [skipn nth]. rewrite IH by lia. reflexivity.
Qed.

(** The chunk the encoder fills holds the next counts, big-endian. *)
Lemma fill_chunk_spec (n : nat) :
  forall (cs : list Z) (counts_index : Z),
    0 <= counts_index ->
    fill_chunk n cs counts_index
    = (counts_bytes (firstn n (skipn (Z.to_nat counts_index) cs)),
       counts_index + Z.of_nat (Nat.min n (length cs - Z.to_nat counts_index))).
Proof.
  induction n as [|n IH]; intros cs counts_index Hidx.
  - cbn [fill_chunk firstn counts_bytes flat_map Nat.min]. f_equal. lia.
  - cbn [fill_chunk]. destruct (counts_index <? Z.of_nat (length cs)) eqn:Hlt.
    + apply Z.ltb_lt in Hlt. rewrite IH by lia.
      rewrite (skipn_nth 0 (Z.to_nat counts_index)) by lia.
      cbn [firstn counts_bytes flat_map]. rewrite store_htobe64.
      replace (Z.to_nat (counts_index + 1)) with (S (Z.to_nat counts_index)) by lia.
      f_equal. lia.
    + apply Z.ltb_ge in Hlt. rewrite skipn_all2 by lia.
      rewrite firstn_nil. cbn [counts_bytes flat_map]. f_equal. lia.
Qed.

(** The payload up to a count. *)
Lemma payload_firstn (h : hdr_histogram) (k : nat) :
  firstn (32 + 8 * k) (payload h)
  = firstn 32 (payload h) ++ counts_bytes (firstn k (counts h)).
Proof.
  clear. unfold payload. rewrite !app_assoc.
  set (hd := (((_ ++ _) ++ _) ++ _) ++ be_split 8 (total_count h)).
  assert (Hl : length hd = 32%nat).
  { unfold hd. rewrite !length_app, !be_split_length. reflexivity. }
  rewrite !firstn_app, Hl.
  rewrite !(firstn_all2 hd) by lia.
  replace (32 + 8 * k - 32)%nat with (8 * k)%nat by lia.
  rewrite counts_bytes_firstn. cbn [Nat.sub firstn]. now rewrite app_nil_r.
Qed.

Lemma payload_all (h : hdr_histogram) :
  firstn (32 + 8 * length (counts h)) (payload h) = payload h.
Proof.
  clear. apply firstn_all2. unfold payload.
  rewrite !length_app, !be_split_length, counts_bytes_length. lia.
Qed.

Lemma payload_length (h : hdr_histogram) :
  length (payload h) = (32 + 8 * length (counts h))%nat.
Proof.
  clear. unfold payload. rewrite !length_app, !be_split_length, counts_bytes_length. lia.
Qed.

Lemma encode_fw_payload (h : hdr_histogram) : encode_fw h = firstn 32 (payload h).
Proof.
  unfold encode_fw, payload. rewrite !store_htobe32, !store_htobe64.
  rewrite !app_assoc.
  set (hd := (((_ ++ _) ++ _) ++ _) ++ be_split 8 (total_count h)).
  assert (Hl : length hd = 32%nat).
  { unfold hd. rewrite !length_app, !be_split_length. reflexivity. }
  rewrite firstn_app, Hl, Nat.sub_diag. cbn [firstn]. rewrite app_nil_r.
  symmetry. apply firstn_all2. lia.
Qed.

(** The stream gets the next chunk of the counts. *)
Lemma encoding_set_in (h : hdr_histogram) (strm : z_stream dstate) (buf chunk : list byte)
    (len counts_index : Z) (taken written : list byte) :
  encoding h strm buf len counts_index taken written ->
  avail_in strm = 0 ->
  length chunk = 4096%nat ->
  let filled := counts_bytes (firstn 512 (skipn (Z.to_nat counts_index) (counts h))) in
  let k := Nat.min 512 (length (counts h) - Z.to_nat counts_index) in
  encoding h (set_in strm (overlay filled chunk) (Z.of_nat k * 8)) buf len
    (counts_index + Z.of_nat k) taken written.
Proof.
  intros (Hd & Hdata & Hin & Htot & Hnext & Hout & Hsum & Hbuf & Hw & Hlen & Hidx) H0 Hchunk.
  cbv zeta.
  set (filled := counts_bytes _). set (k := Nat.min _ _).
  unfold counts_len in Hidx.
  assert (Hfilled : length filled = (8 * k)%nat).
  { unfold filled, k. rewrite counts_bytes_length, length_firstn, length_skipn. lia. }
  unfold encoding. cbn [set_in state next_in avail_in next_out avail_out total_out].
  repeat split; try assumption; try lia.
  - rewrite H0 in Hdata. cbn [Z.to_nat firstn] in Hdata. rewrite app_nil_r in Hdata.
    subst taken.
    replace (Z.to_nat (Z.of_nat k * 8)) with (length filled) by lia.
    rewrite overlay_fits by lia. rewrite firstn_app, firstn_all, Nat.sub_diag.
    cbn [firstn]. rewrite app_nil_r.
    replace (Z.to_nat (counts_index + Z.of_nat k)) with (Z.to_nat counts_index + k)%nat by lia.
    rewrite !payload_firstn, <- app_assoc. f_equal.
    unfold filled. rewrite <- counts_bytes_app, firstn_firstn_skipn. f_equal.
    destruct (Nat.le_gt_cases 512 (length (counts h) - Z.to_nat counts_index)) as [Hle|Hgt].
    + unfold k. now rewrite Nat.min_l by exact Hle.
    + rewrite !firstn_all2; [reflexivity| |]; unfold k; lia.
  - unfold counts_len, k. lia.
Qed.

(** The loop of the encoder: when it ends with 0, the buffer holds, after
    the envelope header, a complete stream of the payload, and
    [total_out] is its size. *)
Lemma encode_counts_stream (zstream : list byte -> list byte -> Prop) (h : hdr_histogram)
    (gfuel fuel : nat) :
  deflate_takes_input ->
  deflate_ends_stream zstream ->
  malloc_bounded ->
  forall (strm : z_stream dstate) (buf chunk : list byte) (len counts_index : Z)
         (taken written : list byte)
         (strm' : z_stream dstate) (buf' : list byte) (len' : Z),
    encoding h strm buf len counts_index taken written ->
    (0 < avail_out strm -> avail_in strm = 0) ->
    length chunk = 4096%nat ->
    encode_counts fuel gfuel h strm buf len chunk counts_index = Some (0, strm', buf', len') ->
    exists written' : list byte,
      zstream (payload h) written'
      /\ total_out strm' = Z.of_nat (length written')
      /\ firstn (length written') (skipn 8 buf') = written'
      /\ (8 + length written' <= length buf')%nat
      /\ Z.of_nat (length buf') < 2 ^ 31.
Proof.
  intros Htakes Hends Hmalloc.
  induction fuel as [|fuel IH];
    intros strm buf chunk len counts_index taken written strm' buf' len' Henc Hin Hchunk He;
    [discriminate|].
  cbn [encode_counts] in He.
  destruct (grow_buffer gfuel strm buf len) as [[[[result strm1] buf1] len1]|] eqn:Hg;
    [|discriminate].
  destruct (result =? 0) eqn:Hres; cbn [negb] in He.
  2:{ injection He as -> _ _ _. discriminate. }
  apply Z.eqb_eq in Hres. subst result.
  destruct (grow_buffer_encoding h counts_index gfuel Htakes Hmalloc _ _ _ _ _ _ _ _ Henc Hin Hg)
    as (taken1 & written1 & Henc1 & Hroom & Hin1).
  assert (Hidx : 0 <= counts_index <= counts_len h) by apply Henc1.
  rewrite fill_chunk_spec in He by lia.
  change (Z.to_nat counts_per_chunk) with 512%nat in He.
  pose proof (encoding_set_in h strm1 buf1 chunk len1 counts_index taken1 written1
                Henc1 Hin1 Hchunk) as Henc2.
  cbv zeta in Henc2.
  set (filled := counts_bytes _) in *.
  set (k := Nat.min _ _) in *.
  assert (Hfilled : Z.of_nat (length filled) / 8 = Z.of_nat k).
  { unfold filled, k. rewrite counts_bytes_length, length_firstn, length_skipn.
    rewrite Nat2Z.inj_mul, Z.mul_comm. change (Z.of_nat 8) with 8.
    rewrite Z.div_mul by lia. reflexivity. }
  rewrite Hfilled, deflate_into_eq in He.
  set (strm2 := set_in strm1 (overlay filled chunk) (Z.of_nat k * 8)) in *.
  set (flush := if Z.of_nat k =? 0 then Z_FINISH else Z_NO_FLUSH) in *.
  destruct (encoding_call_buffer h strm2 buf1 len1 _ flush taken1 written1 Henc2)
    as (Ht & Hn & Ho & Hs & Hb & Hw).
  assert (Hin2 : 0 <= avail_in strm2) by apply Henc2.
  assert (Hd2 : deflating (state strm2) taken1 written1) by apply Henc2.
  assert (Hlen1 : 4096 <= len1 < 2 ^ 31) by apply Henc2.
  destruct (fst (fst (zlib_call deflate strm2 flush)) =? Z_STREAM_END) eqn:Hend.
  - apply Z.eqb_eq in Hend. rewrite Hend in He.
    change (Z_STREAM_END =? Z_OK) with false in He.
    change (Z_STREAM_END =? Z_STREAM_END) with true in He.
    cbn [negb andb] in He.
    assert (Es : snd (zlib_call deflate strm2 flush) = strm') by congruence.
    assert (Eb : write_at (next_out strm2) (snd (fst (zlib_call deflate strm2 flush))) buf1
                 = buf') by congruence.
    clear He. subst strm' buf'.
    destruct (Hends strm2 flush taken1 written1 Hd2 Hin2 Hend) as (Hflush & Hleft & Hz).
    assert (Hk : k = 0%nat).
    { unfold flush in Hflush. destruct (Z.of_nat k =? 0) eqn:Hk0; [|discriminate].
      apply Z.eqb_eq in Hk0. lia. }
    exists (written1 ++ snd (fst (zlib_call deflate strm2 flush))).
    split; [|split; [exact Ht|split; [exact Hw|split; lia]]].
    replace (payload h) with (taken1 ++ z_taken deflate strm2 flush); [exact Hz|].
    unfold z_taken. cbn [set_in strm2 avail_in]. rewrite Hk.
    cbn [Z.of_nat Z.mul Z.to_nat]. rewrite Nat.min_0_r. cbn [firstn]. rewrite app_nil_r.
    destruct Henc1 as (_ & Hdata & _).
    rewrite Hin1 in Hdata. cbn [Z.to_nat firstn] in Hdata. rewrite app_nil_r in Hdata.
    rewrite Hdata. unfold counts_len in Hidx.
    replace (Z.to_nat counts_index) with (length (counts h)) by (unfold k in Hk; lia).
    apply payload_all.
  - destruct (fst (fst (zlib_call deflate strm2 flush)) =? Z_OK) eqn:Hok;
      cbn [negb andb] in He; [|discriminate].
    apply Z.eqb_eq in Hok.
    eapply IH; [| | |exact He].
    + apply encoding_call; [exact Henc2|exact Hok].
    + apply (Htakes strm2 flush taken1 written1 Hd2 Hin2 Hok).
    + now rewrite overlay_length.
Qed.

(** The function up to the end of its loop. *)
Lemma encode_stream_stream (zstream : list byte -> list byte -> Prop) (h : hdr_histogram)
    (fuel : nat) (strm : z_stream dstate) (buf : list byte) :
  deflate_takes_input ->
  deflate_ends_stream zstream ->
  malloc_bounded ->
  encode_stream fuel h = Some (0, Some (strm, buf)) ->
  exists written : list byte,
    zstream (payload h) written
    /\ total_out strm = Z.of_nat (length written)
    /\ firstn (length written) (skipn 8 buf) = written
    /\ (8 + length written <= length buf)%nat
    /\ Z.of_nat (length buf) < 2 ^ 31.
Proof.
  intros Htakes Hends Hmalloc. unfold encode_stream.
  destruct (malloc_ok 4096); cbn [negb]; [|discriminate].
  destruct (deflateInit 4) as [init st] eqn:Hinit.
  destruct (init =? Z_OK) eqn:Hi; cbn [negb]; [|discriminate].
  apply Z.eqb_eq in Hi. subst init.
  rewrite deflate_into_eq.
  set (strm0 := {| next_in := encode_fw h; avail_in := sizeof_encoding_flyweight;
                   next_out := sizeof_compression_flyweight;
                   avail_out := 4096 - sizeof_compression_flyweight;
                   total_out := 0; state := st |}).
  assert (Henc0 : encoding h strm0 (uninit heap 0 (Z.to_nat 4096)) 4096 0 [] []).
  { unfold encoding, strm0.
    cbn [state next_in avail_in next_out avail_out total_out app length].
    unfold sizeof_encoding_flyweight, sizeof_compression_flyweight, counts_len.
    rewrite uninit_length. change (2 ^ 31) with 2147483648.
    repeat split; try lia.
    - now apply deflating_init.
    - rewrite encode_fw_payload, firstn_firstn. reflexivity. }
  destruct (fst (fst (zlib_call deflate strm0 Z_NO_FLUSH)) =? Z_OK) eqn:Hr; cbn [negb];
    [|discriminate].
  apply Z.eqb_eq in Hr.
  destruct (encode_counts fuel fuel h _ _ 4096 (uninit stack 0 4096) 0)
    as [[[[result strm1] buf1] len1]|] eqn:He; [|discriminate].
  intros H.
  assert (E0 : result = 0) by congruence.
  assert (E1 : strm1 = strm) by congruence.
  assert (E2 : buf1 = buf) by congruence.
  subst result strm1 buf1. clear H.
  eapply (encode_counts_stream zstream h fuel fuel Htakes Hends Hmalloc); [| | |exact He].
  - apply encoding_call; [exact Henc0|exact Hr].
  - apply (Htakes strm0 Z_NO_FLUSH [] []); [apply Henc0|apply Henc0|exact Hr].
  - apply uninit_length.
Qed.

(** The first byte of a byte swap is the last byte of the value. *)
Lemma bswap_4_low (t : Z) : bswap 4 t mod 2 ^ 8 = (t / 2 ^ 24) mod 2 ^ 8.
Proof.
  clear.
  assert (H : le_split 4 (bswap 4 t) = rev (le_split 4 t)).
  { unfold bswap. rewrite <- (length_le_split 4 t) at 1. rewrite <- length_rev.
    apply split_le_combine. }
  cbn [le_split rev app] in H. injection H as H _ _ _.
  apply (f_equal byte.unsigned) in H.
  rewrite !byte.unsigned_of_Z in H. unfold byte.wrap in H.
  rewrite !Z.shiftr_shiftr, !Z.shiftr_div_pow2 in H by lia.
  exact H.
Qed.

Lemma bswap_4_below (t : Z) : 0 <= t < 2 ^ 31 -> 0 <= bswap 4 t < 2 ^ 32 - 8.
Proof.
  clear. intros Ht.
  assert (Hb : 0 <= bswap 4 t < 2 ^ 32).
  { unfold bswap. pose proof (le_combine_bound (rev (le_split 4 t))) as Hb.
    rewrite length_rev, length_le_split in Hb. exact Hb. }
  pose proof (bswap_4_low t) as Hlow. revert Hb Hlow. generalize (bswap 4 t).
  intros b Hb Hlow.
  change (2 ^ 8) with 256 in Hlow. change (2 ^ 24) with 16777216 in Hlow.
  change (2 ^ 31) with 2147483648 in Ht. change (2 ^ 32) with 4294967296 in Hb.
  change (2 ^ 32) with 4294967296.
  Z.div_mod_to_equations. lia.
Qed.

(** The length the encoder stores, turned into the [size_t] that the
    decoder takes, is not below the size of the envelope header. *)
Lemma length_field_at_least_header (t : Z) :
  0 <= t < 2 ^ 31 ->
  sizeof_compression_flyweight
  <= wrap32s (sizeof_compression_flyweight
              + wrap32s (load_int host (store_int host 4 (htobe32 host t)))) mod 2 ^ 64.
Proof.
  intros Ht. rewrite wrap32s_add_wrap32s, store_htobe32.
  unfold sizeof_compression_flyweight.
  assert (Hx : 0 <= load_int host (be_split 4 t) < 2 ^ 32 - 8).
  { destruct host; cbn [load_int].
    - rewrite be_combine_split. change (2 ^ (Z.of_nat 4 * 8)) with (2 ^ 32).
      revert Ht. clear. intros Ht.
      rewrite Z.mod_small; change (2 ^ 31) with 2147483648 in Ht;
        change (2 ^ 32) with 4294967296; lia.
    - now apply bswap_4_below. }
  revert Hx. generalize (load_int host (be_split 4 t)). clear. intros x Hx.
  unfold wrap32s.
  change (2 ^ 31) with 2147483648. change (2 ^ 32) with 4294967296 in Hx.
  change (2 ^ 32) with 4294967296.
  change (2 ^ 64) with 18446744073709551616.
  Z.div_mod_to_equations. lia.
Qed.

(** What [hdr_encode_compressed] hands out when it returns 0: the
    envelope header with the two big-endian fields, then a complete stream
    of the payload, in a buffer that may be longer; and a length that the
    decoder accepts. *)
Lemma hdr_encode_compressed_envelope (zstream : list byte -> list byte -> Prop)
    (h : hdr_histogram) (fuel : nat) (buf : list byte) (clen : Z) :
  deflate_takes_input ->
  deflate_ends_stream zstream ->
  malloc_bounded ->
  hdr_encode_compressed fuel h = Some (0, Some (buf, clen)) ->
  exists written rest : list byte,
    zstream (payload h) written
    /\ buf = be_split 4 COMPRESSION_COOKIE
             ++ be_split 4 (Z.of_nat (length written)) ++ written ++ rest
    /\ Z.of_nat (length written) < 2 ^ 31
    /\ sizeof_compression_flyweight <= clen mod 2 ^ 64.
Proof.
  intros Htakes Hends Hmalloc. unfold hdr_encode_compressed.
  destruct (encode_stream fuel h) as [[result [[strm buf0]|]]|] eqn:Hs;
    [| |discriminate].
  2:{ intros H. discriminate. }
  destruct (result =? 0) eqn:Hres; [|discriminate].
  apply Z.eqb_eq in Hres. subst result.
  destruct (encode_stream_stream zstream h fuel strm buf0 Htakes Hends Hmalloc Hs)
    as (written & Hz & Htot & Hw & Hfit & Hlen).
  rewrite !store_htobe32. intros H.
  assert (Eb : write_at 4 (be_split 4 (total_out strm))
                 (write_at 0 (be_split 4 COMPRESSION_COOKIE) buf0) = buf) by congruence.
  assert (Ec : wrap32s (sizeof_compression_flyweight
                        + wrap32s (load_int host (be_split 4 (total_out strm)))) = clen)
    by congruence.
  clear H. exists written, (skipn (length written) (skipn 8 buf0)).
  split; [exact Hz|]. split; [|split].
  - rewrite <- Eb, Htot.
    rewrite (write_at_fits 0) by (rewrite be_split_length; cbn [Z.to_nat]; lia).
    change (Z.to_nat 0) with 0%nat.
    rewrite firstn_O, app_nil_l, Nat.add_0_l, be_split_length.
    rewrite write_at_fits.
    2:{ rewrite length_app, !be_split_length, length_skipn.
        change (Z.to_nat 4) with 4%nat. lia. }
    change (Z.to_nat 4) with 4%nat. rewrite be_split_length.
    rewrite firstn_app, be_split_length. cbn [Nat.sub firstn].
    rewrite firstn_all2 by (rewrite be_split_length; lia).
    rewrite app_nil_r, skipn_app, be_split_length.
    rewrite skipn_all2 by (rewrite be_split_length; lia).
    cbn [Nat.add Nat.sub app]. rewrite skipn_skipn. cbn [Nat.add].
    rewrite <- (firstn_skipn (length written) (skipn 8 buf0)) at 1.
    now rewrite Hw.
  - change (2 ^ 31) with 2147483648 in *. lia.
  - rewrite <- Ec, <- store_htobe32. apply length_field_at_least_header.
    rewrite Htot. change (2 ^ 31) with 2147483648 in *. lia.
Qed.

(** A big-endian field read back as the integer it was written from. *)
Lemma wrap64s_be_split (v : Z) :
  int64_range v -> wrap64s (be_combine (be_split 8 v)) = v.
Proof.
  clear. unfold int64_range, wrap64s. intros Hv. rewrite be_combine_split.
  change (2 ^ (Z.of_nat 8 * 8)) with 18446744073709551616.
  change (2 ^ 63) with 9223372036854775808 in *.
  change (2 ^ 64) with 18446744073709551616.
  Z.div_mod_to_equations. lia.
Qed.

Lemma wrap32s_be_split (v : Z) :
  int32_range v -> wrap32s (be_combine (be_split 4 v)) = v.
Proof.
  clear. unfold int32_range, wrap32s. intros Hv. rewrite be_combine_split.
  change (2 ^ (Z.of_nat 4 * 8)) with 4294967296.
  change (2 ^ 31) with 2147483648 in *.
  change (2 ^ 32) with 4294967296.
  Z.div_mod_to_equations. lia.
Qed.

Lemma slice_middle (pre field post : list byte) :
  slice (length pre) (length field) (pre ++ field ++ post) = field.
Proof.
  clear. unfold slice. rewrite skipn_app, skipn_all, Nat.sub_diag, skipn_O, app_nil_l.
  rewrite firstn_app, firstn_all, Nat.sub_diag, firstn_O. apply app_nil_r.
Qed.

(** The values in an array that holds the bytes of [cs]. *)
Lemma chunk_values_from_counts_bytes (cs : list Z) :
  Forall int64_range cs ->
  forall (pre post : list byte) (i : nat),
    length pre = (8 * i)%nat ->
    map (fun k => wrap64s (be_combine (slice (8 * k) 8 (pre ++ counts_bytes cs ++ post))))
        (seq i (length cs))
    = cs.
Proof.
  clear. induction 1 as [|c cs Hc Hcs IH]; intros pre post i Hpre; [reflexivity|].
  cbn [length]. rewrite chunk_values_from. f_equal.
  - cbn [counts_bytes flat_map]. rewrite <- app_assoc, <- Hpre.
    rewrite <- (be_split_length 8 c) at 1. rewrite slice_middle.
    now apply wrap64s_be_split.
  - cbn [counts_bytes flat_map]. fold (counts_bytes cs).
    rewrite <- app_assoc, app_assoc. apply IH.
    rewrite length_app, be_split_length. lia.
Qed.

Lemma chunk_values_counts_bytes (cs : list Z) (counts_array : list byte) :
  Forall int64_range cs ->
  (8 * length cs <= length counts_array)%nat ->
  chunk_values (overlay (counts_bytes cs) counts_array) (length cs) = cs.
Proof.
  clear. intros Hcs Hfit. unfold chunk_values.
  rewrite overlay_fits by (rewrite counts_bytes_length; lia).
  apply (chunk_values_from_counts_bytes cs Hcs [] _ 0). reflexivity.
Qed.

(** *** The counts phase of the decoder on a stream of the payload *)

Lemma inflate_values_eq (n : nat) (strm : z_stream istate) (counts_array : list byte) :
  inflate_values (S n) strm counts_array
  = let res := zlib_call inflate (set_out strm 0 (counts_per_chunk * 8)) Z_SYNC_FLUSH in
    let counts_array' := overlay (snd (fst res)) counts_array in
    let vs := chunk_values counts_array'
                (Z.to_nat (counts_per_chunk - avail_out (snd res) / 8)) in
    if fst (fst res) =? Z_STREAM_END then Some vs
    else if fst (fst res) =? Z_OK
    then match inflate_values n (snd res) counts_array' with
         | Some vs' => Some (vs ++ vs')
         | None => None
         end
    else None.
Proof.
  cbn [inflate_values].
  now destruct (zlib_call inflate (set_out strm 0 (counts_per_chunk * 8)) Z_SYNC_FLUSH)
    as [[r out] strm'].
Qed.

(** One call of the loop, when [inflate] has the bytes of [cs] left to
    give: the values found are the next 512 of them, or all. *)
Lemma inflate_chunk (zstream : list byte -> list byte -> Prop)
    (inflating : istate -> list byte -> Z -> list byte -> Prop)
    (strm : z_stream istate) (counts_array : list byte) (cs : list Z) :
  inflate_gives_back zstream inflating ->
  inflating (state strm) (next_in strm) (avail_in strm) (counts_bytes cs) ->
  Forall int64_range cs ->
  length counts_array = 4096%nat ->
  let res := zlib_call inflate (set_out strm 0 (counts_per_chunk * 8)) Z_SYNC_FLUSH in
  chunk_values (overlay (snd (fst res)) counts_array)
    (Z.to_nat (counts_per_chunk - avail_out (snd res) / 8))
  = firstn 512 cs
  /\ length (overlay (snd (fst res)) counts_array) = 4096%nat
  /\ ((512 < length cs)%nat ->
      fst (fst res) = Z_OK
      /\ inflating (state (snd res)) (next_in (snd res)) (avail_in (snd res))
           (counts_bytes (skipn 512 cs)))
  /\ ((length cs < 512)%nat -> fst (fst res) = Z_STREAM_END)
  /\ (length cs = 512%nat ->
      fst (fst res) = Z_STREAM_END
      \/ (fst (fst res) = Z_OK
          /\ inflating (state (snd res)) (next_in (snd res)) (avail_in (snd res))
               (counts_bytes (skipn 512 cs)))).
Proof.
  intros [_ Hcall] Hinfl Hcs Hca. cbv zeta.
  set (strm0 := set_out strm 0 (counts_per_chunk * 8)).
  specialize (Hcall strm0 (counts_bytes cs) Hinfl eq_refl). cbv zeta in Hcall.
  change (avail_out strm0) with 4096 in Hcall.
  change (Z.to_nat 4096) with (8 * 512)%nat in Hcall.
  rewrite counts_bytes_firstn, counts_bytes_skipn, counts_bytes_length in Hcall.
  destruct Hcall as (Hout & Hmore & Hless & Hsame).
  destruct (zlib_call_next_out inflate strm0 Z_SYNC_FLUSH) as (_ & Hav & _).
  rewrite Hout in Hav |- *.
  rewrite counts_bytes_length in Hav. change (avail_out strm0) with 4096 in Hav.
  assert (Hk : length (firstn 512 cs) = Nat.min 512 (length cs)) by apply length_firstn.
  split; [|split; [now rewrite overlay_length|split; [|split]]].
  - replace (Z.to_nat (counts_per_chunk - avail_out (snd (zlib_call inflate strm0 Z_SYNC_FLUSH)) / 8))
      with (length (firstn 512 cs)).
    + apply chunk_values_counts_bytes; [now apply Forall_take|lia].
    + rewrite Hav. unfold counts_per_chunk.
      replace (4096 - Z.of_nat (8 * length (firstn 512 cs)))
        with ((512 - Z.of_nat (length (firstn 512 cs))) * 8) by lia.
      rewrite Z.div_mul by lia. lia.
  - intros H. apply Hmore. lia.
  - intros H. apply Hless. lia.
  - intros H. apply Hsame. lia.
Qed.

(** The calls of the loop give back all the counts. *)
Lemma inflate_values_counts (zstream : list byte -> list byte -> Prop)
    (inflating : istate -> list byte -> Z -> list byte -> Prop) (m : nat) :
  inflate_gives_back zstream inflating ->
  forall (cs : list Z) (strm : z_stream istate) (counts_array : list byte),
    (length cs <= 512 * m)%nat ->
    inflating (state strm) (next_in strm) (avail_in strm) (counts_bytes cs) ->
    Forall int64_range cs ->
    length counts_array = 4096%nat ->
    exists n : nat, inflate_values n strm counts_array = Some cs.
Proof.
  intros Hzlib. induction m as [|m IH]; intros cs strm counts_array Hm Hinfl Hcs Hca;
    destruct (inflate_chunk zstream inflating strm counts_array cs Hzlib Hinfl Hcs Hca)
      as (Hvs & Hca' & Hmore & Hless & Hsame).
  - exists 1%nat. rewrite inflate_values_eq. cbv zeta.
    rewrite Hless by lia. change (Z_STREAM_END =? Z_STREAM_END) with true. cbv iota.
    rewrite Hvs. f_equal. apply firstn_all2. lia.
  - destruct (Nat.lt_trichotomy (length cs) 512) as [Hlt|[Heq|Hgt]].
    + exists 1%nat. rewrite inflate_values_eq. cbv zeta.
      rewrite Hless by lia. change (Z_STREAM_END =? Z_STREAM_END) with true. cbv iota.
      rewrite Hvs. f_equal. apply firstn_all2. lia.
    + destruct (Hsame Heq) as [Hend|[Hok Hnext]].
      * exists 1%nat. rewrite inflate_values_eq. cbv zeta.
        rewrite Hend. change (Z_STREAM_END =? Z_STREAM_END) with true. cbv iota.
        rewrite Hvs. f_equal. apply firstn_all2. lia.
      * destruct (IH (skipn 512 cs) _ _ ltac:(rewrite length_skipn; lia) Hnext
                    (Forall_drop _ _ _ Hcs) Hca') as [n Hn].
        exists (S n). rewrite inflate_values_eq. cbv zeta.
        rewrite Hok, Hn, Hvs. change (Z_OK =? Z_STREAM_END) with false.
        change (Z_OK =? Z_OK) with true. cbv iota.
        f_equal. apply firstn_skipn.
    + destruct (Hmore Hgt) as [Hok Hnext].
      destruct (IH (skipn 512 cs) _ _ ltac:(rewrite length_skipn; lia) Hnext
                  (Forall_drop _ _ _ Hcs) Hca') as [n Hn].
      exists (S n). rewrite inflate_values_eq. cbv zeta.
      rewrite Hok, Hn, Hvs. change (Z_OK =? Z_STREAM_END) with false.
      change (Z_OK =? Z_OK) with true. cbv iota.
      f_equal. apply firstn_skipn.
Qed.

(** *** The header phase of the decoder on an envelope of the encoder *)

Lemma slice_at (off n : nat) (pre field post : list byte) :
  length pre = off -> length field = n ->
  slice off n (pre ++ field ++ post) = field.
Proof. clear. intros <- <-. apply slice_middle. Qed.

Lemma payload_header (h : hdr_histogram) :
  firstn 32 (payload h)
  = be_split 4 ENCODING_COOKIE ++ be_split 4 (significant_figures h)
    ++ be_split 8 (lowest_trackable_value h) ++ be_split 8 (highest_trackable_value h)
    ++ be_split 8 (total_count h).
Proof.
  clear. unfold payload. rewrite !app_assoc.
  set (hd := (((_ ++ _) ++ _) ++ _) ++ be_split 8 (total_count h)).
  assert (Hl : length hd = 32%nat).
  { unfold hd. rewrite !length_app, !be_split_length. reflexivity. }
  rewrite firstn_app, Hl, Nat.sub_diag, firstn_O, app_nil_r.
  apply firstn_all2. lia.
Qed.

Lemma payload_counts (h : hdr_histogram) : skipn 32 (payload h) = counts_bytes (counts h).
Proof.
  clear. unfold payload. rewrite !app_assoc.
  set (hd := (((_ ++ _) ++ _) ++ _) ++ be_split 8 (total_count h)).
  assert (Hl : length hd = 32%nat).
  { unfold hd. rewrite !length_app, !be_split_length. reflexivity. }
  rewrite skipn_app, Hl, Nat.sub_diag, skipn_O.
  rewrite skipn_all2 by lia. reflexivity.
Qed.

(** The fields of the header of the payload, as the decoder reads them. *)
Lemma payload_fields (h : hdr_histogram) :
  let fw := firstn 32 (payload h) in
  slice 0 4 fw = be_split 4 ENCODING_COOKIE
  /\ slice 4 4 fw = be_split 4 (significant_figures h)
  /\ slice 8 8 fw = be_split 8 (lowest_trackable_value h)
  /\ slice 16 8 fw = be_split 8 (highest_trackable_value h)
  /\ slice 24 8 fw = be_split 8 (total_count h).
Proof.
  clear. cbv zeta. rewrite payload_header.
  set (a := be_split 4 ENCODING_COOKIE). set (b := be_split 4 (significant_figures h)).
  set (c := be_split 8 (lowest_trackable_value h)).
  set (d := be_split 8 (highest_trackable_value h)).
  set (e := be_split 8 (total_count h)).
  assert (Ha : length a = 4%nat) by apply be_split_length.
  assert (Hb : length b = 4%nat) by apply be_split_length.
  assert (Hc : length c = 8%nat) by apply be_split_length.
  assert (Hd : length d = 8%nat) by apply be_split_length.
  assert (He : length e = 8%nat) by apply be_split_length.
  split; [|split; [|split; [|split]]].
  - apply (slice_at 0 4 [] a); [reflexivity|exact Ha].
  - apply (slice_at 4 4 a b); assumption.
  - rewrite (app_assoc a b). apply slice_at; [rewrite length_app; lia|exact Hc].
  - rewrite (app_assoc a b), (app_assoc (a ++ b) c).
    apply slice_at; [rewrite !length_app; lia|exact Hd].
  - rewrite (app_assoc a b), (app_assoc (a ++ b) c), (app_assoc ((a ++ b) ++ c) d).
    rewrite <- (app_nil_r e) at 1.
    apply slice_at; [rewrite !length_app; lia|exact He].
Qed.

(** The stream the decoder sets up on an envelope. *)
Lemma decode_stream_envelope (written rest : list byte) (st : istate) :
  Z.of_nat (length written) < 2 ^ 31 ->
  decode_stream
    (be_split 4 COMPRESSION_COOKIE ++ be_split 4 (Z.of_nat (length written))
     ++ written ++ rest) st
  = {| next_in := written ++ rest;
       avail_in := Z.of_nat (length written);
       next_out := 0;
       avail_out := sizeof_encoding_flyweight;
       total_out := 0;
       state := st |}.
Proof.
  intros Hw. unfold decode_stream.
  rewrite (slice_at 4 4) by apply be_split_length.
  rewrite be32toh_load by apply be_split_length.
  rewrite wrap32s_be_split by (unfold int32_range; lia).
  rewrite Z.mod_small
    by (change (2 ^ 31) with 2147483648 in Hw; change (2 ^ 32) with 4294967296; lia).
  reflexivity.
Qed.

(** On an envelope that holds a complete stream of the payload of [h],
    the header phase builds the histogram of the configuration of [h],
    with its total count, and leaves the bytes of the counts to the
    counts phase. *)
Lemma decode_header_envelope (zstream : list byte -> list byte -> Prop)
    (inflating : istate -> list byte -> Z -> list byte -> Prop)
    (h h0 : hdr_histogram) (written rest : list byte) (len : Z) :
  inflate_gives_back zstream inflating ->
  fst inflateInit = Z_OK ->
  histogram_in_range h ->
  counts h <> [] ->
  constructs h h0 ->
  zstream (payload h) written ->
  Z.of_nat (length written) < 2 ^ 31 ->
  sizeof_compression_flyweight <= len ->
  exists strm : z_stream istate,
    decode_header
      (be_split 4 COMPRESSION_COOKIE ++ be_split 4 (Z.of_nat (length written))
       ++ written ++ rest) len None
    = inr (set_total_count h0 (total_count h), strm)
    /\ inflating (state strm) (next_in strm) (avail_in strm) (counts_bytes (counts h)).
Proof.
  intros [Hstart Hcall] Hinit (Hsig & Hlow & Hhigh & Htotal & _) Hcounts
         (Hh0 & _) Hz Hw Hlen.
  set (buffer := be_split 4 COMPRESSION_COOKIE ++ _).
  pose proof (decode_stream_envelope written rest (snd inflateInit) Hw) as Hds.
  fold buffer in Hds.
  assert (Hinfl : inflating (state (decode_stream buffer (snd inflateInit)))
                    (next_in (decode_stream buffer (snd inflateInit)))
                    (avail_in (decode_stream buffer (snd inflateInit))) (payload h)).
  { rewrite Hds. cbn [state next_in avail_in]. now apply Hstart. }
  specialize (Hcall _ _ Hinfl ltac:(now rewrite Hds)). cbv zeta in Hcall.
  fold (inflate_header buffer) in Hcall.
  replace (avail_out (decode_stream buffer (snd inflateInit))) with 32 in Hcall
    by now rewrite Hds.
  change (Z.to_nat 32) with 32%nat in Hcall.
  rewrite payload_counts, payload_length in Hcall.
  destruct Hcall as (Hout & Hmore & _).
  destruct Hmore as [Hr Hnext]; [destruct (counts h); [congruence|cbn [length]; lia]|].
  assert (Hfw : encoding_flyweight buffer = firstn 32 (payload h)).
  { unfold encoding_flyweight. rewrite Hout.
    rewrite overlay_fits by (rewrite length_firstn, payload_length, uninit_length; lia).
    rewrite skipn_all2 by (rewrite length_firstn, payload_length, uninit_length; lia).
    apply app_nil_r. }
  destruct (payload_fields h) as (F0 & F4 & F8 & F16 & F24).
  exists (snd (inflate_header buffer)). split; [|exact Hnext].
  unfold decode_header.
  replace (len <? sizeof_compression_flyweight) with false
    by (symmetry; apply Z.ltb_ge; exact Hlen).
  cbn [is_null negb orb].
  replace (slice 0 4 buffer) with (be_split 4 COMPRESSION_COOKIE)
    by (symmetry; apply (slice_at 0 4 []); [reflexivity|apply be_split_length]).
  rewrite be32toh_load, be_combine_split by apply be_split_length.
  change (COMPRESSION_COOKIE =? COMPRESSION_COOKIE mod 2 ^ (Z.of_nat 4 * 8)) with true.
  rewrite Hinit. change (Z_OK =? Z_OK) with true. cbn [negb].
  destruct (inflate_header buffer) as [[r out] strm1] eqn:Hih.
  cbn [fst snd] in Hr. subst r. change (Z_OK =? Z_OK) with true. cbn [negb].
  rewrite Hfw, F0, F4, F8, F16, F24.
  rewrite !be32toh_load, !be64toh_load by apply be_split_length.
  rewrite be_combine_split.
  change (ENCODING_COOKIE =? ENCODING_COOKIE mod 2 ^ (Z.of_nat 4 * 8)) with true.
  cbn [negb].
  rewrite !wrap64s_be_split, wrap32s_be_split by assumption.
  rewrite Hh0. reflexivity.
Qed.

(** *** The round trip *)

(** X24.  The round trip when the encoder returns 0.  Let [deflate] and
    [inflate] behave as the codec expects of zlib ([deflate_takes_input],
    [deflate_ends_stream], [inflate_gives_back]), let [malloc] refuse sizes
    that no object has, [inflateInit] succeed, and [hdr_init] build for
    the configuration of [h] a histogram [h0] with as many counts as [h].
    When [hdr_encode_compressed] returns 0 for a histogram [h] whose
    fields have the values of their C types and that has at least one
    count, [hdr_decode_compressed], on the buffer and with the length that
    the encoder stored, returns 0 and a histogram with the significant
    figures, the lowest and highest trackable values, the total count and
    the counts of [h]. *)
Theorem encode_decode_round_trip (zstream : list byte -> list byte -> Prop)
    (inflating : istate -> list byte -> Z -> list byte -> Prop)
    (fuel : nat) (h h0 : hdr_histogram) (buf : list byte) (clen : Z) :
  deflate_takes_input ->
  deflate_ends_stream zstream ->
  inflate_gives_back zstream inflating ->
  malloc_bounded ->
  fst inflateInit = Z_OK ->
  histogram_in_range h ->
  counts h <> [] ->
  constructs h h0 ->
  hdr_encode_compressed fuel h = Some (0, Some (buf, clen)) ->
  exists n : nat,
    forall fuel' : nat,
      (n <= fuel')%nat ->
      exists h' : hdr_histogram,
        hdr_decode_compressed fuel' buf (clen mod 2 ^ 64) None = Some (0, Some h')
        /\ significant_figures h' = significant_figures h
        /\ lowest_trackable_value h' = lowest_trackable_value h
        /\ highest_trackable_value h' = highest_trackable_value h
        /\ total_count h' = total_count h
        /\ counts h' = counts h.
Proof.
  intros Htakes Hends Hgives Hmalloc Hinit Hrange Hcounts Hh0 Henc.
  destruct (hdr_encode_compressed_envelope zstream h fuel buf clen Htakes Hends Hmalloc Henc)
    as (written & rest & Hz & -> & Hw & Hlen).
  destruct (decode_header_envelope zstream inflating h h0 written rest (clen mod 2 ^ 64)
              Hgives Hinit Hrange Hcounts Hh0 Hz Hw Hlen) as (strm & Hhdr & Hinfl).
  destruct (inflate_values_counts zstream inflating (length (counts h)) Hgives
              (counts h) strm (uninit stack 32 4096) ltac:(lia) Hinfl
              ltac:(apply Hrange) (uninit_length _ _ _)) as [n Hvs].
  exists n. intros fuel' Hfuel.
  destruct (decode_counts_spec n strm (uninit stack 32 4096) (counts h) Hvs
              (uninit_length _ _ _) fuel' (set_total_count h0 (total_count h))
              [] (counts h0) 0 Hfuel eq_refl) as [tally Hdec].
  change (Z.of_nat (length (@nil Z))) with 0 in Hdec. rewrite app_nil_l in Hdec.
  unfold hdr_decode_compressed. rewrite Hhdr, Hdec. change (0 =? 0) with true. cbv iota.
  eexists. split; [reflexivity|].
  destruct Hh0 as (_ & Hl & Hhi & Hs & Hn).
  cbn [significant_figures lowest_trackable_value highest_trackable_value total_count
       counts set_counts set_total_count].
  repeat split; try assumption.
  unfold stored. rewrite Hn, firstn_all, <- Hn, skipn_all. apply app_nil_r.
Qed.

(** *** The log parser *)

Lemma read_line_split (limit : nat) :
  forall f l r, read_line limit f = (l, r) -> f = l ++ r.
Proof.
  induction limit as [|limit IH]; intros f l r H.
  - destruct f; inversion H; reflexivity.
  - destruct f as [|c f]; [inversion H; reflexivity|].
    cbn [read_line] in H. destruct (byte.unsigned c =? 10).
    + inversion H; reflexivity.
    + destruct (read_line limit f) as [l' r'] eqn:E. inversion H; subst.
      cbn [app]. f_equal. now apply IH.
Qed.

Lemma read_line_progress (limit : nat) (c : byte) (f l r : list byte) :
  read_line (S limit) (c :: f) = (l, r) -> l <> [].
Proof.
  cbn [read_line]. destruct (byte.unsigned c =? 10).
  - intros H; inversion H; discriminate.
  - destruct (read_line limit f). intros H; inversion H; discriminate.
Qed.

(** [getline] takes at least one character of the stream. *)
Lemma getline_shorter (f line rest : list byte) :
  getline f = Some (line, rest) -> (length rest < length f)%nat.
Proof.
  unfold getline. destruct f as [|c f]; [discriminate|].
  intros H.
  assert (H' : read_line (S (length f)) (c :: f) = (line, rest))
    by (apply (f_equal (default ([], []))) in H; exact H).
  pose proof (read_line_split _ _ _ _ H') as Hs.
  apply read_line_progress in H'.
  rewrite Hs, length_app. destruct line; [congruence|simpl; lia].
Qed.

(** The loop of [parse_lines] needs no more turns than the stream has
    characters: any larger number of turns gives the same result. *)
Lemma parse_lines_loop_fuel (zfuel fuel1 : nat) :
  forall (fuel2 : nat) (f : list byte) (printed : list hdr_histogram),
    (length f < fuel1)%nat -> (length f < fuel2)%nat ->
    parse_lines_loop fuel1 zfuel f printed = parse_lines_loop fuel2 zfuel f printed.
Proof.
  induction fuel1 as [|fuel1 IH]; intros fuel2 f printed H1 H2; [lia|].
  destruct fuel2 as [|fuel2]; [lia|].
  cbn [parse_lines_loop].
  destruct (getline f) as [[line rest]|] eqn:Hg; [|reflexivity].
  apply getline_shorter in Hg.
  destruct (negb (realloc_buffer 1 (wrap32s (Z.of_nat (length line))) =? 0));
    [reflexivity|].
  destruct (sscanf line "%d.%d,%d.%d,%d.%d,%s") as [num_tokens items].
  destruct (negb (num_tokens =? 7)); [reflexivity|].
  destruct (null_trailing_whitespace (default [] (str_item items 6))) as [token ?].
  destruct (base64_decode token _) as [base64_result compressed].
  destruct (negb (base64_result =? 0)); [reflexivity|].
  destruct (hdr_decode_compressed zfuel _ _ None) as [[r h]|]; [|reflexivity].
  apply IH; lia.
Qed.

(** A record line that does not give seven items ends the loop of
    [parse_lines] with EINVAL, at any point of the stream. *)
Lemma parse_lines_loop_malformed (fuel zfuel : nat) (f line rest : list byte)
    (printed : list hdr_histogram) :
  getline f = Some (line, rest) ->
  realloc_buffer 1 (wrap32s (Z.of_nat (length line))) = 0 ->
  fst (sscanf line "%d.%d,%d.%d,%d.%d,%s") <> 7 ->
  parse_lines_loop (S fuel) zfuel f printed = Some (EINVAL, printed).
Proof.
  intros Hg Hm Hs. cbn [parse_lines_loop]. rewrite Hg, Hm. cbn [Z.eqb negb].
  destruct (sscanf line "%d.%d,%d.%d,%d.%d,%s") as [num_tokens items].
  cbn [fst] in Hs. apply Z.eqb_neq in Hs. now rewrite Hs.
Qed.

(** [hdr_parse_log] returns 0 whatever [parse_lines] returned. *)
Lemma hdr_parse_log_returns_0 (zfuel : nat) (f : list byte) r :
  hdr_parse_log zfuel f = Some r -> fst r = 0.
Proof.
  unfold hdr_parse_log. destruct (parse_log_comments host f) as [header f1].
  destruct (parse_lines zfuel f1) as [[code printed]|]; [|discriminate].
  intros H; inversion H; reflexivity.
Qed.

(** C6.  When the first line after the header block does not give seven
    items, [parse_lines] stops there and returns EINVAL, and
    [hdr_parse_log], which called it, returns 0. *)
Theorem malformed_record_error_dropped (zfuel : nat) (f f1 line rest : list byte)
    (header : _log_header) :
  parse_log_comments host f = (header, f1) ->
  getline f1 = Some (line, rest) ->
  realloc_buffer 1 (wrap32s (Z.of_nat (length line))) = 0 ->
  fst (sscanf line "%d.%d,%d.%d,%d.%d,%s") <> 7 ->
  parse_lines zfuel f1 = Some (EINVAL, [])
  /\ hdr_parse_log zfuel f = Some (0, []).
Proof.
  intros Hc Hg Hm Hs.
  assert (Hp : parse_lines zfuel f1 = Some (EINVAL, []))
    by (unfold parse_lines; now apply (parse_lines_loop_malformed _ _ _ line rest)).
  split; [exact Hp|]. unfold hdr_parse_log. now rewrite Hc, Hp.
Qed.

(** C5.  A record line whose token passes [base64_decode] and whose
    bytes [hdr_decode_compressed] rejects with [r <> 0] is skipped: the
    parse goes on with the rest of the stream and [r] is dropped. *)
Theorem failed_decode_is_skipped (zfuel : nat) (f line rest : list byte)
    (items : list scanned) (compressed : list byte) (r : Z) (h : option hdr_histogram) :
  let read := wrap32s (Z.of_nat (length line)) in
  let token := fst (null_trailing_whitespace (default [] (str_item items 6))) in
  let compressed_len := wrap32s (base64_decoded_len (wrap32s (Z.of_nat (length token)))) in
  getline f = Some (line, rest) ->
  realloc_buffer 1 read = 0 ->
  sscanf line "%d.%d,%d.%d,%d.%d,%s" = (7, items) ->
  base64_decode token compressed_len = (0, compressed) ->
  hdr_decode_compressed zfuel
    (overlay compressed (repeat Byte.x00 (Z.to_nat read))) compressed_len None
  = Some (r, h) ->
  r <> 0 ->
  parse_lines zfuel f = parse_lines zfuel rest.
Proof.
  cbv zeta. intros Hg Hm Hs Hb Hd Hr. unfold parse_lines at 1. cbn [parse_lines_loop].
  rewrite Hg, Hm, Hs. cbn [Z.eqb negb].
  destruct (null_trailing_whitespace (default [] (str_item items 6))) as [token n].
  cbn [fst] in Hb, Hd. rewrite Hb. cbn [Z.eqb negb]. rewrite Hd.
  apply Z.eqb_neq in Hr. rewrite Hr.
  apply getline_shorter in Hg. apply parse_lines_loop_fuel; lia.
Qed.

(** *** The results of the decoder *)

Lemma decode_counts_results (fuel : nat) :
  forall (strm : z_stream istate) (counts_array : list byte) (h : hdr_histogram)
         (counts_index tally r : Z) (h' : hdr_histogram) (tally' : Z),
    decode_counts fuel strm counts_array h counts_index tally = Some (r, h', tally') ->
    r = 0 \/ r = HDR_INFLATE_FAIL.
Proof.
  induction fuel as [|fuel IH]; intros strm counts_array h counts_index tally r h' tally' H;
    [discriminate|].
  cbn [decode_counts] in H.
  destruct (zlib_call inflate (set_out strm 0 (counts_per_chunk * 8)) Z_SYNC_FLUSH)
    as [[r0 out] strm'].
  destruct (negb (Z_STREAM_END =? r0) && negb (Z_OK =? r0)).
  - right. congruence.
  - destruct (store_counts _ _ _ _ _ _) as [[[cs i] t]|]; [|discriminate].
    destruct (r0 =? Z_OK).
    + now apply IH in H.
    + left. congruence.
Qed.

Lemma decode_header_results (buffer : list byte) (len : Z) (histogram : option hdr_histogram)
    (e : Z) :
  decode_header buffer len histogram = inl e ->
  In e [EINVAL; HDR_COMPRESSION_COOKIE_MISMATCH; HDR_INFLATE_FAIL;
        HDR_ENCODING_COOKIE_MISMATCH; ENOMEM].
Proof.
  unfold decode_header. cbn [In].
  destruct ((len <? sizeof_compression_flyweight) || negb (is_null histogram));
    [intros H; left; congruence|].
  destruct (negb (COMPRESSION_COOKIE =? _)); [intros H; right; left; congruence|].
  destruct (negb (fst inflateInit =? Z_OK)); [intros H; right; right; left; congruence|].
  destruct (inflate_header buffer) as [[r out] strm].
  destruct (negb (r =? Z_OK)); [intros H; right; right; left; congruence|].
  destruct (negb (ENCODING_COOKIE =? _)); [intros H; do 3 right; left; congruence|].
  destruct (hdr_init _ _ _); [discriminate|].
  intros H; do 4 right; left; congruence.
Qed.

(** An exit taken before [hdr_init] has assigned [h]: [cleanup] frees
    the indeterminate [h], and the function has no result. *)
Lemma decode_exit_before_hdr_init (fuel : nat) (buffer : list byte) (len : Z)
    (histogram : option hdr_histogram) (e : Z) :
  decode_header buffer len histogram = inl e ->
  hdr_decode_compressed fuel buffer len histogram = None.
Proof.
  intros Hh. pose proof (decode_header_results _ _ _ _ Hh) as He.
  unfold hdr_decode_compressed, cleanup. rewrite Hh.
  cbn [In] in He.
  destruct He as [<-|[<-|[<-|[<-|[<-|[]]]]]]; reflexivity.
Qed.

(** X12.  What [hdr_decode_compressed] returns and stores, when it
    returns.  It returns 0, with [*histogram] NULL before and a histogram
    stored there; or it returns HDR_INFLATE_FAIL for a failure of [inflate]
    in the counts loop, and [*histogram] stays NULL.  An exit on which
    [result] is set before [hdr_init] has assigned [h] is not among them:
    [cleanup] frees the indeterminate [h] there, and the function has no
    result. *)
Theorem decode_results (fuel : nat) (buffer : list byte) (len : Z)
    (histogram : option hdr_histogram) :
  (forall (out : option hdr_histogram) (r : Z),
      hdr_decode_compressed fuel buffer len histogram = Some (r, out) ->
      histogram = None
      /\ ((r = 0 /\ exists h, out = Some h) \/ (r = HDR_INFLATE_FAIL /\ out = None)))
  /\ (forall e : Z,
        decode_header buffer len histogram = inl e ->
        hdr_decode_compressed fuel buffer len histogram = None).
Proof.
  split; [|intros e; apply decode_exit_before_hdr_init].
  intros out r H.
  destruct (decode_header buffer len histogram) as [e|[h strm]] eqn:Hh.
  - rewrite (decode_exit_before_hdr_init fuel _ _ _ _ Hh) in H. discriminate.
  - unfold hdr_decode_compressed in H. rewrite Hh in H.
    destruct (decode_counts fuel strm (uninit stack 32 4096) h 0 0) as [[[r0 h'] t]|] eqn:Hc;
      [|discriminate].
    apply decode_counts_results in Hc. apply decode_header_inr in Hh.
    destruct Hh as (Hnone & _). subst histogram. unfold cleanup in H.
    destruct Hc as [-> | ->].
    + cbn [Z.eqb] in H. split; [reflexivity|]. left.
      split; [congruence|]. exists h'. congruence.
    + change (HDR_INFLATE_FAIL =? 0) with false in H. cbv iota in H.
      split; [reflexivity|]. right. split; congruence.
Qed.

(** X13.  A length below the size of the envelope header, or a
    [*histogram] that is not NULL: the function sets [result] to EINVAL
    and goes to [cleanup], where it frees [h], which nothing has assigned;
    it has no result, whatever [fuel] is. *)
Theorem decode_rejects_arguments (fuel : nat) (buffer : list byte) (len : Z)
    (histogram : option hdr_histogram) :
  len < sizeof_compression_flyweight \/ histogram <> None ->
  decode_header buffer len histogram = inl EINVAL
  /\ hdr_decode_compressed fuel buffer len histogram = None.
Proof.
  intros H.
  assert (Hh : decode_header buffer len histogram = inl EINVAL).
  { unfold decode_header.
    replace ((len <? sizeof_compression_flyweight) || negb (is_null histogram)) with true;
      [reflexivity|].
    symmetry. apply orb_true_iff. destruct H as [H|H].
    - left. now apply Z.ltb_lt.
    - right. destruct histogram; [reflexivity|congruence]. }
  split; [exact Hh|]. now apply (decode_exit_before_hdr_init fuel) in Hh.
Qed.

(** X14.  When [inflateInit] fails, [result] is set to HDR_INFLATE_FAIL,
    the number of a failed [inflate] (HDR_INFLATE_INIT_FAIL is not used),
    and [cleanup] frees [h], which nothing has assigned: the function has
    no result. *)
Theorem decode_inflate_init_failure (fuel : nat) (buffer : list byte) (len : Z) :
  sizeof_compression_flyweight <= len <= Z.of_nat (length buffer) ->
  be_combine (slice 0 4 buffer) = COMPRESSION_COOKIE ->
  fst inflateInit <> Z_OK ->
  decode_header buffer len None = inl HDR_INFLATE_FAIL
  /\ hdr_decode_compressed fuel buffer len None = None.
Proof.
  unfold sizeof_compression_flyweight. intros Hlen Hc Hinit.
  assert (Hh : decode_header buffer len None = inl HDR_INFLATE_FAIL).
  { unfold decode_header, sizeof_compression_flyweight.
    replace (len <? 8) with false by (symmetry; apply Z.ltb_ge; lia).
    cbn [is_null negb orb].
    rewrite be32toh_load by (apply slice_length; lia).
    rewrite Hc, Z.eqb_refl. cbn [negb].
    apply Z.eqb_neq in Hinit. rewrite Hinit. reflexivity. }
  split; [exact Hh|]. now apply (decode_exit_before_hdr_init fuel) in Hh.
Qed.

(** X15.  Past the check against the size of the envelope header, the decoder
    does not look at its [length] argument: the number of bytes it gives
    to [inflate] is the length field of the envelope. *)
Theorem decode_ignores_length (fuel : nat) (buffer : list byte) (len len' : Z)
    (histogram : option hdr_histogram) :
  sizeof_compression_flyweight <= len ->
  sizeof_compression_flyweight <= len' ->
  hdr_decode_compressed fuel buffer len histogram
  = hdr_decode_compressed fuel buffer len' histogram.
Proof.
  intros H H'. unfold hdr_decode_compressed, decode_header.
  replace (len <? sizeof_compression_flyweight) with false by (symmetry; apply Z.ltb_ge; lia).
  replace (len' <? sizeof_compression_flyweight) with false by (symmetry; apply Z.ltb_ge; lia).
  reflexivity.
Qed.

(** *** The results of the encoder *)

Lemma grow_buffer_results (fuel : nat) :
  forall (strm : z_stream dstate) (buf : list byte) (len r : Z)
         (strm' : z_stream dstate) (buf' : list byte) (len' : Z),
    grow_buffer fuel strm buf len = Some (r, strm', buf', len') ->
    r = 0 \/ r = ENOMEM \/ r = HDR_DEFLATE_FAIL.
Proof.
  induction fuel as [|fuel IH]; intros strm buf len r strm' buf' len' H; [discriminate|].
  cbn [grow_buffer] in H. destruct (avail_out strm =? 0).
  - destruct (negb (malloc_ok _)); [right; left; congruence|].
    destruct (deflate_into _ _ Z_SYNC_FLUSH) as [[r0 strm0] buf0].
    destruct (negb (r0 =? Z_OK)); [right; right; congruence|].
    now apply IH in H.
  - left. congruence.
Qed.

Lemma encode_counts_results (gfuel fuel : nat) (h : hdr_histogram) :
  forall (strm : z_stream dstate) (buf : list byte) (len : Z) (chunk : list byte)
         (counts_index r : Z) (strm' : z_stream dstate) (buf' : list byte) (len' : Z),
    encode_counts fuel gfuel h strm buf len chunk counts_index = Some (r, strm', buf', len') ->
    r = 0 \/ r = ENOMEM \/ r = HDR_DEFLATE_FAIL.
Proof.
  induction fuel as [|fuel IH];
    intros strm buf len chunk counts_index r strm' buf' len' H; [discriminate|].
  cbn [encode_counts] in H.
  destruct (grow_buffer gfuel strm buf len) as [[[[r0 strm0] buf0] len0]|] eqn:Hg;
    [|discriminate].
  apply grow_buffer_results in Hg.
  destruct (negb (r0 =? 0)).
  - replace r with r0 by congruence. exact Hg.
  - destruct (fill_chunk _ _ _) as [filled counts_index'].
    destruct (deflate_into _ _ _) as [[r1 strm1] buf1].
    destruct (negb (r1 =? Z_OK) && negb (r1 =? Z_STREAM_END)); [right; right; congruence|].
    destruct (negb (r1 =? Z_STREAM_END)).
    + now apply IH in H.
    + left. congruence.
Qed.

(** X17.  What [hdr_encode_compressed] returns and stores.  The buffer and the
    length are stored when it returns 0, and only then; every other result
    is ENOMEM, HDR_DEFLATE_INIT_FAIL or HDR_DEFLATE_FAIL. *)
Theorem encode_results (fuel : nat) (h : hdr_histogram) (r : Z)
    (out : option (list byte * Z)) :
  hdr_encode_compressed fuel h = Some (r, out) ->
  (r = 0 /\ exists buf clen, out = Some (buf, clen))
  \/ (In r [ENOMEM; HDR_DEFLATE_INIT_FAIL; HDR_DEFLATE_FAIL] /\ out = None).
Proof.
  unfold hdr_encode_compressed, encode_stream. cbn [In].
  destruct (negb (malloc_ok 4096)).
  { intros H. right. split; [left|]; congruence. }
  destruct (deflateInit 4) as [init st].
  destruct (negb (init =? Z_OK)).
  { intros H. right. split; [right; left|]; congruence. }
  destruct (deflate_into _ _ Z_NO_FLUSH) as [[r0 strm0] buf0].
  destruct (negb (r0 =? Z_OK)).
  { intros H. right. split; [right; right; left|]; congruence. }
  destruct (encode_counts _ _ _ _ _ _ _ _) as [[[[r1 strm1] buf1] len1]|] eqn:He;
    [|discriminate].
  apply encode_counts_results in He.
  destruct (Z.eqb_spec r1 0) as [->|Hr1].
  - intros H. injection H as <- <-. left. split; [reflexivity|].
    eexists _, _. reflexivity.
  - intros H. right. replace r with r1 by congruence. split; [|congruence].
    destruct He as [He|[He|He]];
      [contradiction|left; now symmetry|right; right; left; now symmetry].
Qed.

(** X18.  The envelope that [hdr_encode_compressed] hands out when zlib behaves
    as the codec expects: on either host the first four bytes are the
    compression cookie, big-endian; the next four are the number of bytes
    that [deflate] wrote, big-endian; and these bytes, a complete stream of
    the payload, follow. *)
Theorem encode_envelope_layout (zstream : list byte -> list byte -> Prop)
    (h : hdr_histogram) (fuel : nat) (buf : list byte) (clen : Z) :
  deflate_takes_input ->
  deflate_ends_stream zstream ->
  malloc_bounded ->
  hdr_encode_compressed fuel h = Some (0, Some (buf, clen)) ->
  exists written : list byte,
    zstream (payload h) written
    /\ slice 0 4 buf = be_split 4 COMPRESSION_COOKIE
    /\ be_combine (slice 4 4 buf) = Z.of_nat (length written)
    /\ slice 8 (length written) buf = written.
Proof.
  intros Htakes Hends Hmalloc Henc.
  destruct (hdr_encode_compressed_envelope zstream h fuel buf clen Htakes Hends Hmalloc Henc)
    as (written & rest & Hz & -> & Hw & _).
  exists written. split; [exact Hz|]. split; [|split].
  - apply (slice_at 0 4 []); [reflexivity|apply be_split_length].
  - rewrite (slice_at 4 4) by apply be_split_length.
    rewrite be_combine_split. apply Z.mod_small.
    change (2 ^ (Z.of_nat 4 * 8)) with 4294967296.
    change (2 ^ 31) with 2147483648 in Hw. lia.
  - rewrite (app_assoc (be_split 4 COMPRESSION_COOKIE)).
    apply slice_at; [|reflexivity].
    rewrite length_app, !be_split_length. reflexivity.
Qed.

(** *** The results of the log parser *)

Lemma base64_decode_zero_or_einval (input : list byte) (output_len : Z) :
  fst (base64_decode input output_len) = 0 \/ fst (base64_decode input output_len) = EINVAL.
Proof. clear. unfold base64_decode. destruct (_ || _); [right|left]; reflexivity. Qed.

Lemma parse_lines_loop_results (zfuel fuel : nat) :
  forall (f : list byte) (printed out : list hdr_histogram) (r : Z),
    parse_lines_loop fuel zfuel f printed = Some (r, out) ->
    r = 0 \/ r = ENOMEM \/ r = EINVAL.
Proof.
  induction fuel as [|fuel IH]; intros f printed out r H; [discriminate|].
  cbn [parse_lines_loop] in H.
  destruct (getline f) as [[line rest]|]; [|left; congruence].
  destruct (negb (realloc_buffer 1 (wrap32s (Z.of_nat (length line))) =? 0));
    [right; left; congruence|].
  destruct (sscanf line "%d.%d,%d.%d,%d.%d,%s") as [num_tokens items].
  destruct (negb (num_tokens =? 7)); [right; right; congruence|].
  destruct (null_trailing_whitespace (default [] (str_item items 6))) as [token ?].
  pose proof (base64_decode_zero_or_einval token
                (wrap32s (base64_decoded_len (wrap32s (Z.of_nat (length token)))))) as Hb.
  destruct (base64_decode token _) as [base64_result compressed].
  cbn [fst] in Hb.
  destruct (Z.eqb_spec base64_result 0) as [->|Hn]; cbn [negb] in H.
  - destruct (hdr_decode_compressed zfuel _ _ None) as [[r0 h]|]; [|discriminate].
    now apply IH in H.
  - right. right. destruct Hb as [Hb|Hb]; [contradiction|]. congruence.
Qed.

(** X21.  [parse_lines] returns 0, ENOMEM or EINVAL: a result of
    [hdr_decode_compressed] is never its result. *)
Theorem parse_lines_results (zfuel : nat) (f : list byte) (r : Z)
    (printed : list hdr_histogram) :
  parse_lines zfuel f = Some (r, printed) ->
  r = 0 \/ r = ENOMEM \/ r = EINVAL.
Proof. unfold parse_lines. apply parse_lines_loop_results. Qed.

(** The histograms printed so far stay at the head of the list. *)
Lemma parse_lines_loop_printed (zfuel fuel : nat) :
  forall (f : list byte) (printed : list hdr_histogram),
    parse_lines_loop fuel zfuel f printed
    = match parse_lines_loop fuel zfuel f [] with
      | Some (r, more) => Some (r, printed ++ more)
      | None => None
      end.
Proof.
  induction fuel as [|fuel IH]; intros f printed; [reflexivity|].
  cbn [parse_lines_loop].
  destruct (getline f) as [[line rest]|]; [|now rewrite app_nil_r].
  destruct (negb (realloc_buffer 1 (wrap32s (Z.of_nat (length line))) =? 0));
    [now rewrite app_nil_r|].
  destruct (sscanf line "%d.%d,%d.%d,%d.%d,%s") as [num_tokens items].
  destruct (negb (num_tokens =? 7)); [now rewrite app_nil_r|].
  destruct (null_trailing_whitespace (default [] (str_item items 6))) as [token ?].
  destruct (base64_decode token _) as [base64_result compressed].
  destruct (negb (base64_result =? 0)); [now rewrite app_nil_r|].
  destruct (hdr_decode_compressed zfuel _ _ None) as [[r0 h]|]; [|reflexivity].
  rewrite IH. rewrite (IH rest (if r0 =? 0 then [] ++ option_list h else [])).
  destruct (parse_lines_loop fuel zfuel rest []) as [[r more]|]; [|reflexivity].
  destruct (r0 =? 0); [|reflexivity]. now rewrite app_assoc.
Qed.

(** X22.  A record line whose token passes [base64_decode] and whose bytes
    [hdr_decode_compressed] decodes: the histogram is printed, and the
    parse goes on with the rest of the stream. *)
Theorem decoded_record_is_printed (zfuel : nat) (f line rest : list byte)
    (items : list scanned) (compressed : list byte) (h : hdr_histogram) :
  let read := wrap32s (Z.of_nat (length line)) in
  let token := fst (null_trailing_whitespace (default [] (str_item items 6))) in
  let compressed_len := wrap32s (base64_decoded_len (wrap32s (Z.of_nat (length token)))) in
  getline f = Some (line, rest) ->
  realloc_buffer 1 read = 0 ->
  sscanf line "%d.%d,%d.%d,%d.%d,%s" = (7, items) ->
  base64_decode token compressed_len = (0, compressed) ->
  hdr_decode_compressed zfuel
    (overlay compressed (repeat Byte.x00 (Z.to_nat read))) compressed_len None
  = Some (0, Some h) ->
  parse_lines zfuel f
  = match parse_lines zfuel rest with
    | Some (r, printed) => Some (r, h :: printed)
    | None => None
    end.
Proof.
  cbv zeta. intros Hg Hm Hs Hb Hd. unfold parse_lines at 1. cbn [parse_lines_loop].
  rewrite Hg, Hm, Hs. cbn [Z.eqb negb].
  destruct (null_trailing_whitespace (default [] (str_item items 6))) as [token n].
  cbn [fst] in Hb, Hd. rewrite Hb. cbn [Z.eqb negb]. rewrite Hd.
  cbn [Z.eqb app option_list]. rewrite parse_lines_loop_printed.
  apply getline_shorter in Hg. unfold parse_lines.
  rewrite (parse_lines_loop_fuel zfuel (length f) (S (length rest))) by lia.
  reflexivity.
Qed.

(** X23.  A record line whose token has fewer than four characters, or a number
    of characters that is not a multiple of four, ends the parse with
    EINVAL. *)
Theorem record_with_bad_token_length (zfuel : nat) (f line rest : list byte)
    (items : list scanned) :
  let token := fst (null_trailing_whitespace (default [] (str_item items 6))) in
  getline f = Some (line, rest) ->
  realloc_buffer 1 (wrap32s (Z.of_nat (length line))) = 0 ->
  sscanf line "%d.%d,%d.%d,%d.%d,%s" = (7, items) ->
  (length token < 4)%nat \/ (length token mod 4 <> 0)%nat ->
  parse_lines zfuel f = Some (EINVAL, []).
Proof.
  cbv zeta. intros Hg Hm Hs Ht. unfold parse_lines. cbn [parse_lines_loop].
  rewrite Hg, Hm, Hs. cbn [Z.eqb negb].
  destruct (null_trailing_whitespace (default [] (str_item items 6))) as [token n].
  cbn [fst] in Ht.
  assert (Hb : forall output_len, base64_decode token output_len = (EINVAL, [])).
  { clear - Ht. intros output_len. unfold base64_decode.
    replace ((Z.of_nat (length token) <? 4)
             || negb (Z.land (Z.of_nat (length token)) 3 =? 0)) with true; [reflexivity|].
    symmetry. apply orb_true_iff. destruct Ht as [Ht|Ht].
    - left. apply Z.ltb_lt. lia.
    - right. apply negb_true_iff, Z.eqb_neq.
      change 3 with (Z.ones 2). rewrite Z.land_ones by lia. change (2 ^ 2) with 4.
      intros Hz. apply Ht. apply Nat2Z.inj.
      rewrite Nat2Z.inj_mod. exact Hz. }
  rewrite Hb. reflexivity.
Qed.

(** *** More turns for the loops of the encoder *)

Lemma grow_buffer_more_fuel (fuel : nat) :
  forall (fuel' : nat) (strm : z_stream dstate) (buf : list byte) (len : Z)
         (r : Z * z_stream dstate * list byte * Z),
    grow_buffer fuel strm buf len = Some r ->
    (fuel <= fuel')%nat ->
    grow_buffer fuel' strm buf len = Some r.
Proof.
  induction fuel as [|fuel IH]; intros fuel' strm buf len r H Hle; [discriminate|].
  destruct fuel' as [|fuel']; [lia|].
  cbn [grow_buffer] in H |- *. destruct (avail_out strm =? 0); [|exact H].
  destruct (negb (malloc_ok _)); [exact H|].
  destruct (deflate_into _ _ Z_SYNC_FLUSH) as [[r0 strm0] buf0].
  destruct (negb (r0 =? Z_OK)); [exact H|].
  apply IH; [exact H|lia].
Qed.

Lemma encode_counts_more_fuel (h : hdr_histogram) (fuel : nat) :
  forall (fuel' gfuel gfuel' : nat) (strm : z_stream dstate) (buf : list byte) (len : Z)
         (chunk : list byte) (counts_index : Z) (r : Z * z_stream dstate * list byte * Z),
    encode_counts fuel gfuel h strm buf len chunk counts_index = Some r ->
    (fuel <= fuel')%nat -> (gfuel <= gfuel')%nat ->
    encode_counts fuel' gfuel' h strm buf len chunk counts_index = Some r.
Proof.
  induction fuel as [|fuel IH];
    intros fuel' gfuel gfuel' strm buf len chunk counts_index r H Hle Hgle; [discriminate|].
  destruct fuel' as [|fuel']; [lia|].
  cbn [encode_counts] in H |- *.
  destruct (grow_buffer gfuel strm buf len) as [[[[r0 strm0] buf0] len0]|] eqn:Hg;
    [|discriminate].
  rewrite (grow_buffer_more_fuel gfuel gfuel' _ _ _ _ Hg Hgle).
  destruct (negb (r0 =? 0)); [exact H|].
  destruct (fill_chunk _ _ _) as [filled counts_index'].
  destruct (deflate_into _ _ _) as [[r1 strm1] buf1].
  destruct (negb (r1 =? Z_OK) && negb (r1 =? Z_STREAM_END)); [exact H|].
  destruct (negb (r1 =? Z_STREAM_END)); [|exact H].
  apply (IH fuel' gfuel gfuel'); [exact H|lia|exact Hgle].
Qed.

(** What [hdr_encode_compressed] returns within some number of turns of
    its loops, it returns within any larger number. *)
Lemma hdr_encode_compressed_more_fuel (fuel fuel' : nat) (h : hdr_histogram)
    (r : Z * option (list byte * Z)) :
  hdr_encode_compressed fuel h = Some r ->
  (fuel <= fuel')%nat ->
  hdr_encode_compressed fuel' h = Some r.
Proof.
  unfold hdr_encode_compressed, encode_stream. intros H Hle.
  destruct (negb (malloc_ok 4096)); [exact H|].
  destruct (deflateInit 4) as [init st].
  destruct (negb (init =? Z_OK)); [exact H|].
  destruct (deflate_into _ _ Z_NO_FLUSH) as [[r0 strm0] buf0].
  destruct (negb (r0 =? Z_OK)); [exact H|].
  destruct (encode_counts fuel fuel h strm0 buf0 4096 (uninit stack 0 4096) 0)
    as [[[[r1 strm1] buf1] len1]|] eqn:He; [|discriminate].
  now rewrite (encode_counts_more_fuel h fuel fuel' fuel fuel' _ _ _ _ _ _ He Hle Hle).
Qed.

End Codec.

(** ** Base64 *)

(** Every symbol of the table decodes to its index. *)
Lemma from_base_64_table (v : Z) :
  0 <= v < 64 ->
  from_base_64 (byte.unsigned (nth (Z.to_nat v) base64_table Byte.x00)) = v.
Proof.
  intros Hv.
  assert (Hall : forallb (fun n => from_base_64 (byte.unsigned (nth n base64_table Byte.x00))
                                   =? Z.of_nat n) (seq 0 64) = true)
    by (vm_compute; reflexivity).
  rewrite forallb_forall in Hall.
  specialize (Hall (Z.to_nat v)). rewrite in_seq in Hall.
  specialize (Hall ltac:(lia)). apply Z.eqb_eq in Hall. lia.
Qed.

Lemma land_63_range (x : Z) : 0 <= Z.land 63 x < 64.
Proof.
  rewrite Z.land_comm. change 63 with (Z.ones 6).
  rewrite Z.land_ones by lia. apply Z.mod_pos_bound. lia.
Qed.

Lemma from_get_base_64 (v shift : Z) :
  from_base_64 (byte.unsigned (get_base_64 v shift)) = Z.land 63 (Z.shiftr v shift).
Proof. unfold get_base_64. apply from_base_64_table, land_63_range. Qed.

(** Four sextets put back together. *)
Lemma sextets_join (v : Z) :
  0 <= v < 2 ^ 24 ->
  Z.lor (Z.lor (Z.lor (Z.shiftl (Z.land 63 (Z.shiftr v 18)) 18)
                      (Z.shiftl (Z.land 63 (Z.shiftr v 12)) 12))
               (Z.shiftl (Z.land 63 (Z.shiftr v 6)) 6))
        (Z.land 63 (Z.shiftr v 0)) = v.
Proof.
  intros Hv. rewrite <- (Z.mod_small v (2 ^ 24)) at 5 by lia.
  rewrite <- Z.land_ones by lia. change 63 with (Z.ones 6).
  Z.bitblast.
Qed.

(** A block of four characters whose values are the sextets of [v]
    decodes to the three bytes of [v]. *)
Lemma base64_decode_block_sextets (c0 c1 c2 c3 : byte) (v : Z) :
  0 <= v < 2 ^ 24 ->
  from_base_64 (byte.unsigned c0) = Z.land 63 (Z.shiftr v 18) ->
  from_base_64 (byte.unsigned c1) = Z.land 63 (Z.shiftr v 12) ->
  from_base_64 (byte.unsigned c2) = Z.land 63 (Z.shiftr v 6) ->
  from_base_64 (byte.unsigned c3) = Z.land 63 (Z.shiftr v 0) ->
  base64_decode_block [c0; c1; c2; c3]
  = [byte.of_Z (Z.land (Z.shiftr v 16) 255);
     byte.of_Z (Z.land (Z.shiftr v 8) 255);
     byte.of_Z (Z.land v 255)].
Proof.
  intros Hv H0 H1 H2 H3. unfold base64_decode_block, at_. cbn [nth].
  now rewrite H0, H1, H2, H3, sextets_join.
Qed.

(** The three bytes of a 24-bit value built from three bytes. *)
Lemma bytes_of_24 (b0 b1 b2 : Z) :
  0 <= b0 < 256 -> 0 <= b1 < 256 -> 0 <= b2 < 256 ->
  let v := Z.shiftl b0 16 + Z.shiftl b1 8 + b2 in
  0 <= v < 2 ^ 24
  /\ Z.land (Z.shiftr v 16) 255 = b0
  /\ Z.land (Z.shiftr v 8) 255 = b1
  /\ Z.land v 255 = b2.
Proof.
  intros H0 H1 H2 v. subst v.
  change 255 with (Z.ones 8). rewrite !Z.land_ones, !Z.shiftr_div_pow2, !Z.shiftl_mul_pow2 by lia.
  change (2 ^ 24) with 16777216. change (2 ^ 16) with 65536. change (2 ^ 8) with 256.
  repeat split; try lia; Z.div_mod_to_equations; lia.
Qed.

Lemma at_range (input : list byte) (i : nat) : 0 <= at_ input i < 256.
Proof. unfold at_. apply byte.unsigned_range. Qed.

Lemma land_63_of_multiple (v k : Z) : v mod 2 ^ (k + 6) = 0 -> 0 <= k ->
  Z.land 63 (Z.shiftr v k) = 0.
Proof.
  intros Hm Hk. rewrite Z.land_comm. change 63 with (Z.ones 6).
  rewrite Z.land_ones, Z.shiftr_div_pow2 by lia.
  rewrite Z.pow_add_r in Hm by lia.
  pose proof (Z.pow_pos_nonneg 2 k ltac:(lia) Hk) as Hp.
  apply Z.mod_divide in Hm; [|lia]. destruct Hm as [q Hq]. subst v.
  replace (q * (2 ^ k * 2 ^ 6)) with (q * 2 ^ 6 * 2 ^ k) by ring.
  rewrite Z.div_mul by lia. apply Z.mod_mul. lia.
Qed.

(** A full block, and the two padded blocks, decode to the bytes encoded,
    with zeros for the missing ones. *)
Lemma base64_block_round_trip (b0 b1 b2 : byte) :
  base64_decode_block (base64_encode_block [b0; b1; b2]) = [b0; b1; b2].
Proof.
  unfold base64_encode_block.
  destruct (bytes_of_24 (at_ [b0; b1; b2] 0) (at_ [b0; b1; b2] 1) (at_ [b0; b1; b2] 2)
              (at_range _ _) (at_range _ _) (at_range _ _)) as (Hv & E0 & E1 & E2).
  rewrite (base64_decode_block_sextets _ _ _ _ _ Hv) by apply from_get_base_64.
  rewrite E0, E1, E2. unfold at_. cbn [nth]. now rewrite !byte.of_Z_unsigned.
Qed.

Lemma base64_pad2_round_trip (b0 b1 : byte) :
  base64_decode_block (base64_encode_block_pad [b0; b1] 2) = [b0; b1; Byte.x00].
Proof.
  unfold base64_encode_block_pad. cbn [Z.eqb Pos.eqb].
  destruct (bytes_of_24 (at_ [b0; b1] 0) (at_ [b0; b1] 1) 0
              (at_range _ _) (at_range _ _) ltac:(lia)) as (Hv & E0 & E1 & E2).
  rewrite Z.add_0_r in Hv, E0, E1, E2.
  rewrite (base64_decode_block_sextets _ _ _ _ _ Hv); try apply from_get_base_64.
  - rewrite E0, E1, E2. unfold at_. cbn [nth]. now rewrite !byte.of_Z_unsigned.
  - symmetry. apply land_63_of_multiple; [|lia].
    rewrite !Z.shiftl_mul_pow2 by lia. cbn.
    pose proof (at_range [b0; b1] 0). pose proof (at_range [b0; b1] 1).
    Z.div_mod_to_equations. lia.
Qed.

Lemma base64_pad1_round_trip (b0 : byte) :
  base64_decode_block (base64_encode_block_pad [b0] 1) = [b0; Byte.x00; Byte.x00].
Proof.
  unfold base64_encode_block_pad. cbn [Z.eqb Pos.eqb].
  destruct (bytes_of_24 (at_ [b0] 0) 0 0
              (at_range _ _) ltac:(lia) ltac:(lia)) as (Hv & E0 & E1 & E2).
  change (Z.shiftl 0 8) with 0 in *. rewrite !Z.add_0_r in Hv, E0, E1, E2.
  rewrite (base64_decode_block_sextets _ _ _ _ _ Hv); try apply from_get_base_64.
  - rewrite E0, E1, E2. unfold at_. cbn [nth]. now rewrite !byte.of_Z_unsigned.
  - symmetry. apply land_63_of_multiple; [|lia].
    rewrite !Z.shiftl_mul_pow2 by lia. cbn.
    pose proof (at_range [b0] 0). Z.div_mod_to_equations. lia.
  - symmetry. apply land_63_of_multiple; [|lia].
    rewrite !Z.shiftl_mul_pow2 by lia. cbn.
    pose proof (at_range [b0] 0). Z.div_mod_to_equations. lia.
Qed.

(** Induction on a list three elements at a time. *)
Lemma list_ind3 {A : Type} (P : list A -> Prop) :
  P [] -> (forall a, P [a]) -> (forall a b, P [a; b]) ->
  (forall a b c l, P l -> P (a :: b :: c :: l)) ->
  forall l, P l.
Proof.
  intros H0 H1 H2 H3 l.
  enough (H : P l /\ (forall a, P (a :: l)) /\ (forall a b, P (a :: b :: l))) by apply H.
  induction l as [|x l (IH0 & IH1 & IH2)]; [now auto|].
  repeat split; auto.
Qed.

Lemma base64_encoded_len_nonneg (n : Z) : 0 <= n -> 0 <= base64_encoded_len n.
Proof. intros H. unfold base64_encoded_len. Z.div_mod_to_equations. lia. Qed.

Lemma base64_encoded_len_step (n : Z) :
  0 <= n -> base64_encoded_len (n + 3) = base64_encoded_len n + 4.
Proof.
  intros H. unfold base64_encoded_len.
  replace (n + 3 + 2) with (n + 2 + 1 * 3) by lia.
  rewrite Z.div_add by lia. lia.
Qed.

Lemma missing_step (a b c : byte) (l : list byte) : missing (a :: b :: c :: l) = missing l.
Proof.
  unfold missing. cbn [length].
  replace (S (S (S (length l)))) with (length l + 1 * 3)%nat by lia.
  now rewrite Nat.Div0.mod_add.
Qed.

Lemma base64_loop_step (a b c : byte) (l : list byte) (j : Z) :
  0 <= j ->
  base64_encode_loop (a :: b :: c :: l)
    j (j + base64_encoded_len (Z.of_nat (length (a :: b :: c :: l))))
  = base64_encode_block [a; b; c]
    ++ base64_encode_loop l (j + 4) (j + 4 + base64_encoded_len (Z.of_nat (length l))).
Proof.
  intros Hj. cbn [base64_encode_loop length].
  replace (Z.of_nat (S (S (S (length l))))) with (Z.of_nat (length l) + 3) by lia.
  rewrite base64_encoded_len_step by lia.
  pose proof (base64_encoded_len_nonneg (Z.of_nat (length l)) ltac:(lia)).
  replace (j <? j + (base64_encoded_len (Z.of_nat (length l)) + 4)) with true
    by (symmetry; apply Z.ltb_lt; lia).
  do 2 f_equal. lia.
Qed.

(** The characters [base64_encode] writes fill the output buffer. *)
Lemma base64_encode_loop_length (input : list byte) :
  forall j, 0 <= j ->
    Z.of_nat (length (base64_encode_loop input j
                        (j + base64_encoded_len (Z.of_nat (length input)))))
    = base64_encoded_len (Z.of_nat (length input)).
Proof.
  induction input as [| a | a b | a b c l IH] using list_ind3; intros j Hj;
    try reflexivity.
  rewrite base64_loop_step by lia. rewrite length_app, Nat2Z.inj_add, IH by lia.
  cbn [length]. replace (Z.of_nat (S (S (S (length l))))) with (Z.of_nat (length l) + 3) by lia.
  rewrite base64_encoded_len_step by lia. unfold base64_encode_block. cbn [length]. lia.
Qed.

(** The loop of [base64_decode] on the output of the loop of
    [base64_encode]: the input, and zeros for a last group that is short. *)
Lemma base64_loops_round_trip (input : list byte) :
  forall j, 0 <= j ->
    base64_decode_loop
      (base64_encode_loop input j (j + base64_encoded_len (Z.of_nat (length input))))
    = input ++ repeat Byte.x00 (missing input).
Proof.
  induction input as [| a | a b | a b c l IH] using list_ind3; intros j Hj.
  - reflexivity.
  - change (base64_decode_block (base64_encode_block_pad [a] 1) ++ []
            = [a] ++ [Byte.x00; Byte.x00]).
    now rewrite base64_pad1_round_trip.
  - change (base64_decode_block (base64_encode_block_pad [a; b] 2) ++ []
            = [a; b] ++ [Byte.x00]).
    now rewrite base64_pad2_round_trip.
  - rewrite base64_loop_step, missing_step by lia.
    change (base64_decode_loop (base64_encode_block [a; b; c] ++ ?r))
      with (base64_decode_block (base64_encode_block [a; b; c]) ++ base64_decode_loop r).
    rewrite base64_block_round_trip, IH by lia. reflexivity.
Qed.

(** C7, as the code has it.  [base64_encode] succeeds on every byte
    sequence.  On its output, with an output buffer of the decoded length,
    [base64_decode] fails with EINVAL when the sequence is empty, and
    otherwise succeeds and gives the sequence followed by one zero byte for
    each byte missing from its last group of three: the sequence itself
    exactly when its length is a multiple of 3. *)
Theorem base64_round_trip_padded (input : list byte) :
  let encoded := base64_encode input (base64_encoded_len (Z.of_nat (length input))) in
  let text := snd encoded in
  fst encoded = 0
  /\ base64_decode text (base64_decoded_len (Z.of_nat (length text)))
     = match input with
       | [] => (EINVAL, [])
       | _ => (0, input ++ repeat Byte.x00 ((3 - length input mod 3) mod 3))
       end.
Proof.
  cbv zeta. unfold base64_encode. rewrite Z.eqb_refl. cbn [negb fst snd].
  split; [reflexivity|].
  destruct input as [|b input]; [reflexivity|].
  set (l := b :: input).
  pose proof (base64_encode_loop_length l 0 ltac:(lia)) as Hlen.
  pose proof (base64_loops_round_trip l 0 ltac:(lia)) as Hrt.
  rewrite Z.add_0_l in Hlen, Hrt.
  unfold base64_decode, base64_decoded_len. rewrite Hlen, Hrt, Z.eqb_refl.
  assert (Hn : 1 <= Z.of_nat (length l)) by (subst l; cbn [length]; lia).
  assert (Hm : 0 < (Z.of_nat (length l) + 2) / 3) by (apply Z.div_str_pos; lia).
  unfold base64_encoded_len.
  replace ((Z.of_nat (length l) + 2) / 3 * 4 <? 4) with false
    by (symmetry; apply Z.ltb_ge; lia).
  change 3 with (Z.ones 2) at 2. rewrite Z.land_ones by lia.
  change (2 ^ 2) with 4. rewrite Z.mod_mul by lia. reflexivity.
Qed.

(** At the inputs the claim names: the empty sequence, and one byte. *)
Lemma base64_round_trip_counterexample :
  base64_decode (snd (base64_encode [] 0)) 0 = (EINVAL, [])
  /\ base64_decode (snd (base64_encode [Byte.x4d] 4)) 3 = (0, [Byte.x4d; Byte.x00; Byte.x00])
  /\ base64_decode (snd (base64_encode [Byte.x4d] 4)) 3 <> (0, [Byte.x4d])
  /\ base64_decode (snd (base64_encode [Byte.x4d] 4)) 1 = (EINVAL, []).
Proof. repeat split; try (vm_compute; reflexivity). vm_compute. discriminate. Qed.

(** [base64_decode] does not look at what [from_base_64] returned: a text
    whose length is a multiple of four, at least four, is decoded whatever
    its characters are. *)
Lemma base64_decode_ignores_alphabet (input : list byte) :
  4 <= Z.of_nat (length input) ->
  Z.of_nat (length input) mod 4 = 0 ->
  fst (base64_decode input (base64_decoded_len (Z.of_nat (length input)))) = 0.
Proof.
  intros H4 Hm. unfold base64_decode, base64_decoded_len.
  replace (Z.of_nat (length input) <? 4) with false by (symmetry; apply Z.ltb_ge; lia).
  change 3 with (Z.ones 2) at 1. rewrite Z.land_ones by lia. change (2 ^ 2) with 4.
  rewrite Hm, !Z.eqb_refl. reflexivity.
Qed.

(** C2, at the text ["!!!!"].  No character is in the alphabet:
    [from_base_64] gives EINVAL (22) for each, [base64_decode] uses it as
    the value of a symbol, as for ["WWWW"], and returns 0. *)
Theorem base64_decode_accepts_bad_symbol :
  from_base_64 (at_ (chars "!!!!") 0) = EINVAL
  /\ base64_decode (chars "!!!!") 3 = (0, [Byte.x59; Byte.x65; Byte.x96])
  /\ base64_decode (chars "!!!!") 3 = base64_decode (chars "WWWW") 3.
Proof. repeat split; vm_compute; reflexivity. Qed.

(** ** The log header *)

Lemma read_line_whole (body : list byte) :
  forall (limit : nat) (rest : list byte),
    forallb (fun c => negb (byte.unsigned c =? 10)) body = true ->
    (length body < limit)%nat ->
    read_line limit (body ++ Byte.x0a :: rest) = (body ++ [Byte.x0a], rest).
Proof.
  induction body as [|c body IH]; intros limit rest Hnl Hlen.
  - destruct limit; [simpl in Hlen; lia | reflexivity].
  - destruct limit; [simpl in Hlen; lia|].
    cbn [forallb] in Hnl. apply andb_true_iff in Hnl. destruct Hnl as [Hc Hnl].
    cbn [app read_line]. apply negb_true_iff in Hc. rewrite Hc.
    rewrite IH by (simpl in Hlen; auto; lia). reflexivity.
Qed.

Lemma fgets_shorter (size : nat) (f line rest : list byte) :
  (2 <= size)%nat -> fgets size f = Some (line, rest) -> (length rest < length f)%nat.
Proof.
  unfold fgets. destruct f as [|c f]; [discriminate|]. intros Hsize H.
  assert (H' : read_line (size - 1) (c :: f) = (line, rest))
    by (apply (f_equal (default ([], []))) in H; exact H).
  pose proof (read_line_split _ _ _ _ H') as Hs.
  destruct (size - 1)%nat as [|k] eqn:Hk; [lia|].
  apply read_line_progress in H'.
  rewrite Hs, length_app. destruct line; [congruence|simpl; lia].
Qed.

(** The loop of [parse_log_comments] needs no more turns than the stream
    has characters. *)
Lemma parse_log_comments_loop_fuel (host : byte_order) (fuel1 : nat) :
  forall (fuel2 : nat) (f : list byte) (header : _log_header),
    (length f < fuel1)%nat -> (length f < fuel2)%nat ->
    parse_log_comments_loop fuel1 host f header
    = parse_log_comments_loop fuel2 host f header.
Proof.
  induction fuel1 as [|fuel1 IH]; intros fuel2 f header H1 H2; [lia|].
  destruct fuel2 as [|fuel2]; [lia|].
  cbn [parse_log_comments_loop].
  destruct (fgets 4096 f) as [[line rest]|] eqn:Hg; [|reflexivity].
  apply fgets_shorter in Hg; [|lia].
  destruct (is_comment (c_str line)); [|reflexivity].
  apply IH; lia.
Qed.

(** One comment line at the head of the stream. *)
Lemma parse_log_comments_loop_line (host : byte_order) (fuel : nat)
    (body rest : list byte) (header : _log_header) :
  forallb (fun c => negb (byte.unsigned c =? 10)) body = true ->
  (length body < 4095)%nat ->
  is_comment (c_str (body ++ [Byte.x0a])) = true ->
  (length (body ++ Byte.x0a :: rest) < fuel)%nat ->
  parse_log_comments_loop fuel host (body ++ Byte.x0a :: rest) header
  = parse_log_comments_loop (S (length rest)) host rest
      (scan_start_time host (body ++ [Byte.x0a])
         (scan_log_format (body ++ [Byte.x0a]) header)).
Proof.
  intros Hnl Hlen Hc Hfuel. destruct fuel as [|fuel]; [lia|].
  assert (Hg : fgets 4096 (body ++ Byte.x0a :: rest) = Some (body ++ [Byte.x0a], rest)).
  { unfold fgets. change (4096 - 1)%nat with 4095%nat.
    rewrite read_line_whole by assumption. now destruct body. }
  transitivity (parse_log_comments_loop fuel host rest
                  (scan_start_time host (body ++ [Byte.x0a])
                     (scan_log_format (body ++ [Byte.x0a]) header))).
  - change (parse_log_comments_loop (S fuel) host (body ++ Byte.x0a :: rest) header)
      with (match fgets 4096 (body ++ Byte.x0a :: rest) with
            | Some (line, f') =>
                if is_comment (c_str line)
                then parse_log_comments_loop fuel host f'
                       (scan_start_time host line (scan_log_format line header))
                else (header, f')
            | None => (header, body ++ Byte.x0a :: rest)
            end).
    now rewrite Hg, Hc.
  - apply parse_log_comments_loop_fuel; [|lia].
    rewrite length_app in Hfuel. cbn [length] in Hfuel. lia.
Qed.

(** C3, as the code has it, on a little-endian host.  After the two header
    lines of the example, and before a line that is not a comment or the
    end of the stream, the header has version 1.2, and its start time is
    1441812279 * 1000 + 139000: the digits after the point are read as a
    whole number and added to the milliseconds. *)
Theorem log_header_of_example (rest : list byte) :
  (forall line f, fgets 4096 rest = Some (line, f) -> is_comment (c_str line) = false) ->
  fst (parse_log_comments LittleEndian (example_header ++ rest))
  = {| major_version := 1; minor_version := 2; start_time_ms := 1441812418000 |}.
Proof.
  intros Hrest. unfold parse_log_comments.
  set (l1 := chars "#[Histogram log format version 1.2]").
  set (l2 := chars "#[StartTime: 1441812279.139000 ...]").
  change (example_header ++ rest)
    with (l1 ++ Byte.x0a :: (l2 ++ Byte.x0a :: rest)).
  rewrite parse_log_comments_loop_line;
    [| vm_compute; reflexivity | vm_compute; lia | vm_compute; reflexivity | lia].
  rewrite parse_log_comments_loop_line;
    [| vm_compute; reflexivity | vm_compute; lia | vm_compute; reflexivity | lia].
  set (header := scan_start_time _ _ _).
  assert (Hh : header
               = {| major_version := 1; minor_version := 2;
                    start_time_ms := 1441812418000 |})
    by (vm_compute; reflexivity).
  rewrite Hh. cbn [parse_log_comments_loop].
  destruct (fgets 4096 rest) as [[line f]|] eqn:Hg; [|reflexivity].
  now rewrite (Hrest line f eq_refl).
Qed.

(** The example as the claim has it: the start time is not 1441812279139,
    on either host. *)
Lemma log_header_counterexample :
  fst (parse_log_comments LittleEndian example_header)
  = {| major_version := 1; minor_version := 2; start_time_ms := 1441812418000 |}
  /\ start_time_ms (fst (parse_log_comments LittleEndian example_header)) <> 1441812279139
  /\ start_time_ms (fst (parse_log_comments BigEndian example_header)) <> 1441812279139.
Proof. repeat split; vm_compute; discriminate. Qed.

(** With a fraction of three digits the start time is the one expected. *)
Lemma log_header_of_millis :
  fst (parse_log_comments LittleEndian example_header_millis)
  = {| major_version := 1; minor_version := 2; start_time_ms := 1441812279139 |}.
Proof. vm_compute. reflexivity. Qed.

(** ** The statements at concrete inputs

    The storing codec is the zlib of these runs, on a little-endian host,
    with a constructor that gives two buckets. *)

(** The example envelope carries three counts; decoded into a histogram of
    two buckets, the first two are stored and the third is dropped. *)
Lemma decode_counts_within_counts_len_example :
  exists h,
    hdr_decode_compressed LittleEndian unit stored_inflateInit stored_inflate
      (fixed_hdr_init 2) zeros 1 example_envelope 64 None = Some (0, Some h)
    /\ counts h = [5; -1]
    /\ counts_len h = 2.
Proof.
  destruct (decode_counts_within_counts_len LittleEndian unit stored_inflateInit
              stored_inflate (fixed_hdr_init 2) zeros 1 1 example_envelope 64
              {| lowest_trackable_value := 1; highest_trackable_value := 1000;
                 significant_figures := 3; total_count := 77; counts := [0; 0] |}
              {| next_in := skipn 40 example_envelope; avail_in := 24; next_out := 32;
                 avail_out := 0; total_out := 32; state := tt |}
              [5; -1; 300000000000])
    as (h & Hd & Hc & Hl).
  - vm_compute. reflexivity.
  - vm_compute. reflexivity.
  - lia.
  - exists h. split; [exact Hd|]. split; [exact Hc | exact Hl].
Defined.

(** A changed outer cookie, and a changed inner cookie under a good outer
    one: the mismatch is found, and the function has no result. *)
Lemma decode_cookie_mismatch_example :
  (decode_header LittleEndian unit stored_inflateInit stored_inflate
     (fixed_hdr_init 2) zeros bad_outer_envelope 64 None
   = inl HDR_COMPRESSION_COOKIE_MISMATCH
   /\ hdr_decode_compressed LittleEndian unit stored_inflateInit stored_inflate
        (fixed_hdr_init 2) zeros 1 bad_outer_envelope 64 None
      = None)
  /\ (decode_header LittleEndian unit stored_inflateInit stored_inflate
        (fixed_hdr_init 2) zeros bad_inner_envelope 64 None
      = inl HDR_ENCODING_COOKIE_MISMATCH
      /\ hdr_decode_compressed LittleEndian unit stored_inflateInit stored_inflate
           (fixed_hdr_init 2) zeros 1 bad_inner_envelope 64 None
         = None).
Proof.
  split.
  - apply (decode_cookie_mismatch LittleEndian unit stored_inflateInit stored_inflate
             (fixed_hdr_init 2) zeros 1 bad_outer_envelope 64).
    + vm_compute. split; discriminate.
    + vm_compute. discriminate.
  - apply (decode_cookie_mismatch LittleEndian unit stored_inflateInit stored_inflate
             (fixed_hdr_init 2) zeros 1 bad_inner_envelope 64).
    + vm_compute. split; discriminate.
    + vm_compute. reflexivity.
    + vm_compute. reflexivity.
    + vm_compute. reflexivity.
    + vm_compute. discriminate.
Defined.

(** The header of the example envelope says 77; the counts decoded into
    three buckets add up to something else, and decoding succeeds with 77. *)
Lemma decode_total_count_from_header_example :
  exists h,
    hdr_decode_compressed LittleEndian unit stored_inflateInit stored_inflate
      (fixed_hdr_init 3) zeros 1 example_envelope 64 None = Some (0, Some h)
    /\ total_count h = 77
    /\ counts h = [5; -1; 300000000000]
    /\ total_count h <> fold_right Z.add 0 (counts h).
Proof.
  destruct (decode_total_count_from_header LittleEndian unit stored_inflateInit
              stored_inflate (fixed_hdr_init 3) zeros 1 1 example_envelope 64
              {| lowest_trackable_value := 1; highest_trackable_value := 1000;
                 significant_figures := 3; total_count := 77; counts := [0; 0; 0] |}
              {| next_in := skipn 40 example_envelope; avail_in := 24; next_out := 32;
                 avail_out := 0; total_out := 32; state := tt |}
              [5; -1; 300000000000])
    as (h & Hd & Ht & Hc).
  - vm_compute. reflexivity.
  - vm_compute. reflexivity.
  - lia.
  - exists h. split; [exact Hd|]. rewrite Ht, Hc. vm_compute.
    repeat split; discriminate.
Defined.

(** The example histogram on a little-endian host: [deflate] writes 56
    bytes and the length returned is 8 + 0x38000000. *)
Lemma encode_length_little_endian_example :
  exists buf clen,
    hdr_encode_compressed LittleEndian (list byte) stored_deflateInit stored_deflate
      granted zeros zeros 2 example_histogram = Some (0, Some (buf, clen))
    /\ clen = 939524104
    /\ clen <> 8 + 56.
Proof.
  assert (Hs : exists strm buf0,
             encode_stream LittleEndian (list byte) stored_deflateInit stored_deflate
               granted zeros zeros 2 example_histogram = Some (0, Some (strm, buf0))
             /\ total_out strm = 56).
  { eexists _, _. split; [vm_compute; reflexivity | reflexivity]. }
  destruct Hs as (strm & buf0 & Hstream & Ht).
  destruct (encode_length_little_endian LittleEndian (list byte) stored_deflateInit
              stored_deflate granted zeros zeros 2 example_histogram strm buf0
              eq_refl Hstream ltac:(rewrite Ht; lia))
    as (buf & clen & He & Hclen & Hne).
  exists buf, clen. split; [exact He|]. rewrite Ht in Hclen, Hne.
  split; [rewrite Hclen; vm_compute; reflexivity | exact Hne].
Defined.

(** A record whose envelope has good cookies and a good header, and a
    stream that ends in an error: [inflate] fails in the counts loop, after
    [hdr_init], and [hdr_decode_compressed] returns HDR_INFLATE_FAIL.  Before
    a line that is not a record, the parse goes on to the second line, and
    the error it returns is the one of the second line; alone, the parse
    returns 0. *)
Lemma failed_decode_is_skipped_example :
  hdr_decode_compressed LittleEndian unit stored_inflateInit checked_inflate
    (fixed_hdr_init 3) zeros 1 damaged_envelope 65 None
  = Some (HDR_INFLATE_FAIL, None)
  /\ parse_lines LittleEndian unit stored_inflateInit checked_inflate (fixed_hdr_init 3)
       granted zeros 1 (damaged_record ++ malformed_record)
     = parse_lines LittleEndian unit stored_inflateInit checked_inflate (fixed_hdr_init 3)
         granted zeros 1 malformed_record
  /\ parse_lines LittleEndian unit stored_inflateInit checked_inflate (fixed_hdr_init 3)
       granted zeros 1 (damaged_record ++ malformed_record)
     = Some (EINVAL, [])
  /\ parse_lines LittleEndian unit stored_inflateInit checked_inflate (fixed_hdr_init 3)
       granted zeros 1 damaged_record
     = Some (0, []).
Proof.
  split; [vm_compute; reflexivity|].
  assert (H : parse_lines LittleEndian unit stored_inflateInit checked_inflate
                (fixed_hdr_init 3) granted zeros 1 (damaged_record ++ malformed_record)
              = parse_lines LittleEndian unit stored_inflateInit checked_inflate
                  (fixed_hdr_init 3) granted zeros 1 malformed_record).
  { apply (failed_decode_is_skipped LittleEndian unit stored_inflateInit checked_inflate
             (fixed_hdr_init 3) granted zeros 1
             (damaged_record ++ malformed_record) damaged_record malformed_record
             [VInt 0; VInt 0; VInt 0; VInt 0; VInt 0; VInt 0;
              VStr (snd (base64_encode damaged_envelope 88))]
             (damaged_envelope ++ [Byte.x00]) HDR_INFLATE_FAIL None).
    - vm_compute. reflexivity.
    - vm_compute. reflexivity.
    - vm_compute. reflexivity.
    - vm_compute. reflexivity.
    - vm_compute. reflexivity.
    - vm_compute. discriminate. }
  split; [exact H|]. split; [rewrite H|]; vm_compute; reflexivity.
Defined.

(** A log whose first line after the column names is not a record. *)
Lemma malformed_record_error_dropped_example :
  parse_lines LittleEndian unit stored_inflateInit stored_inflate (fixed_hdr_init 2)
    granted zeros 1 malformed_record
  = Some (EINVAL, [])
  /\ hdr_parse_log LittleEndian unit stored_inflateInit stored_inflate (fixed_hdr_init 2)
       granted zeros 1 (column_names ++ malformed_record)
     = Some (0, []).
Proof.
  apply (malformed_record_error_dropped LittleEndian unit stored_inflateInit stored_inflate
           (fixed_hdr_init 2) granted zeros 1 (column_names ++ malformed_record)
           malformed_record malformed_record []
           {| major_version := 0; minor_version := 0; start_time_ms := 0 |}).
  - vm_compute. reflexivity.
  - vm_compute. reflexivity.
  - vm_compute. reflexivity.
  - vm_compute. discriminate.
Defined.

(** The header of the example before a line of column names. *)
Lemma log_header_of_example_with_columns :
  fst (parse_log_comments LittleEndian (example_header ++ column_names))
  = {| major_version := 1; minor_version := 2; start_time_ms := 1441812418000 |}.
Proof.
  apply (log_header_of_example column_names).
  intros line f H. vm_compute in H. injection H as Hl Hf. subst line.
  vm_compute. reflexivity.
Defined.

(** ** Runs of the model *)

(** The literal vectors of Base64. *)
Example base64_encode_vectors :
  base64_encode (chars "Man") 4 = (0, chars "TWFu")
  /\ base64_encode (chars "Ma") 4 = (0, chars "TWE=")
  /\ base64_encode (chars "M") 4 = (0, chars "TQ==")
  /\ base64_encode (chars "Man") 3 = (EINVAL, []).
Proof. repeat split; vm_compute; reflexivity. Qed.

(** A [char] above 127 is negative where [char] is signed; [from_base_64]
    gives EINVAL for it either way. *)
Lemma from_base_64_high (c : Z) :
  128 <= c < 256 -> from_base_64 c = EINVAL /\ from_base_64 (c - 256) = EINVAL.
Proof.
  intros Hc. unfold from_base_64.
  repeat match goal with
         | |- context [?a <=? ?b] => destruct (Z.leb_spec a b); try lia
         | |- context [?a =? ?b] => destruct (Z.eqb_spec a b); try lia
         end; cbn [andb]; split; reflexivity.
Qed.

(** With the storing codec the example histogram comes back from its
    envelope, on either host, though the length returned differs. *)
Example stored_round_trip :
  forall host,
    exists buf clen,
      hdr_encode_compressed host (list byte) stored_deflateInit stored_deflate
        granted zeros zeros 2 example_histogram = Some (0, Some (buf, clen))
      /\ firstn 64 buf = example_envelope
      /\ hdr_decode_compressed host unit stored_inflateInit stored_inflate
           (fixed_hdr_init 3) zeros 1 buf (clen mod 2 ^ 64) None
         = Some (0, Some example_histogram).
Proof.
  intros [|]; do 2 eexists; (split; [vm_compute; reflexivity|]);
    split; vm_compute; reflexivity.
Qed.

(** With the codec that writes on a flush only, the example histogram is
    encoded as with the storing codec; the histogram of 512 buckets does
    not fit the first buffer at [Z_FINISH], and the encoder fails. *)
Example buffered_encode :
  (exists buf clen,
      hdr_encode_compressed BigEndian (list byte * bool) buffered_deflateInit
        buffered_deflate granted zeros zeros 3 example_histogram
      = Some (0, Some (buf, clen))
      /\ firstn 64 buf = example_envelope /\ clen = 64)
  /\ hdr_encode_compressed BigEndian (list byte * bool) buffered_deflateInit
       buffered_deflate granted zeros zeros 3 wide_histogram
     = Some (HDR_DEFLATE_FAIL, None).
Proof.
  split; [do 2 eexists; split; [vm_compute; reflexivity|]; split; vm_compute; reflexivity|].
  vm_compute. reflexivity.
Qed.

(** ** The storing codec behaves as the codec expects of zlib *)

(** What the storing [deflate] has taken is what it has written and what
    it keeps. *)
Lemma stored_deflating (st taken written : list byte) :
  deflating (list byte) stored_deflateInit stored_deflate st taken written ->
  taken = written ++ st.
Proof.
  induction 1 as [st Hinit|strm flush taken written Hd IH Hr].
  - injection Hinit as <-. reflexivity.
  - unfold z_taken, zlib_call, stored_deflate.
    cbn [fst snd state z_used z_out z_state]. rewrite Nat.min_id, firstn_firstn, Nat.min_id.
    rewrite IH, <- !app_assoc. f_equal. symmetry. apply firstn_skipn.
Qed.

Lemma stored_takes_input : deflate_takes_input (list byte) stored_deflateInit stored_deflate.
Proof.
  intros strm flush taken written _ Hin _ _.
  unfold zlib_call, stored_deflate. cbn [snd avail_in z_used]. lia.
Qed.

Lemma stored_ends_stream :
  deflate_ends_stream (list byte) stored_deflateInit stored_deflate
    (fun data compressed => compressed = data).
Proof.
  intros strm flush taken written Hd Hin Hr.
  apply stored_deflating in Hd.
  unfold z_taken, zlib_call, stored_deflate in *.
  cbn [fst snd avail_in z_ret z_used z_out] in *.
  rewrite Nat.min_id, firstn_firstn, Nat.min_id.
  set (all := state strm ++ firstn (Z.to_nat (avail_in strm)) (next_in strm)) in *.
  destruct (Z.eqb_spec flush Z_FINISH) as [Hf|]; [|discriminate].
  destruct (Z.eqb_spec (Z.of_nat (length (skipn (Z.to_nat (avail_out strm)) all))) 0)
    as [Hrest|]; [|discriminate].
  split; [exact Hf|]. split; [lia|].
  rewrite Hd, <- app_assoc. f_equal. fold all.
  rewrite <- (firstn_skipn (Z.to_nat (avail_out strm)) all) at 2.
  destruct (skipn (Z.to_nat (avail_out strm)) all); [|discriminate].
  now rewrite app_nil_r.
Qed.

Lemma stored_gives_back :
  inflate_gives_back unit stored_inflateInit stored_inflate
    (fun data compressed => compressed = data)
    (fun _ mem n data => data = firstn (Z.to_nat n) mem).
Proof.
  split.
  - intros data compressed rest ->.
    rewrite Nat2Z.id, firstn_app, firstn_all, Nat.sub_diag, firstn_O. now rewrite app_nil_r.
  - intros strm data -> Hout. cbv zeta.
    unfold zlib_call, stored_inflate.
    cbn [fst snd state next_in avail_in z_ret z_out z_used z_state].
    set (data := firstn (Z.to_nat (avail_in strm)) (next_in strm)).
    rewrite firstn_firstn, Nat.min_id.
    assert (Hdata : (length data <= Z.to_nat (avail_in strm))%nat).
    { unfold data. rewrite length_firstn. lia. }
    split; [reflexivity|]. split; [|split].
    + intros Hmore.
      destruct (Z.leb_spec (Z.of_nat (length data)) (avail_out strm)); [lia|].
      split; [reflexivity|].
      rewrite length_firstn.
      replace (Nat.min (Nat.min (Z.to_nat (avail_out strm)) (length data))
                 (Z.to_nat (avail_in strm))) with (Z.to_nat (avail_out strm)) by lia.
      unfold data. rewrite skipn_firstn_comm. f_equal. lia.
    + intros Hless.
      destruct (Z.leb_spec (Z.of_nat (length data)) (avail_out strm)); [reflexivity|lia].
    + intros Hsame. left.
      destruct (Z.leb_spec (Z.of_nat (length data)) (avail_out strm)); [reflexivity|lia].
Qed.

Lemma granted_up_to_bounded (limit : Z) :
  limit < 2 ^ 63 -> malloc_bounded (granted_up_to limit).
Proof. intros Hl n Hn. unfold granted_up_to in Hn. apply Z.leb_le in Hn. lia. Qed.

Lemma wide_histogram_in_range : histogram_in_range wide_histogram.
Proof.
  unfold histogram_in_range, int32_range, int64_range. cbn [wide_histogram
    significant_figures lowest_trackable_value highest_trackable_value total_count counts].
  repeat split; try lia.
  apply Forall_forall. intros x Hx. apply list_elem_of_In, repeat_spec in Hx. subst x. lia.
Qed.

(** The round trip of a histogram of 512 counts through the storing codec,
    on a little-endian host: the payload of 4128 bytes does not fit the
    first buffer, and the encoder grows it once. *)
Lemma encode_decode_round_trip_example :
  exists buf clen,
    hdr_encode_compressed LittleEndian (list byte) stored_deflateInit stored_deflate
      (granted_up_to 65536) zeros zeros 4 wide_histogram = Some (0, Some (buf, clen))
    /\ Z.of_nat (length buf) = 8192
    /\ exists n : nat,
         forall fuel' : nat,
           (n <= fuel')%nat ->
           exists h' : hdr_histogram,
             hdr_decode_compressed LittleEndian unit stored_inflateInit stored_inflate
               (fixed_hdr_init 512) zeros fuel' buf (clen mod 2 ^ 64) None
             = Some (0, Some h')
             /\ significant_figures h' = significant_figures wide_histogram
             /\ lowest_trackable_value h' = lowest_trackable_value wide_histogram
             /\ highest_trackable_value h' = highest_trackable_value wide_histogram
             /\ total_count h' = total_count wide_histogram
             /\ counts h' = counts wide_histogram.
Proof.
  eexists _, _. split; [vm_compute; reflexivity|]. split; [vm_compute; reflexivity|].
  apply (encode_decode_round_trip LittleEndian (list byte) stored_deflateInit stored_deflate
           unit stored_inflateInit stored_inflate (fixed_hdr_init 512)
           (granted_up_to 65536) zeros zeros
           (fun data compressed => compressed = data)
           (fun _ mem n data => data = firstn (Z.to_nat n) mem)
           4 wide_histogram
           {| lowest_trackable_value := 1; highest_trackable_value := 1000;
              significant_figures := 3; total_count := 0; counts := repeat 0 512 |}).
  - exact stored_takes_input.
  - exact stored_ends_stream.
  - exact stored_gives_back.
  - apply granted_up_to_bounded. reflexivity.
  - reflexivity.
  - exact wide_histogram_in_range.
  - discriminate.
  - unfold constructs. repeat split.
  - vm_compute. reflexivity.
Defined.
(** ** The codec that writes on a flush only, and the encoder *)

(** What the buffering [deflate] has taken is what it has written and what
    it keeps. *)
Lemma buffered_deflating (st : list byte * bool) (taken written : list byte) :
  deflating (list byte * bool) buffered_deflateInit buffered_deflate st taken written ->
  taken = written ++ fst st.
Proof.
  induction 1 as [st Hinit|strm flush taken written Hd IH Hr].
  - injection Hinit as <-. reflexivity.
  - revert Hr. unfold z_taken, zlib_call, buffered_deflate.
    destruct (state strm) as [pending finishing]. cbn [fst] in IH.
    destruct (finishing && negb (flush =? Z_FINISH)); [discriminate|].
    destruct (flush =? Z_NO_FLUSH); cbn [fst snd state z_ret z_used z_out z_state]; intros _.
    + rewrite Nat.min_id, firstn_nil, app_nil_r, IH, <- app_assoc. reflexivity.
    + rewrite Nat.min_id, firstn_firstn, Nat.min_id.
      rewrite IH, <- !app_assoc. f_equal. symmetry. apply firstn_skipn.
Qed.

Lemma buffered_takes_input :
  deflate_takes_input (list byte * bool) buffered_deflateInit buffered_deflate.
Proof.
  intros strm flush taken written _ Hin. unfold zlib_call, buffered_deflate.
  destruct (state strm) as [pending finishing].
  destruct (finishing && negb (flush =? Z_FINISH)); [discriminate|].
  destruct (flush =? Z_NO_FLUSH); cbn [fst snd avail_in z_used]; lia.
Qed.

Lemma buffered_ends_stream :
  deflate_ends_stream (list byte * bool) buffered_deflateInit buffered_deflate
    (fun data compressed => compressed = data).
Proof.
  intros strm flush taken written Hd Hin. apply buffered_deflating in Hd. revert Hd.
  unfold z_taken, zlib_call, buffered_deflate.
  destruct (state strm) as [pending finishing]. cbn [fst]. intros Hd.
  destruct (finishing && negb (flush =? Z_FINISH)); [discriminate|].
  destruct (flush =? Z_NO_FLUSH); [discriminate|].
  cbn [fst snd avail_in z_ret z_used z_out].
  rewrite Nat.min_id, firstn_firstn, Nat.min_id.
  set (all := pending ++ firstn (Z.to_nat (avail_in strm)) (next_in strm)).
  destruct (Z.eqb_spec flush Z_FINISH) as [Hf|]; [|discriminate].
  destruct (Z.eqb_spec (Z.of_nat (length (skipn (Z.to_nat (avail_out strm)) all))) 0)
    as [Hrest|]; [|discriminate].
  intros _. split; [exact Hf|]. split; [lia|].
  rewrite Hd, <- app_assoc. f_equal. fold all.
  rewrite <- (firstn_skipn (Z.to_nat (avail_out strm)) all) at 2.
  destruct (skipn (Z.to_nat (avail_out strm)) all); [|discriminate].
  now rewrite app_nil_r.
Qed.

(** C1.  The claim fails on the code for a histogram whose stream is not
    all written when the encoder calls [deflate] with [Z_FINISH].  The
    buffering [deflate] behaves as the codec expects ([deflate_takes_input],
    [deflate_ends_stream]), the allocator grants what is asked, and the
    histogram of 512 buckets has the values of its C types; its stream of
    4128 bytes fills the 4088 bytes left of the first buffer, [deflate]
    returns [Z_OK], and the encoder goes back to the growth loop, which
    doubles the buffer and calls [deflate] with [Z_SYNC_FLUSH].  That call
    is refused on a finishing stream, and [hdr_encode_compressed] returns
    [HDR_DEFLATE_FAIL] with no bytes to decode, on either byte order and
    however long the loop may run. *)
Theorem encode_fails_when_finish_fills_buffer (host : byte_order) (fuel : nat) :
  (3 <= fuel)%nat ->
  deflate_takes_input (list byte * bool) buffered_deflateInit buffered_deflate
  /\ deflate_ends_stream (list byte * bool) buffered_deflateInit buffered_deflate
       (fun data compressed => compressed = data)
  /\ malloc_bounded (granted_up_to 65536)
  /\ histogram_in_range wide_histogram
  /\ hdr_encode_compressed host (list byte * bool) buffered_deflateInit buffered_deflate
       (granted_up_to 65536) zeros zeros fuel wide_histogram
     = Some (HDR_DEFLATE_FAIL, None).
Proof.
  intros Hfuel.
  split; [exact buffered_takes_input|]. split; [exact buffered_ends_stream|].
  split; [apply granted_up_to_bounded; reflexivity|].
  split; [exact wide_histogram_in_range|].
  apply (hdr_encode_compressed_more_fuel host (list byte * bool) buffered_deflateInit
           buffered_deflate (granted_up_to 65536) zeros zeros 3 fuel); [|exact Hfuel].
  destruct host; vm_compute; reflexivity.
Qed.

(** On a little-endian host, with room for three turns of the loop. *)
Lemma encode_fails_when_finish_fills_buffer_example :
  (3 <= 3)%nat
  /\ hdr_encode_compressed LittleEndian (list byte * bool) buffered_deflateInit
       buffered_deflate (granted_up_to 65536) zeros zeros 3 wide_histogram
     = Some (HDR_DEFLATE_FAIL, None).
Proof.
  split; [lia|].
  apply (encode_fails_when_finish_fills_buffer LittleEndian 3). lia.
Defined.

(** ** More on Base64 *)

(** X1.  [base64_encode] refuses an output length that is not the encoded
    length of the input, and writes nothing; with the encoded length it
    returns 0 and fills the output. *)
Theorem base64_encode_result (input : list byte) (output_len : Z) :
  (output_len <> base64_encoded_len (Z.of_nat (length input)) ->
   base64_encode input output_len = (EINVAL, []))
  /\ (output_len = base64_encoded_len (Z.of_nat (length input)) ->
      fst (base64_encode input output_len) = 0
      /\ Z.of_nat (length (snd (base64_encode input output_len))) = output_len).
Proof.
  unfold base64_encode. split; intros H.
  - replace (base64_encoded_len (Z.of_nat (length input)) =? output_len) with false
      by (symmetry; apply Z.eqb_neq; congruence).
    reflexivity.
  - subst output_len. rewrite Z.eqb_refl. cbn [negb fst snd]. split; [reflexivity|].
    apply (base64_encode_loop_length input 0). lia.
Qed.

(** A character of [get_base_64] is one of the 64 symbols of the table. *)
Lemma get_base_64_symbol (v shift : Z) : In (get_base_64 v shift) (firstn 64 base64_table).
Proof.
  unfold get_base_64. pose proof (land_63_range (Z.shiftr v shift)) as Hr.
  set (i := Z.to_nat (Z.land 63 (Z.shiftr v shift))).
  assert (Hi : (i < 64)%nat) by (unfold i; lia).
  clearbody i. clear Hr.
  replace (nth i base64_table Byte.x00) with (nth i (firstn 64 base64_table) Byte.x00).
  - apply nth_In. rewrite length_firstn.
    change (length base64_table) with 65%nat. lia.
  - rewrite nth_firstn. now replace (i <? 64)%nat with true by (symmetry; apply Nat.ltb_lt; lia).
Qed.

Lemma base64_encode_loop_symbols (input : list byte) :
  forall j, 0 <= j ->
    exists body : list byte,
      base64_encode_loop input j (j + base64_encoded_len (Z.of_nat (length input)))
      = body ++ repeat (byte.of_Z 61) (missing input)
      /\ Forall (fun c => In c (firstn 64 base64_table)) body.
Proof.
  induction input as [| a | a b | a b c l IH] using list_ind3; intros j Hj.
  - exists []. split; [reflexivity|constructor].
  - eexists [_; _]. split; [reflexivity|].
    repeat (constructor; [apply get_base_64_symbol|]). constructor.
  - eexists [_; _; _]. split; [reflexivity|].
    repeat (constructor; [apply get_base_64_symbol|]). constructor.
  - rewrite base64_loop_step by exact Hj. rewrite missing_step.
    destruct (IH (j + 4) ltac:(lia)) as (body & -> & Hbody).
    exists (base64_encode_block [a; b; c] ++ body). split; [now rewrite app_assoc|].
    apply Forall_app. split; [|exact Hbody].
    repeat (constructor; [apply get_base_64_symbol|]). constructor.
Qed.

(** X2.  The text [base64_encode] writes is made of symbols of the table,
    followed by one ['='] for each byte missing from the last group of
    three of the input. *)
Theorem base64_encode_symbols_then_padding (input : list byte) :
  exists body : list byte,
    snd (base64_encode input (base64_encoded_len (Z.of_nat (length input))))
    = body ++ repeat (byte.of_Z 61) (missing input)
    /\ Forall (fun c => In c (firstn 64 base64_table)) body
    /\ ~ In (byte.of_Z 61) body.
Proof.
  unfold base64_encode. rewrite Z.eqb_refl. cbn [negb snd].
  destruct (base64_encode_loop_symbols input 0 ltac:(lia)) as (body & Hbody & Hsym).
  exists body. split; [exact Hbody|]. split; [exact Hsym|].
  intros Hin. rewrite Forall_forall in Hsym. apply list_elem_of_In, Hsym in Hin.
  revert Hin. vm_compute. intuition discriminate.
Qed.

Lemma base64_decode_loop_length (n : nat) :
  forall input : list byte,
    (length input <= n)%nat ->
    length (base64_decode_loop input) = (length input / 4 * 3)%nat.
Proof.
  induction n as [|n IH]; intros input Hn.
  - destruct input; [reflexivity|cbn [length] in Hn; lia].
  - destruct input as [|c0 [|c1 [|c2 [|c3 rest]]]]; try reflexivity.
    cbn [base64_decode_loop]. rewrite length_app, IH by (cbn [length] in Hn; lia).
    cbn [length base64_decode_block].
    replace (S (S (S (S (length rest))))) with (1 * 4 + length rest)%nat by lia.
    rewrite Nat.div_add_l by lia. lia.
Qed.

(** X3.  [base64_decode] succeeds exactly on a text of at least four
    characters whose length is a multiple of four, with the output length
    that [base64_decoded_len] gives for it; it then fills the output.  In
    every other case it returns EINVAL and writes nothing. *)
Theorem base64_decode_result (input : list byte) (output_len : Z) :
  (fst (base64_decode input output_len) = 0
   <-> 4 <= Z.of_nat (length input)
       /\ Z.of_nat (length input) mod 4 = 0
       /\ output_len = base64_decoded_len (Z.of_nat (length input)))
  /\ (fst (base64_decode input output_len) = 0 ->
      Z.of_nat (length (snd (base64_decode input output_len))) = output_len)
  /\ (fst (base64_decode input output_len) <> 0 ->
      base64_decode input output_len = (EINVAL, [])).
Proof.
  unfold base64_decode, base64_decoded_len.
  assert (Hland : Z.land (Z.of_nat (length input)) 3 = Z.of_nat (length input) mod 4)
    by (change 3 with (Z.ones 2); now rewrite Z.land_ones by lia).
  rewrite !Hland. clear Hland.
  destruct (Z.ltb_spec (Z.of_nat (length input)) 4) as [Hshort|Hlong]; cbn [orb].
  { cbn [fst snd]. unfold EINVAL. repeat split; try lia; try discriminate; intros; lia. }
  destruct (Z.eqb_spec (Z.of_nat (length input) mod 4) 0) as [Hmod|Hmod]; cbn [negb orb].
  2:{ cbn [fst snd]. unfold EINVAL. repeat split; try lia; try discriminate; intros; lia. }
  destruct (Z.eqb_spec (Z.of_nat (length input) / 4 * 3) output_len) as [Hout|Hout];
    cbn [negb fst snd].
  2:{ unfold EINVAL. repeat split; try lia; try discriminate; intros; lia. }
  repeat split; try lia; try congruence.
  intros _. rewrite (base64_decode_loop_length (length input)) by lia.
  rewrite <- Hout, Nat2Z.inj_mul, Nat2Z.inj_div. reflexivity.
Qed.

(** Every symbol of the table is the character of its value. *)
Lemma base64_symbol_value (c : byte) :
  In c (firstn 64 base64_table) ->
  0 <= from_base_64 (byte.unsigned c) < 64
  /\ nth (Z.to_nat (from_base_64 (byte.unsigned c))) base64_table Byte.x00 = c.
Proof.
  intros Hc.
  assert (Hall : forallb (fun c => (0 <=? from_base_64 (byte.unsigned c))
                                   && (from_base_64 (byte.unsigned c) <? 64)
                                   && Byte.eqb (nth (Z.to_nat (from_base_64 (byte.unsigned c)))
                                                    base64_table Byte.x00) c)
                         (firstn 64 base64_table) = true)
    by (vm_compute; reflexivity).
  rewrite forallb_forall in Hall. specialize (Hall c Hc).
  apply andb_true_iff in Hall. destruct Hall as [Hall Heq].
  apply andb_true_iff in Hall. destruct Hall as [Hlo Hhi].
  apply Z.leb_le in Hlo. apply Z.ltb_lt in Hhi. apply Byte.byte_dec_bl in Heq.
  split; [lia|exact Heq].
Qed.

(** Four sextets joined to a 24-bit value, and taken out of it again. *)
Lemma sextets_of_join (x0 x1 x2 x3 : Z) :
  let v := Z.lor (Z.lor (Z.lor (Z.shiftl (Z.land x0 63) 18) (Z.shiftl (Z.land x1 63) 12))
                        (Z.shiftl (Z.land x2 63) 6))
                 (Z.land x3 63) in
  Z.land v (Z.ones 24) = v
  /\ Z.land 63 (Z.shiftr v 18) = Z.land x0 63
  /\ Z.land 63 (Z.shiftr v 12) = Z.land x1 63
  /\ Z.land 63 (Z.shiftr v 6) = Z.land x2 63
  /\ Z.land 63 (Z.shiftr v 0) = Z.land x3 63.
Proof.
  cbv zeta. change 63 with (Z.ones 6).
  repeat split; Z.bitblast.
Qed.

Lemma bytes_join_24 (v : Z) :
  0 <= v < 2 ^ 24 ->
  Z.shiftl (Z.land (Z.shiftr v 16) 255) 16 + Z.shiftl (Z.land (Z.shiftr v 8) 255) 8
  + Z.land v 255 = v.
Proof.
  intros Hv. change 255 with (Z.ones 8).
  rewrite !Z.land_ones, !Z.shiftr_div_pow2, !Z.shiftl_mul_pow2 by lia.
  change (2 ^ 24) with 16777216 in Hv. change (2 ^ 16) with 65536. change (2 ^ 8) with 256.
  Z.div_mod_to_equations. lia.
Qed.

Lemma unsigned_of_low_byte (x : Z) :
  byte.unsigned (byte.of_Z (Z.land x 255)) = Z.land x 255.
Proof.
  rewrite byte.unsigned_of_Z. unfold byte.wrap.
  change 255 with (Z.ones 8). rewrite Z.land_ones by lia.
  change (2 ^ 8) with 256. now rewrite Z.mod_mod by lia.
Qed.

(** A block of four symbols, decoded and encoded again. *)
Lemma base64_symbols_block_round_trip (c0 c1 c2 c3 : byte) :
  In c0 (firstn 64 base64_table) -> In c1 (firstn 64 base64_table) ->
  In c2 (firstn 64 base64_table) -> In c3 (firstn 64 base64_table) ->
  base64_encode_block (base64_decode_block [c0; c1; c2; c3]) = [c0; c1; c2; c3].
Proof.
  intros H0 H1 H2 H3.
  destruct (base64_symbol_value c0 H0) as [R0 N0].
  destruct (base64_symbol_value c1 H1) as [R1 N1].
  destruct (base64_symbol_value c2 H2) as [R2 N2].
  destruct (base64_symbol_value c3 H3) as [R3 N3].
  unfold base64_decode_block, base64_encode_block, at_. cbn [nth].
  set (s0 := from_base_64 (byte.unsigned c0)) in *.
  set (s1 := from_base_64 (byte.unsigned c1)) in *.
  set (s2 := from_base_64 (byte.unsigned c2)) in *.
  set (s3 := from_base_64 (byte.unsigned c3)) in *.
  assert (E : forall s, 0 <= s < 64 -> Z.land s 63 = s).
  { intros s Hs. change 63 with (Z.ones 6). rewrite Z.land_ones by lia.
    apply Z.mod_small. change (2 ^ 6) with 64. lia. }
  cbv zeta. rewrite <- (E s0 R0), <- (E s1 R1), <- (E s2 R2), <- (E s3 R3).
  destruct (sextets_of_join s0 s1 s2 s3) as (Hv & V0 & V1 & V2 & V3).
  cbv zeta in Hv, V0, V1, V2, V3.
  set (v := Z.lor _ _) in *.
  rewrite !unsigned_of_low_byte.
  rewrite bytes_join_24.
  2:{ rewrite <- Hv, Z.land_ones by lia. apply Z.mod_pos_bound. lia. }
  unfold get_base_64. rewrite V0, V1, V2, V3, !E by assumption.
  now rewrite N0, N1, N2, N3.
Qed.

Lemma base64_symbols_loop_round_trip (n : nat) :
  forall (text : list byte) (j : Z),
    (length text <= n)%nat ->
    (length text mod 4 = 0)%nat ->
    Forall (fun c => In c (firstn 64 base64_table)) text ->
    base64_encode_loop (base64_decode_loop text) j (j + Z.of_nat (length text)) = text.
Proof.
  induction n as [|n IH]; intros text j Hn Hmod Hsym.
  - destruct text; [reflexivity|cbn [length] in Hn; lia].
  - destruct text as [|c0 [|c1 [|c2 [|c3 rest]]]]; try reflexivity;
      try (cbn in Hmod; discriminate).
    inversion Hsym as [|? ? S0 Hsym1]; subst.
    inversion Hsym1 as [|? ? S1 Hsym2]; subst.
    inversion Hsym2 as [|? ? S2 Hsym3]; subst.
    inversion Hsym3 as [|? ? S3 Hrest]; subst.
    cbn [length] in Hn, Hmod.
    assert (Hmod' : (length rest mod 4 = 0)%nat).
    { replace (S (S (S (S (length rest))))) with (length rest + 1 * 4)%nat in Hmod by lia.
      now rewrite Nat.Div0.mod_add in Hmod. }
    pose proof (base64_symbols_block_round_trip c0 c1 c2 c3 S0 S1 S2 S3) as Hblock.
    cbn [base64_decode_loop].
    remember (base64_decode_block [c0; c1; c2; c3]) as block eqn:Eblock.
    unfold base64_decode_block in Eblock. cbv zeta in Eblock. subst block.
    cbn [app base64_encode_loop].
    replace (j <? j + Z.of_nat (length (c0 :: c1 :: c2 :: c3 :: rest))) with true
      by (symmetry; apply Z.ltb_lt; cbn [length]; lia).
    unfold base64_decode_block in Hblock. cbv zeta in Hblock. rewrite Hblock.
    cbn [app]. do 4 f_equal.
    replace (j + Z.of_nat (length (c0 :: c1 :: c2 :: c3 :: rest)))
      with (j + 4 + Z.of_nat (length rest)) by (cbn [length]; lia).
    apply IH; [lia|exact Hmod'|exact Hrest].
Qed.

(** X4.  A text of symbols of the table whose length is a multiple of four is
    decoded by [base64_decode], and [base64_encode] gives the text back
    from the bytes. *)
Theorem base64_text_round_trip (text : list byte) :
  text <> [] ->
  (length text mod 4 = 0)%nat ->
  Forall (fun c => In c (firstn 64 base64_table)) text ->
  exists bytes : list byte,
    base64_decode text (base64_decoded_len (Z.of_nat (length text))) = (0, bytes)
    /\ base64_encode bytes (Z.of_nat (length text)) = (0, text).
Proof.
  intros Hne Hmod Hsym.
  assert (Hq : exists q : nat, length text = (4 * q)%nat /\ (0 < q)%nat).
  { exists (length text / 4)%nat. pose proof (Nat.div_mod_eq (length text) 4).
    destruct text; [congruence|cbn [length] in *; lia]. }
  destruct Hq as (q & Hlen & Hq).
  exists (base64_decode_loop text). split.
  - unfold base64_decode, base64_decoded_len.
    replace (Z.of_nat (length text) <? 4) with false by (symmetry; apply Z.ltb_ge; lia).
    change 3 with (Z.ones 2) at 1. rewrite Z.land_ones by lia. change (2 ^ 2) with 4.
    replace (Z.of_nat (length text) mod 4) with 0
      by (rewrite Hlen, Nat2Z.inj_mul, Z.mul_comm; symmetry; apply Z.mod_mul; lia).
    rewrite !Z.eqb_refl. reflexivity.
  - unfold base64_encode.
    rewrite (base64_decode_loop_length (length text)) by lia.
    replace (base64_encoded_len (Z.of_nat (length text / 4 * 3))) with (Z.of_nat (length text)).
    + rewrite Z.eqb_refl. cbn [negb]. f_equal.
      apply (base64_symbols_loop_round_trip (length text) text 0); auto.
    + rewrite Hlen. replace (4 * q / 4)%nat with q
        by (rewrite Nat.mul_comm, Nat.div_mul; lia).
      unfold base64_encoded_len. rewrite !Nat2Z.inj_mul.
      change (Z.of_nat 3) with 3. change (Z.of_nat 4) with 4.
      replace (Z.of_nat q * 3 + 2) with (2 + Z.of_nat q * 3) by lia.
      rewrite Z.div_add by lia. change (2 / 3) with 0. lia.
Qed.

(** The text ["TWFu"]. *)
Lemma base64_text_round_trip_example :
  exists bytes : list byte,
    base64_decode (chars "TWFu") (base64_decoded_len 4) = (0, bytes)
    /\ base64_encode bytes 4 = (0, chars "TWFu").
Proof.
  apply (base64_text_round_trip (chars "TWFu")).
  - discriminate.
  - reflexivity.
  - repeat (constructor; [vm_compute; tauto|]). constructor.
Defined.

(** X5.  For a size [n] below [2 ^ 53], where the length the source
    computes in double precision is exact: the encoded length is a multiple
    of four, and the output size [base64_decoded_len] gives for it is [n]
    rounded up to a multiple of 3. *)
Theorem base64_lengths (n : nat) :
  Z.of_nat n < 2 ^ 53 ->
  let encoded := base64_encoded_len (Z.of_nat n) in
  encoded mod 4 = 0
  /\ Z.of_nat n <= base64_decoded_len encoded < Z.of_nat n + 3
  /\ base64_decoded_len encoded mod 3 = 0.
Proof.
  intros _. cbv zeta. unfold base64_encoded_len, base64_decoded_len.
  rewrite Z.div_mul by lia. rewrite !Z.mod_mul by lia.
  repeat split; try reflexivity; Z.div_mod_to_equations; lia.
Qed.

(** Five bytes are encoded in eight characters, which decode into six. *)
Lemma base64_lengths_example :
  Z.of_nat 5 < 2 ^ 53
  /\ base64_encoded_len (Z.of_nat 5) = 8
  /\ base64_encoded_len (Z.of_nat 5) mod 4 = 0
  /\ Z.of_nat 5 <= base64_decoded_len (base64_encoded_len (Z.of_nat 5)) < Z.of_nat 5 + 3
  /\ base64_decoded_len (base64_encoded_len (Z.of_nat 5)) mod 3 = 0.
Proof.
  split; [reflexivity|]. split; [reflexivity|].
  apply (base64_lengths 5). reflexivity.
Defined.

(** ** More on the string helpers *)

Lemma null_trailing_rev_spec (r : list byte) :
  exists ws : list byte,
    r = ws ++ null_trailing_rev r
    /\ Forall (fun c => isspace c = true) ws
    /\ match null_trailing_rev r with
       | [] => True
       | c :: _ => isspace c = false
       end.
Proof.
  induction r as [|c r (ws & Hr & Hws & Hlast)].
  - exists []. repeat split. constructor.
  - cbn [null_trailing_rev]. destruct (isspace c) eqn:Hc.
    + exists (c :: ws). split; [cbn [app]; now f_equal|]. split; [|exact Hlast].
      now constructor.
    + exists []. split; [reflexivity|]. split; [constructor|exact Hc].
Qed.

(** X6.  [null_trailing_whitespace] cuts the white space at the end of the
    string and nothing else: the string is what is left followed by white
    space only, what is left does not end in white space, and the value
    returned is its length. *)
Theorem null_trailing_whitespace_spec (s : list byte) :
  exists ws : list byte,
    s = fst (null_trailing_whitespace s) ++ ws
    /\ Forall (fun c => isspace c = true) ws
    /\ match rev (fst (null_trailing_whitespace s)) with
       | [] => True
       | c :: _ => isspace c = false
       end
    /\ snd (null_trailing_whitespace s) = Z.of_nat (length (fst (null_trailing_whitespace s))).
Proof.
  unfold null_trailing_whitespace. cbn [fst snd].
  destruct (null_trailing_rev_spec (rev s)) as (ws & Hr & Hws & Hlast).
  exists (rev ws). split; [|split; [|split]].
  - rewrite <- rev_app_distr, <- Hr. symmetry. apply rev_involutive.
  - rewrite Forall_forall in Hws |- *. intros c Hc. apply Hws.
    apply list_elem_of_In. apply list_elem_of_In in Hc. now apply in_rev.
  - now rewrite rev_involutive.
  - reflexivity.
Qed.

(** X7.  A line is taken as a comment when its first character that is not
    white space is ['#'], and also when it has none: an empty line and a
    line of white space are comments. *)
Theorem is_comment_first_character (ws rest : list byte) (x : byte) :
  Forall (fun c => isspace c = true) ws ->
  is_comment ws = true
  /\ (isspace x = false -> is_comment (ws ++ x :: rest) = (byte.unsigned x =? 35)).
Proof.
  unfold is_comment. induction 1 as [|c ws Hc Hws [IH1 IH2]].
  - split; [reflexivity|]. intros Hx. cbn [app starts_with]. now rewrite Hx.
  - cbn [app starts_with]. rewrite Hc. split; [exact IH1|exact IH2].
Qed.

Lemma is_comment_first_character_example :
  is_comment (chars "   ") = true
  /\ is_comment (chars "   #[x") = true
  /\ is_comment (chars "   1.5") = false.
Proof.
  assert (Hws : Forall (fun c => isspace c = true) (chars "   "))
    by (repeat constructor).
  split; [exact (proj1 (is_comment_first_character (chars "   ") [] Byte.x00 Hws))|].
  split.
  - exact (proj2 (is_comment_first_character (chars "   ") (chars "[x") (byte.of_Z 35) Hws)
             eq_refl).
  - exact (proj2 (is_comment_first_character (chars "   ") (chars ".5") (byte.of_Z 49) Hws)
             eq_refl).
Defined.

(** ** More on the log header *)

(** Both header formats begin with ['#']: a line that does not begin with
    it leaves the header as it is. *)
Lemma scan_without_hash (host : byte_order) (line : list byte) (header : _log_header) :
  match c_str line with
  | [] => True
  | x :: _ => byte.unsigned x <> 35
  end ->
  scan_start_time host line (scan_log_format line header) = header.
Proof.
  intros Hfirst.
  assert (Hrun : forall ds, exists n,
             sscanf_run (DLit (byte.of_Z 35) :: ds) (c_str line) [] = (n, []) /\ n <> 2).
  { intros ds. cbn [sscanf_run]. destruct (c_str line) as [|x l].
    - exists (-1). split; [reflexivity|lia].
    - apply Z.eqb_neq in Hfirst. change (byte.unsigned (byte.of_Z 35)) with 35.
      rewrite Hfirst. exists 0. split; [reflexivity|lia]. }
  unfold scan_log_format, scan_start_time, sscanf.
  set (ds1 := parse_format (chars "#[Histogram log format version %d.%d]")).
  set (ds2 := parse_format (chars ("#[StartTime: %d.%d [^" ++ nl ++ "]"))).
  assert (E1 : ds1 = DLit (byte.of_Z 35) :: tl ds1) by (vm_compute; reflexivity).
  assert (E2 : ds2 = DLit (byte.of_Z 35) :: tl ds2) by (vm_compute; reflexivity).
  rewrite E1, E2.
  destruct (Hrun (tl ds1)) as (n1 & -> & _).
  destruct (Hrun (tl ds2)) as (n2 & -> & Hn2).
  apply Z.eqb_neq in Hn2. rewrite Hn2.
  destruct header. reflexivity.
Qed.

(** X8.  [parse_log_comments] takes the first line that is not a comment out
    of the stream as well: without header lines, the first line of the
    stream is gone and the header is all zero. *)
Theorem parse_log_comments_takes_next_line (host : byte_order) (body rest : list byte) :
  forallb (fun c => negb (byte.unsigned c =? 10)) body = true ->
  (length body < 4095)%nat ->
  is_comment (c_str (body ++ [Byte.x0a])) = false ->
  parse_log_comments host (body ++ Byte.x0a :: rest)
  = ({| major_version := 0; minor_version := 0; start_time_ms := 0 |}, rest).
Proof.
  intros Hnl Hlen Hc. unfold parse_log_comments.
  assert (Hg : fgets 4096 (body ++ Byte.x0a :: rest) = Some (body ++ [Byte.x0a], rest)).
  { unfold fgets. change (4096 - 1)%nat with 4095%nat.
    rewrite read_line_whole by assumption. now destruct body. }
  set (zero := {| major_version := 0; minor_version := 0; start_time_ms := 0 |}).
  change (parse_log_comments_loop (S (length (body ++ Byte.x0a :: rest))) host
            (body ++ Byte.x0a :: rest) zero)
    with (match fgets 4096 (body ++ Byte.x0a :: rest) with
          | Some (line, f') =>
              if is_comment (c_str line)
              then parse_log_comments_loop (length (body ++ Byte.x0a :: rest)) host f'
                     (scan_start_time host line (scan_log_format line zero))
              else (zero, f')
          | None => (zero, body ++ Byte.x0a :: rest)
          end).
  now rewrite Hg, Hc.
Qed.

Lemma parse_log_comments_takes_next_line_example :
  parse_log_comments LittleEndian (chars "StartTimestamp,EndTimestamp" ++ Byte.x0a :: chars "0.1,0.2")
  = ({| major_version := 0; minor_version := 0; start_time_ms := 0 |}, chars "0.1,0.2").
Proof.
  apply (parse_log_comments_takes_next_line LittleEndian
           (chars "StartTimestamp,EndTimestamp") (chars "0.1,0.2")).
  - reflexivity.
  - vm_compute. lia.
  - reflexivity.
Defined.

(** X9.  A line that [is_comment] accepts and that does not begin with ['#']
    (an empty line, white space, a comment after white space) is passed
    over: the header is that of the lines that follow. *)
Theorem parse_log_comments_skips_line_without_hash (host : byte_order)
    (body rest : list byte) :
  forallb (fun c => negb (byte.unsigned c =? 10)) body = true ->
  (length body < 4095)%nat ->
  is_comment (c_str (body ++ [Byte.x0a])) = true ->
  at_ (body ++ [Byte.x0a]) 0 <> 35 ->
  parse_log_comments host (body ++ Byte.x0a :: rest) = parse_log_comments host rest.
Proof.
  intros Hnl Hlen Hc Hfirst. unfold parse_log_comments.
  rewrite (parse_log_comments_loop_line host _ body rest) by (assumption || lia).
  rewrite scan_without_hash; [reflexivity|].
  unfold at_ in Hfirst. destruct (body ++ [Byte.x0a]) as [|x l]; [exact I|].
  cbn [nth] in Hfirst. cbn [c_str]. now destruct (byte.unsigned x =? 0).
Qed.

Lemma parse_log_comments_skips_line_without_hash_example :
  parse_log_comments LittleEndian
    (chars " #[Histogram log format version 1.2]" ++ Byte.x0a :: chars "#[x]")
  = parse_log_comments LittleEndian (chars "#[x]").
Proof.
  apply (parse_log_comments_skips_line_without_hash LittleEndian
           (chars " #[Histogram log format version 1.2]") (chars "#[x]")).
  - reflexivity.
  - vm_compute. lia.
  - reflexivity.
  - vm_compute. discriminate.
Defined.

(** What [%d] leaves in an [int64_t] that was zero: the [int] in its
    first four bytes, which are the low ones on a little-endian host and
    the high ones on a big-endian host. *)
Lemma d_into_int64_value (host : byte_order) (v : Z) :
  d_into_int64 host 0 v
  = match host with
    | LittleEndian => v mod 2 ^ 32
    | BigEndian => wrap64s (v mod 2 ^ 32 * 2 ^ 32)
    end.
Proof.
  unfold d_into_int64. destruct host; cbn [store_int load_int].
  - f_equal.
    change (overlay (be_split 4 v) (be_split 8 0)) with (be_split 4 v ++ repeat Byte.x00 4).
    unfold be_combine, be_split. rewrite rev_app_distr, rev_involutive.
    change (rev (repeat Byte.x00 4)) with (repeat Byte.x00 4).
    rewrite le_combine_app, le_combine_0, le_combine_split, Z.lor_0_l.
    rewrite Z.shiftl_mul_pow2 by (cbn; lia). reflexivity.
  - change (overlay (le_split 4 v) (le_split 8 0)) with (le_split 4 v ++ repeat Byte.x00 4).
    rewrite le_combine_app_0, le_combine_split.
    change (2 ^ (Z.of_nat 4 * 8)) with (2 ^ 32).
    pose proof (Z.mod_pos_bound v (2 ^ 32) eq_refl) as Hb.
    revert Hb. generalize (v mod 2 ^ 32). intros x Hb. unfold wrap64s.
    change (2 ^ 32) with 4294967296 in Hb. change (2 ^ 63) with 9223372036854775808.
    change (2 ^ 64) with 18446744073709551616.
    rewrite Z.mod_small; lia.
Qed.

Lemma wrap64s_of_sum (a b : Z) :
  wrap64s (wrap64s a * 1000 + wrap64s b) = wrap64s (a * 1000 + b).
Proof.
  unfold wrap64s. f_equal.
  change (2 ^ 63) with 9223372036854775808. change (2 ^ 64) with 18446744073709551616.
  Z.div_mod_to_equations. lia.
Qed.

(** X10.  The start time of a [#[StartTime: s.m ...] line.  On a little-endian
    host it is [s * 1000 + m], with [s] and [m] read as unsigned 32-bit
    numbers; on a big-endian host, where the two numbers land in the high
    halves of the variables, it is that times [2 ^ 32], as an [int64_t].
    The versions of the header stay. *)
Theorem scan_start_time_value (host : byte_order) (line : list byte) (header : _log_header)
    (s m : Z) :
  sscanf line ("#[StartTime: %d.%d [^" ++ nl ++ "]") = (2, [VInt s; VInt m]) ->
  scan_start_time host line header
  = {| major_version := major_version header;
       minor_version := minor_version header;
       start_time_ms :=
         match host with
         | LittleEndian => s mod 2 ^ 32 * 1000 + m mod 2 ^ 32
         | BigEndian => wrap64s ((s mod 2 ^ 32 * 1000 + m mod 2 ^ 32) * 2 ^ 32)
         end |}.
Proof.
  intros Hs. unfold scan_start_time. rewrite Hs.
  cbn [int_item nth_error fmap option_fmap option_map default Z.eqb Pos.eqb].
  f_equal. unfold id. rewrite !d_into_int64_value. destruct host.
  - rewrite wrap64s_of_sum. f_equal. ring.
  - pose proof (Z.mod_pos_bound s (2 ^ 32) eq_refl) as Hb1.
    pose proof (Z.mod_pos_bound m (2 ^ 32) eq_refl) as Hb2.
    revert Hb1 Hb2. generalize (s mod 2 ^ 32), (m mod 2 ^ 32). intros x y Hb1 Hb2.
    unfold wrap64s.
    change (2 ^ 32) with 4294967296 in Hb1, Hb2. change (2 ^ 63) with 9223372036854775808.
    change (2 ^ 64) with 18446744073709551616.
    rewrite Z.mod_small; lia.
Qed.

(** The line of the example, on both hosts. *)
Lemma scan_start_time_value_example :
  start_time_ms
    (scan_start_time LittleEndian (chars "#[StartTime: 1441812279.139000 ...]")
       {| major_version := 1; minor_version := 2; start_time_ms := 0 |})
  = 1441812279 * 1000 + 139000
  /\ start_time_ms
       (scan_start_time BigEndian (chars "#[StartTime: 1441812279.139000 ...]")
          {| major_version := 1; minor_version := 2; start_time_ms := 0 |})
     = wrap64s ((1441812279 * 1000 + 139000) * 2 ^ 32).
Proof.
  split.
  - rewrite (scan_start_time_value LittleEndian (chars "#[StartTime: 1441812279.139000 ...]")
               _ 1441812279 139000 ltac:(vm_compute; reflexivity)).
    reflexivity.
  - rewrite (scan_start_time_value BigEndian (chars "#[StartTime: 1441812279.139000 ...]")
               _ 1441812279 139000 ltac:(vm_compute; reflexivity)).
    reflexivity.
Defined.

(** ** Error messages *)

(** X11.  [hdr_strerror] has a message of its own for each of the nine error
    numbers of the file, and ["Unknown error"] for every other number, 0
    among them. *)
Theorem hdr_strerror_messages :
  let codes := [EINVAL; ENOMEM; HDR_COMPRESSION_COOKIE_MISMATCH;
                HDR_ENCODING_COOKIE_MISMATCH; HDR_DEFLATE_INIT_FAIL; HDR_DEFLATE_FAIL;
                HDR_INFLATE_INIT_FAIL; HDR_INFLATE_FAIL; HDR_DEFLATE_NEED_REALLOC] in
  (forall e : Z, hdr_strerror e = "Unknown error"%string <-> ~ In e codes)
  /\ (forall a b : Z, In a codes -> In b codes -> hdr_strerror a = hdr_strerror b -> a = b).
Proof.
  cbv zeta. split.
  - intros e. unfold hdr_strerror.
    repeat match goal with
           | |- context [e =? ?c] => destruct (Z.eqb_spec e c) as [->|?]
           end;
      (split; [try discriminate; intros _ Hin; cbn [In] in Hin; intuition congruence
              |intros Hn; try reflexivity; exfalso; apply Hn; cbn [In]; tauto]).
  - intros a b Ha Hb. cbn [In] in Ha, Hb.
    repeat match goal with
           | H : _ \/ _ |- _ => destruct H as [H|H]
           | H : False |- _ => destruct H
           end; subst; (reflexivity || (intros Hm; vm_compute in Hm; discriminate)).
Qed.

(** ** The results of the decoder, the encoder and the parser on concrete inputs *)

(** The example envelope decodes; the envelope whose stream ends in an
    error gives HDR_INFLATE_FAIL; the one with a wrong inner cookie has no
    result. *)
Lemma decode_results_example :
  (@None hdr_histogram = None
   /\ ((0 = 0 /\ exists h, Some example_histogram = Some h)
       \/ (0 = HDR_INFLATE_FAIL /\ Some example_histogram = None)))
  /\ (@None hdr_histogram = None
      /\ ((HDR_INFLATE_FAIL = 0 /\ exists h, @None hdr_histogram = Some h)
          \/ (HDR_INFLATE_FAIL = HDR_INFLATE_FAIL /\ @None hdr_histogram = None)))
  /\ hdr_decode_compressed LittleEndian unit stored_inflateInit stored_inflate
       (fixed_hdr_init 3) zeros 1 bad_inner_envelope 64 None
     = None.
Proof.
  split; [|split].
  - apply (proj1 (decode_results LittleEndian unit stored_inflateInit stored_inflate
                    (fixed_hdr_init 3) zeros 1 example_envelope 64 None)
             (Some example_histogram) 0).
    vm_compute. reflexivity.
  - apply (proj1 (decode_results LittleEndian unit stored_inflateInit checked_inflate
                    (fixed_hdr_init 3) zeros 1 damaged_envelope 65 None)
             None HDR_INFLATE_FAIL).
    vm_compute. reflexivity.
  - apply (proj2 (decode_results LittleEndian unit stored_inflateInit stored_inflate
                    (fixed_hdr_init 3) zeros 1 bad_inner_envelope 64 None)
             HDR_ENCODING_COOKIE_MISMATCH).
    vm_compute. reflexivity.
Defined.

Lemma decode_rejects_arguments_example :
  (decode_header LittleEndian unit stored_inflateInit stored_inflate
     (fixed_hdr_init 3) zeros example_envelope 7 None = inl EINVAL
   /\ hdr_decode_compressed LittleEndian unit stored_inflateInit stored_inflate
        (fixed_hdr_init 3) zeros 1 example_envelope 7 None = None)
  /\ (decode_header LittleEndian unit stored_inflateInit stored_inflate
        (fixed_hdr_init 3) zeros example_envelope 64 (Some wide_histogram) = inl EINVAL
      /\ hdr_decode_compressed LittleEndian unit stored_inflateInit stored_inflate
           (fixed_hdr_init 3) zeros 1 example_envelope 64 (Some wide_histogram) = None).
Proof.
  split.
  - apply (decode_rejects_arguments LittleEndian unit stored_inflateInit stored_inflate
             (fixed_hdr_init 3) zeros 1 example_envelope 7 None).
    left. reflexivity.
  - apply (decode_rejects_arguments LittleEndian unit stored_inflateInit stored_inflate
             (fixed_hdr_init 3) zeros 1 example_envelope 64 (Some wide_histogram)).
    right. discriminate.
Defined.

Lemma decode_inflate_init_failure_example :
  decode_header LittleEndian unit failing_inflateInit stored_inflate
    (fixed_hdr_init 3) zeros example_envelope 64 None = inl HDR_INFLATE_FAIL
  /\ hdr_decode_compressed LittleEndian unit failing_inflateInit stored_inflate
       (fixed_hdr_init 3) zeros 1 example_envelope 64 None
     = None.
Proof.
  apply (decode_inflate_init_failure LittleEndian unit failing_inflateInit stored_inflate
           (fixed_hdr_init 3) zeros 1 example_envelope 64).
  - vm_compute. split; discriminate.
  - vm_compute. reflexivity.
  - vm_compute. discriminate.
Defined.

(** With the length of the envelope header alone, the example envelope
    decodes as with its whole length. *)
Lemma decode_ignores_length_example :
  hdr_decode_compressed LittleEndian unit stored_inflateInit stored_inflate
    (fixed_hdr_init 3) zeros 1 example_envelope 8 None
  = hdr_decode_compressed LittleEndian unit stored_inflateInit stored_inflate
      (fixed_hdr_init 3) zeros 1 example_envelope 64 None.
Proof.
  apply (decode_ignores_length LittleEndian unit stored_inflateInit stored_inflate
           (fixed_hdr_init 3) zeros 1 example_envelope 8 64 None).
  - vm_compute. discriminate.
  - vm_compute. discriminate.
Defined.

(** An allocator that refuses the first buffer. *)
Lemma encode_results_example :
  (ENOMEM = 0 /\ exists buf clen, @None (list byte * Z) = Some (buf, clen))
  \/ (In ENOMEM [ENOMEM; HDR_DEFLATE_INIT_FAIL; HDR_DEFLATE_FAIL]
      /\ @None (list byte * Z) = None).
Proof.
  apply (encode_results LittleEndian (list byte) stored_deflateInit stored_deflate
           (granted_up_to 100) zeros zeros 2 example_histogram ENOMEM None).
  vm_compute. reflexivity.
Defined.

Lemma encode_envelope_layout_example :
  exists buf clen,
    hdr_encode_compressed LittleEndian (list byte) stored_deflateInit stored_deflate
      (granted_up_to 65536) zeros zeros 2 example_histogram = Some (0, Some (buf, clen))
    /\ exists written : list byte,
         written = payload example_histogram
         /\ slice 0 4 buf = be_split 4 COMPRESSION_COOKIE
         /\ be_combine (slice 4 4 buf) = Z.of_nat (length written)
         /\ slice 8 (length written) buf = written.
Proof.
  eexists _, _. split; [vm_compute; reflexivity|].
  eapply (encode_envelope_layout LittleEndian (list byte) stored_deflateInit stored_deflate
            (granted_up_to 65536) zeros zeros (fun data compressed => compressed = data)
            example_histogram 2).
  - exact stored_takes_input.
  - exact stored_ends_stream.
  - apply granted_up_to_bounded. reflexivity.
  - vm_compute. reflexivity.
Defined.

Lemma encode_length_big_endian_example :
  exists buf,
    hdr_encode_compressed BigEndian (list byte) stored_deflateInit stored_deflate
      granted zeros zeros 2 example_histogram = Some (0, Some (buf, 8 + 56)).
Proof.
  assert (Hs : exists strm buf0,
             encode_stream BigEndian (list byte) stored_deflateInit stored_deflate
               granted zeros zeros 2 example_histogram = Some (0, Some (strm, buf0))
             /\ total_out strm = 56).
  { eexists _, _. split; [vm_compute; reflexivity | reflexivity]. }
  destruct Hs as (strm & buf0 & Hstream & Ht).
  destruct (encode_length_big_endian BigEndian (list byte) stored_deflateInit
              stored_deflate granted zeros zeros 2 example_histogram strm buf0
              eq_refl Hstream ltac:(rewrite Ht; change (2 ^ 31) with 2147483648; lia))
    as (buf & He).
  exists buf. rewrite He, Ht. reflexivity.
Defined.

(** The buffering codec after a [Z_FINISH] that could not write all. *)
Lemma encode_counts_after_unfinished_finish_example :
  exists strm2 buf2,
    encode_counts LittleEndian (list byte * bool) buffered_deflate granted zeros 2 1
      example_histogram pending_stream (repeat Byte.x00 12) 12 [] 3
    = Some (HDR_DEFLATE_FAIL, strm2, buf2, 24).
Proof.
  eexists _, _.
  eapply (encode_counts_after_unfinished_finish LittleEndian (list byte * bool)
            buffered_deflate granted zeros 0 0 example_histogram pending_stream _ _
            (repeat Byte.x00 12) _ _ [] 12 3 Z_STREAM_ERROR).
  - vm_compute. discriminate.
  - vm_compute. discriminate.
  - vm_compute. reflexivity.
  - reflexivity.
  - reflexivity.
  - vm_compute. reflexivity.
  - vm_compute. discriminate.
Defined.

Lemma parse_lines_results_example : EINVAL = 0 \/ EINVAL = ENOMEM \/ EINVAL = EINVAL.
Proof.
  apply (parse_lines_results LittleEndian unit stored_inflateInit stored_inflate
           (fixed_hdr_init 3) granted zeros 1 malformed_record EINVAL []).
  vm_compute. reflexivity.
Defined.

(** A record with the example envelope, before a line that is not a
    record: the histogram is printed and the parse ends with EINVAL. *)
Lemma decoded_record_is_printed_example :
  parse_lines LittleEndian unit stored_inflateInit stored_inflate (fixed_hdr_init 3)
    granted zeros 1 (envelope_record ++ malformed_record)
  = match parse_lines LittleEndian unit stored_inflateInit stored_inflate (fixed_hdr_init 3)
            granted zeros 1 malformed_record with
    | Some (r, printed) => Some (r, example_histogram :: printed)
    | None => None
    end.
Proof.
  apply (decoded_record_is_printed LittleEndian unit stored_inflateInit stored_inflate
           (fixed_hdr_init 3) granted zeros 1
           (envelope_record ++ malformed_record) envelope_record malformed_record
           [VInt 0; VInt 0; VInt 0; VInt 0; VInt 0; VInt 0;
            VStr (snd (base64_encode example_envelope 88))]
           (example_envelope ++ [Byte.x00; Byte.x00]) example_histogram).
  - vm_compute. reflexivity.
  - vm_compute. reflexivity.
  - vm_compute. reflexivity.
  - vm_compute. reflexivity.
  - vm_compute. reflexivity.
Defined.

Lemma record_with_bad_token_length_example :
  parse_lines LittleEndian unit stored_inflateInit stored_inflate (fixed_hdr_init 3)
    granted zeros 1 (short_token_record ++ envelope_record)
  = Some (EINVAL, []).
Proof.
  apply (record_with_bad_token_length LittleEndian unit stored_inflateInit stored_inflate
           (fixed_hdr_init 3) granted zeros 1
           (short_token_record ++ envelope_record) short_token_record envelope_record
           [VInt 0; VInt 0; VInt 0; VInt 0; VInt 0; VInt 0; VStr (chars "AAAAA")]).
  - vm_compute. reflexivity.
  - vm_compute. reflexivity.
  - vm_compute. reflexivity.
  - right. vm_compute. discriminate.
Defined.

(** Three values for an array of two counts. *)
Lemma store_counts_in_bounds_example :
  exists cs' counts_index' tally',
    store_counts LittleEndian 3 0 (counts_bytes [5; 6; 7]) [0; 0] 0 0
    = Some (cs', counts_index', tally')
    /\ length cs' = length [0; 0].
Proof.
  apply (store_counts_in_bounds LittleEndian 3 0 (counts_bytes [5; 6; 7]) [0; 0] 0 0).
  lia.
Defined.
